(** * Metric extraction from TikTok "xtable" markdown

    A shallow embedding of the table-extraction pipeline of the metrics
    scraper: [parseDeprecationStatus], [parseXTable],
    [extractMetricFromRow] and [processMarkdownContent].

    JavaScript strings are sequences of UTF-16 code units.  They are
    modelled by [string], whose characters are the code units below 256
    (the Latin-1 range).  On that range [String.prototype.trim] removes the
    code units 9-13, 32 and 160, [toLowerCase] moves A-Z and the accented
    capitals 192-222 (215 apart) up by 32, and a regular expression with the
    [i] flag and without the [u] flag compares code units after the simple
    upper-case mapping, which relates an ASCII letter of a pattern to its two
    cases only.  [console.log] calls write to the terminal and are left
    out.

    After the pipeline come the views that the scraper derives from the
    list of records ([groupMetrics], the statistics of [formatOutput],
    [exportByCategory], [exportActiveMetrics], [formatAsOptionGroups]),
    with plain objects modelled by their own properties in order of
    creation.  [groupMetrics] reads its keys through the prototype chain;
    the built-in objects that such a read can reach, and what the function
    writes onto them, are modelled by a realm that the views pass on.
    Last come two helpers of the downloader ([sanitizeFilename],
    [countDocs]). *)

From Stdlib Require Import String Ascii List ZArith Bool Lia Permutation.
Import ListNotations.
Open Scope string_scope.

(** ** JavaScript string primitives *)

Module Js.

(** [WhiteSpace] and [LineTerminator] code units below 256. *)
Definition isWhiteSpace (c : ascii) : bool :=
  match N_of_ascii c with
  | 9%N | 10%N | 11%N | 12%N | 13%N | 32%N | 160%N => true
  | _ => false
  end.

(** A string is truthy when it is not empty. *)
Definition truthy (s : string) : bool :=
  match s with
  | EmptyString => false
  | String _ _ => true
  end.

Fixpoint trimStart (s : string) : string :=
  match s with
  | EmptyString => EmptyString
  | String c r => if isWhiteSpace c then trimStart r else s
  end.

Fixpoint trimEnd (s : string) : string :=
  match s with
  | EmptyString => EmptyString
  | String c r =>
      match trimEnd r with
      | EmptyString =>
          if isWhiteSpace c then EmptyString else String c EmptyString
      | t => String c t
      end
  end.

(** [s.trim()] *)
Definition trim (s : string) : string := trimEnd (trimStart s).

(** [s.startsWith(p)] *)
Fixpoint startsWith (s p : string) {struct p} : bool :=
  match p with
  | EmptyString => true
  | String b p' =>
      match s with
      | EmptyString => false
      | String a s' => Ascii.eqb a b && startsWith s' p'
      end
  end.

(** [s.includes(p)] *)
Fixpoint includes (s p : string) : bool :=
  startsWith s p ||
  match s with
  | EmptyString => false
  | String _ r => includes r p
  end.

(** [s.substring(n)]: the code units from index [n] on. *)
Fixpoint substringFrom (n : nat) (s : string) : string :=
  match n, s with
  | O, _ => s
  | S _, EmptyString => EmptyString
  | S k, String _ r => substringFrom k r
  end.

(** [s.split(d)] for a separator [d] of one code unit. *)
Fixpoint split (d : ascii) (s : string) : list string :=
  match s with
  | EmptyString => [EmptyString]
  | String c r =>
      if Ascii.eqb c d then EmptyString :: split d r
      else match split d r with
           | [] => [String c EmptyString]
           | h :: t => String c h :: t
           end
  end.

Definition lowerChar (c : ascii) : ascii :=
  let n := N_of_ascii c in
  if ((65 <=? n) && (n <=? 90) ||
      (192 <=? n) && (n <=? 222) && negb (n =? 215))%N
  then ascii_of_N (n + 32) else c.

(** [s.toLowerCase()] *)
Fixpoint toLowerCase (s : string) : string :=
  match s with
  | EmptyString => EmptyString
  | String c r => String (lowerChar c) (toLowerCase r)
  end.

(** [Array.prototype.findIndex]: the first index whose element satisfies
    [p], or -1. *)
Fixpoint findIndex {A : Type} (p : A -> bool) (l : list A) : Z :=
  match l with
  | [] => (-1)%Z
  | x :: r =>
      if p x then 0%Z
      else let k := findIndex p r in
           if (k =? -1)%Z then (-1)%Z else (k + 1)%Z
  end.

(** [row[i]]: [None] is [undefined]. *)
Definition at_ {A : Type} (l : list A) (i : Z) : option A :=
  if (i <? 0)%Z then None else nth_error l (Z.to_nat i).

(** Truthiness of [row[i]]: [undefined] and the empty string are falsy. *)
Definition truthyCell (c : option string) : bool :=
  match c with
  | Some s => truthy s
  | None => false
  end.

(** [row[i] || ""], and [row[i]] where it is known to be defined. *)
Definition orEmpty (c : option string) : string :=
  match c with
  | Some s => s
  | None => EmptyString
  end.

End Js.

(** ** Regular expressions of the scraper *)

Module Re.

(** Canonicalisation of a code unit under the [i] flag. *)
Definition canonicalize (c : ascii) : ascii :=
  let n := N_of_ascii c in
  if ((97 <=? n) && (n <=? 122) ||
      (224 <=? n) && (n <=? 254) && negb (n =? 247))%N
  then ascii_of_N (n - 32) else c.

Definition ciEqb (a b : ascii) : bool :=
  Ascii.eqb (canonicalize a) (canonicalize b).

(** The literal pattern [pat] matches at the start of [s], case
    insensitively. *)
Fixpoint matchAt (pat s : string) {struct pat} : bool :=
  match pat with
  | EmptyString => true
  | String p pat' =>
      match s with
      | EmptyString => false
      | String c s' => ciEqb p c && matchAt pat' s'
      end
  end.

(** [/pat/i.test(s)] for a literal pattern. *)
Fixpoint test (pat s : string) : bool :=
  matchAt pat s ||
  match s with
  | EmptyString => false
  | String _ r => test pat r
  end.

(** [s.replace(/pat/i, "")]: the leftmost match is removed. *)
Fixpoint removeFirst (pat s : string) : string :=
  if matchAt pat s then Js.substringFrom (String.length pat) s
  else match s with
       | EmptyString => EmptyString
       | String c r => String c (removeFirst pat r)
       end.

(** [s.replace(/^#/, "")] *)
Definition removeLeadingHash (s : string) : string :=
  match s with
  | String "#"%char r => r
  | _ => s
  end.

(** The character class [[\d%]]. *)
Definition isDigitOrPercent (c : ascii) : bool :=
  let n := N_of_ascii c in
  ((48 <=? n) && (n <=? 57) || (n =? 37))%N.

(** [runThenBrace s] reads the longest run of [[\d%]] at the start of [s];
    when the run is not empty and a closing brace follows, it returns the
    number of code units read, brace included. *)
Fixpoint runThenBrace (s : string) : option nat :=
  match s with
  | EmptyString => None
  | String c r =>
      if isDigitOrPercent c then
        match r with
        | String "}"%char _ => Some 2%nat
        | _ => option_map S (runThenBrace r)
        end
      else None
  end.

(** Length of the match of [/\{[\d%]+\}/] at the start of [s], if any. *)
Definition widthMatch (s : string) : option nat :=
  match s with
  | String "{"%char r => option_map S (runThenBrace r)
  | _ => None
  end.

(** [s.replace(/\{[\d%]+\}/g, "")].  [skip] counts the code units of the
    current match that are still to be passed over. *)
Fixpoint removeWidthsFrom (skip : nat) (s : string) : string :=
  match s with
  | EmptyString => EmptyString
  | String c r =>
      match skip with
      | S k => removeWidthsFrom k r
      | O =>
          match widthMatch s with
          | Some n => removeWidthsFrom (Nat.pred n) r
          | None => String c (removeWidthsFrom 0 r)
          end
      end
  end.

Definition removeWidths (s : string) : string := removeWidthsFrom 0 s.

End Re.

Import Js.

(** ** Data model *)

Inductive DeprecationStatus : Type :=
  | active
  | deprecated
  | to_be_deprecated.

Record Metric : Type := mkMetric {
  name : string;
  category : string;
  subcategory : string;
  type : string;
  description : string;
  commentary : string;
  deprecationStatus : DeprecationStatus
}.

Record ParsedTable : Type := mkParsedTable {
  headers : list string;
  rows : list (list string)
}.

(** ** parseDeprecationStatus *)

Definition toBeDeprecatedPattern : string := "{-To be deprecated}".
Definition deprecatedPattern : string := "{-deprecated}".

Definition parseDeprecationStatus (fieldName : string)
  : string * DeprecationStatus :=
  if Re.test toBeDeprecatedPattern fieldName then
    (trim (Re.removeFirst toBeDeprecatedPattern fieldName), to_be_deprecated)
  else if Re.test deprecatedPattern fieldName then
    (trim (Re.removeFirst deprecatedPattern fieldName), deprecated)
  else (fieldName, active).

(** ** parseXTable *)

Definition LF : ascii := "010"%char.

(** The header cells of the header line. *)
Definition headerCells (headerLine : string) : list string :=
  map (fun h => trim (Re.removeWidths h))
      (filter (fun h => truthy (trim h)) (split "|" headerLine)).

(** The cells of one data line. *)
Definition rowCells (line : string) : list string :=
  map (fun cell => trim cell)
      (filter (fun cell => negb (cell =? ""))
              (split "|" (Re.removeLeadingHash line))).

(** [None] is the [TypeError] raised by [headerLine.split] when [lines[0]]
    is [undefined]. *)
Definition parseXTable (tableContent : string) : option ParsedTable :=
  let lines :=
    filter (fun line => truthy (trim line)) (split LF tableContent) in
  match lines with
  | [] => None
  | headerLine :: _ =>
      let dataLines := skipn 2 lines in
      Some {| headers := headerCells headerLine;
              rows := map rowCells dataLines |}
  end.

(** ** extractMetricFromRow *)

Definition isFieldHeader (h : string) : bool :=
  includes (toLowerCase h) "field" || (toLowerCase h =? "field").
Definition isTypeHeader (h : string) : bool :=
  includes (toLowerCase h) "type" || (toLowerCase h =? "type").
Definition isDescHeader (h : string) : bool :=
  includes (toLowerCase h) "description" || (toLowerCase h =? "description").
Definition isDetailHeader (h : string) : bool :=
  includes (toLowerCase h) "detail" || (toLowerCase h =? "details").

(** [i !== -1 && row[i] ? row[i] : dflt] *)
Definition cellOr (row : list string) (i : Z) (dflt : string) : string :=
  if negb (i =? -1)%Z && truthyCell (at_ row i) then orEmpty (at_ row i)
  else dflt.

Definition extractMetricFromRow (row headers : list string)
    (category subcategory : string) : option Metric :=
  let fieldIndex := findIndex isFieldHeader headers in
  let typeIndex := findIndex isTypeHeader headers in
  let descIndex := findIndex isDescHeader headers in
  let detailIndex := findIndex isDetailHeader headers in
  if (fieldIndex =? -1)%Z || (Z.of_nat (List.length row) <=? fieldIndex)%Z
  then None
  else
    let fieldName := orEmpty (at_ row fieldIndex) in
    if startsWith fieldName "#" || (fieldName =? "")
       || (Z.of_nat (List.length row) <? 3)%Z
    then None
    else
      let '(cleanName, status) := parseDeprecationStatus fieldName in
      Some {| name := cleanName;
              category := category;
              subcategory := subcategory;
              type := cellOr row typeIndex "string";
              description := cellOr row descIndex "";
              commentary := cellOr row detailIndex "";
              deprecationStatus := status |}.

(** ** processMarkdownContent *)

(** The variables of the scan: the output list and the heading context. *)
Record Walker : Type := mkWalker {
  metrics : list Metric;
  currentCategory : string;
  currentSubcategory : string;
  currentSubSubcategory : string;
  currentInlineHeader : string
}.

Definition initialWalker : Walker :=
  {| metrics := [];
     currentCategory := "General";
     currentSubcategory := "General";
     currentSubSubcategory := "";
     currentInlineHeader := "" |}.

Definition isH1 (line : string) : bool :=
  startsWith line "# " && negb (startsWith line "## ").
Definition isH2 (line : string) : bool :=
  startsWith line "## " && negb (startsWith line "### ").
Definition isH3 (line : string) : bool :=
  startsWith line "### ".

Definition onH1 (w : Walker) (line : string) : Walker :=
  {| metrics := metrics w;
     currentCategory := trim (substringFrom 2 line);
     currentSubcategory := "General";
     currentSubSubcategory := "";
     currentInlineHeader := "" |}.

Definition onH2 (w : Walker) (line : string) : Walker :=
  {| metrics := metrics w;
     currentCategory := currentCategory w;
     currentSubcategory := trim (substringFrom 3 line);
     currentSubSubcategory := "";
     currentInlineHeader := "" |}.

Definition onH3 (w : Walker) (line : string) : Walker :=
  {| metrics := metrics w;
     currentCategory := currentCategory w;
     currentSubcategory := currentSubcategory w;
     currentSubSubcategory := trim (substringFrom 4 line);
     currentInlineHeader := "" |}.

(** The inline-header test at the top of the [forEach] callback: [Some h]
    when the callback assigns [h] to [currentInlineHeader] and returns.
    The callback also computes [descIndex] and [descValue], which it never
    reads. *)
Definition inlineHeaderOf (headers row : list string) : option string :=
  let fieldIndex := findIndex isFieldHeader headers in
  let typeIndex := findIndex isTypeHeader headers in
  if negb (fieldIndex =? -1)%Z && truthyCell (at_ row fieldIndex) then
    let fieldName := trim (orEmpty (at_ row fieldIndex)) in
    let typeValue :=
      if negb (typeIndex =? -1)%Z && truthyCell (at_ row typeIndex)
      then trim (orEmpty (at_ row typeIndex)) else "" in
    if truthy fieldName && negb (truthy typeValue)
       && negb (startsWith fieldName "#")
    then Some fieldName
    else None
  else None.

(** The subcategory handed to [extractMetricFromRow]. *)
Definition effectiveSubcategory (w : Walker) : string :=
  let effectiveSubcategory0 := currentSubcategory w in
  let effectiveSubcategory1 :=
    if truthy (currentSubSubcategory w)
    then currentSubcategory w ++ " - " ++ currentSubSubcategory w
    else effectiveSubcategory0 in
  if truthy (currentInlineHeader w) then
    if effectiveSubcategory1 =? "General" then currentInlineHeader w
    else effectiveSubcategory1 ++ " - " ++ currentInlineHeader w
  else effectiveSubcategory1.

Definition setInlineHeader (w : Walker) (h : string) : Walker :=
  {| metrics := metrics w;
     currentCategory := currentCategory w;
     currentSubcategory := currentSubcategory w;
     currentSubSubcategory := currentSubSubcategory w;
     currentInlineHeader := h |}.

(** [if (metric) metrics.push(metric)] *)
Definition pushMetric (w : Walker) (m : option Metric) : Walker :=
  match m with
  | Some metric =>
      {| metrics := metrics w ++ [metric];
         currentCategory := currentCategory w;
         currentSubcategory := currentSubcategory w;
         currentSubSubcategory := currentSubSubcategory w;
         currentInlineHeader := currentInlineHeader w |}
  | None => w
  end.

(** The [forEach] callback, run on one row. *)
Definition processRow (headers : list string) (w : Walker)
    (row : list string) : Walker :=
  match inlineHeaderOf headers row with
  | Some fieldName => setInlineHeader w fieldName
  | None =>
      pushMetric w
        (extractMetricFromRow row headers (currentCategory w)
           (effectiveSubcategory w))
  end.

(** The body of [if (tableContent.trim())], with its guard.  [None] is an
    exception that leaves [processMarkdownContent]. *)
Definition processTable (w : Walker) (tableContent : string) : option Walker :=
  if truthy (trim tableContent) then
    match parseXTable tableContent with
    | Some t => Some (fold_left (processRow (headers t)) (rows t) w)
    | None => None
    end
  else Some w.

(** The outer [while] loop ([scanLines]) and the inner one that gathers the
    table text ([collectTable]).  Both read [lines] from the cursor [i] on:
    the list argument is [lines.slice(i)]. *)
Fixpoint scanLines (w : Walker) (lines : list string) {struct lines}
  : option Walker :=
  match lines with
  | [] => Some w
  | line :: rest =>
      if isH1 line then scanLines (onH1 w line) rest
      else if isH2 line then scanLines (onH2 w line) rest
      else if isH3 line then scanLines (onH3 w line) rest
      else if includes line "```xtable" then collectTable w "" rest
      else scanLines w rest
  end
with collectTable (w : Walker) (tableContent : string) (lines : list string)
    {struct lines} : option Walker :=
  match lines with
  | [] => processTable w tableContent
  | line :: rest =>
      if includes line "```" then
        match processTable w tableContent with
        | Some w' => scanLines w' rest
        | None => None
        end
      else collectTable w (tableContent ++ line ++ String LF "") rest
  end.

Definition processMarkdownContent (content : string) : option (list Metric) :=
  option_map metrics (scanLines initialWalker (split LF content)).

(** Several lines as one text, each ended by a line feed. *)
Fixpoint unlines (ls : list string) : string :=
  match ls with
  | [] => ""
  | l :: r => l ++ String LF (unlines r)
  end.

Definition exampleDocument : string :=
  unlines
    [ "# Engagement";
      "## Video Metrics";
      "```xtable";
      "Field | Type | Description";
      "---";
      "video_views | number | Total views";
      "#Legacy Fields";
      "total_comments {-deprecated} | number | Total comments";
      "```" ].

(** ** Utilities *)

(** [str.replace(/\s+/g, " ")]: every maximal run of white space becomes
    one space.  [inRun] tells that the code unit before was white space,
    so that the current match of [\s+] goes on. *)
Fixpoint replaceWhiteSpaceRuns (inRun : bool) (s : string) : string :=
  match s with
  | EmptyString => EmptyString
  | String c r =>
      if isWhiteSpace c then
        if inRun then replaceWhiteSpaceRuns true r
        else String " " (replaceWhiteSpaceRuns true r)
      else String c (replaceWhiteSpaceRuns false r)
  end.

Definition removeExtraWhitespace (str : string) : string :=
  trim (replaceWhiteSpaceRuns false str).

(** ** Plain objects *)

(** An object created by [{}] and filled by assignments [o[k] = v]: its own
    properties in the order of their creation.  A read of a key that is not
    an own property falls through to [Object.prototype]. *)
Module Obj.

(** The property names that every plain object inherits. *)
Definition inheritedNames : list string :=
  [ "constructor"; "__defineGetter__"; "__defineSetter__";
    "hasOwnProperty"; "__lookupGetter__"; "__lookupSetter__";
    "isPrototypeOf"; "propertyIsEnumerable"; "toString"; "valueOf";
    "__proto__"; "toLocaleString" ].

Definition inherited (k : string) : bool :=
  existsb (String.eqb k) inheritedNames.

Section Properties.

Context {V : Type}.

(** The own property [k], if there is one. *)
Fixpoint get (o : list (string * V)) (k : string) : option V :=
  match o with
  | [] => None
  | (k', v) :: r => if k' =? k then Some v else get r k
  end.

(** [o[k] = v]: an own property keeps its place, a new one comes last. *)
Fixpoint set (o : list (string * V)) (k : string) (v : V)
  : list (string * V) :=
  match o with
  | [] => [(k, v)]
  | (k', v') :: r =>
      if k' =? k then (k', v) :: r else (k', v') :: set r k v
  end.

Definition digitValue (c : ascii) : option N :=
  let n := N_of_ascii c in
  if ((48 <=? n) && (n <=? 57))%N then Some (n - 48)%N else None.

Fixpoint decimalFrom (acc : N) (s : string) : option N :=
  match s with
  | EmptyString => Some acc
  | String c r =>
      match digitValue c with
      | Some d => decimalFrom (10 * acc + d)%N r
      | None => None
      end
  end.

(** A key is an array index when it is the decimal writing, without
    leading zero, of an integer from 0 to 2^32 - 2. *)
Definition arrayIndex (k : string) : option N :=
  match k with
  | EmptyString => None
  | String c r =>
      if Ascii.eqb c "0" && negb (r =? "") then None
      else match decimalFrom 0 k with
           | Some n => if (n <=? 4294967294)%N then Some n else None
           | None => None
           end
  end.

Fixpoint insertByIndex (n : N) (e : string * V)
    (l : list (N * (string * V))) : list (N * (string * V)) :=
  match l with
  | [] => [(n, e)]
  | (n', e') :: r =>
      if (n <=? n')%N then (n, e) :: l else (n', e') :: insertByIndex n e r
  end.

(** The properties whose key is an array index, by ascending index. *)
Fixpoint indexed (o : list (string * V)) : list (N * (string * V)) :=
  match o with
  | [] => []
  | e :: r =>
      match arrayIndex (fst e) with
      | Some n => insertByIndex n e (indexed r)
      | None => indexed r
      end
  end.

Definition isNamed (e : string * V) : bool :=
  match arrayIndex (fst e) with
  | Some _ => false
  | None => true
  end.

(** [Object.entries(o)]: the array indices in ascending order, then the
    other keys in the order of their creation. *)
Definition entries (o : list (string * V)) : list (string * V) :=
  map snd (indexed o) ++ filter isNamed o.

(** [Object.keys(o)] and [Object.values(o)] *)
Definition keys (o : list (string * V)) : list string :=
  map fst (entries o).
Definition values (o : list (string * V)) : list V :=
  map snd (entries o).

End Properties.

End Obj.

(** ** The built-in objects within reach of groupMetrics *)

(** [groupMetrics] reads [acc[metric.category]] and
    [acc[metric.category][metric.subcategory]] through the prototype chain.
    When the category is no own property of [acc] the read goes on to
    [Object.prototype]: there [__proto__] gives [Object.prototype] itself
    and the eleven other names of [Obj.inheritedNames] give built-in
    functions.  All of these are truthy, so the callback creates no object
    for the category and goes on to read, and to write, the subcategory on
    the built-in object.  An array that it creates on [Object.prototype]
    is from then on inherited by every object, [acc] and the arrays
    included, so that a later category can name that array.

    A realm is the part of the built-in objects that decides what these
    reads find: the names of the properties that the built-in functions and
    [Array.prototype] have before the program runs, and the arrays that the
    callback has created on built-in objects since. *)
Module Realm.

(** What an array created on [Object.prototype] holds at an index: a record
    that [push] has put there, or an array that the callback has assigned
    and filled. *)
Inductive Element : Type :=
  | pushed (metric : Metric)
  | assigned (array : list Metric).

(** An array created on [Object.prototype]: its [length], its elements by
    index, and the arrays assigned to it under names that are no array
    index. *)
Record PrototypeArray : Type := mkPrototypeArray {
  arrayLength : N;
  atIndex : list (N * Element);
  atName : list (string * list Metric)
}.

Record t : Type := mk {
  (** [functionHas f k]: the function [Object.prototype[f]] has, before the
      program runs, a property [k] of its own or from [Function.prototype]
      (as [length], [name], [call], or [keys] on [Object]) *)
  functionHas : string -> string -> bool;
  (** [arrayPrototypeHas k]: [Array.prototype] has, before the program
      runs, an own property [k] other than [length] (as [push] or [map]) *)
  arrayPrototypeHas : string -> bool;
  (** the arrays created on the function [Object.prototype[f]], by [f] and
      by property name *)
  onFunction : list (string * list (string * list Metric));
  (** the arrays created on [Object.prototype], by property name *)
  onObjectPrototype : list (string * PrototypeArray);
  (** the records pushed onto [Array.prototype], which is an array *)
  onArrayPrototype : list Metric
}.

Definition withOnFunction (realm : t)
    (v : list (string * list (string * list Metric))) : t :=
  {| functionHas := functionHas realm;
     arrayPrototypeHas := arrayPrototypeHas realm;
     onFunction := v;
     onObjectPrototype := onObjectPrototype realm;
     onArrayPrototype := onArrayPrototype realm |}.

Definition withOnObjectPrototype (realm : t)
    (v : list (string * PrototypeArray)) : t :=
  {| functionHas := functionHas realm;
     arrayPrototypeHas := arrayPrototypeHas realm;
     onFunction := onFunction realm;
     onObjectPrototype := v;
     onArrayPrototype := onArrayPrototype realm |}.

Definition withOnArrayPrototype (realm : t) (v : list Metric) : t :=
  {| functionHas := functionHas realm;
     arrayPrototypeHas := arrayPrototypeHas realm;
     onFunction := onFunction realm;
     onObjectPrototype := onObjectPrototype realm;
     onArrayPrototype := v |}.

Definition functionArrays (realm : t) (f : string)
  : list (string * list Metric) :=
  match Obj.get (onFunction realm) f with
  | Some o => o
  | None => []
  end.

Definition emptyArray : PrototypeArray :=
  {| arrayLength := 0; atIndex := []; atName := [] |}.

(** The array created on [Object.prototype] under the name [p]. *)
Definition inheritedArray (realm : t) (p : string) : PrototypeArray :=
  match Obj.get (onObjectPrototype realm) p with
  | Some a => a
  | None => emptyArray
  end.

Fixpoint getIndex (l : list (N * Element)) (i : N) : option Element :=
  match l with
  | [] => None
  | (j, e) :: r => if (j =? i)%N then Some e else getIndex r i
  end.

Fixpoint setIndex (l : list (N * Element)) (i : N) (e : Element)
  : list (N * Element) :=
  match l with
  | [] => [(i, e)]
  | (j, e') :: r =>
      if (j =? i)%N then (j, e) :: r else (j, e') :: setIndex r i e
  end.

(** The own property [k] of the array, [length] apart. *)
Definition own (a : PrototypeArray) (k : string) : option Element :=
  match Obj.arrayIndex k with
  | Some i => getIndex (atIndex a) i
  | None => option_map assigned (Obj.get (atName a) k)
  end.

(** [a[k] = array]: an array index beyond the end moves [length]. *)
Definition setOwn (a : PrototypeArray) (k : string) (array : list Metric)
  : PrototypeArray :=
  match Obj.arrayIndex k with
  | Some i =>
      {| arrayLength := N.max (arrayLength a) (i + 1);
         atIndex := setIndex (atIndex a) i (assigned array);
         atName := atName a |}
  | None =>
      {| arrayLength := arrayLength a;
         atIndex := atIndex a;
         atName := Obj.set (atName a) k array |}
  end.

(** [a.push(metric)]: the record goes to the index [length].  At the
    length 2^32 - 1, which an assignment to the last array index brings
    about, [push] raises a [RangeError]: [None]. *)
Definition push (a : PrototypeArray) (metric : Metric)
  : option PrototypeArray :=
  if (arrayLength a =? 4294967295)%N then None
  else Some {| arrayLength := arrayLength a + 1;
               atIndex := setIndex (atIndex a) (arrayLength a) (pushed metric);
               atName := atName a |}.

(** The property names of the built-in functions in ECMAScript 2024: what
    every function has of its own or from [Function.prototype], what the
    constructor [Object] has besides, and what [Array.prototype] has. *)
Definition functionNames : list string :=
  [ "length"; "name"; "arguments"; "caller"; "constructor"; "apply";
    "bind"; "call"; "toString" ].

Definition objectConstructorNames : list string :=
  [ "prototype"; "assign"; "create"; "defineProperties"; "defineProperty";
    "entries"; "freeze"; "fromEntries"; "getOwnPropertyDescriptor";
    "getOwnPropertyDescriptors"; "getOwnPropertyNames";
    "getOwnPropertySymbols"; "getPrototypeOf"; "groupBy"; "hasOwn"; "is";
    "isExtensible"; "isFrozen"; "isSealed"; "keys"; "preventExtensions";
    "seal"; "setPrototypeOf"; "values" ].

Definition arrayPrototypeNames : list string :=
  [ "constructor"; "at"; "concat"; "copyWithin"; "entries"; "every";
    "fill"; "filter"; "find"; "findIndex"; "findLast"; "findLastIndex";
    "flat"; "flatMap"; "forEach"; "includes"; "indexOf"; "join"; "keys";
    "lastIndexOf"; "map"; "pop"; "push"; "reduce"; "reduceRight";
    "reverse"; "shift"; "slice"; "some"; "sort"; "splice";
    "toLocaleString"; "toReversed"; "toSorted"; "toSpliced"; "toString";
    "unshift"; "values"; "with" ].

(** The built-in objects of ECMAScript 2024 before the program has run. *)
Definition ecmaScript2024 : t :=
  {| functionHas := fun f k =>
       existsb (String.eqb k) functionNames
       || ((f =? "constructor")
           && existsb (String.eqb k) objectConstructorNames);
     arrayPrototypeHas := fun k => existsb (String.eqb k) arrayPrototypeNames;
     onFunction := [];
     onObjectPrototype := [];
     onArrayPrototype := [] |}.

End Realm.

(** ** groupMetrics *)

Definition Grouped : Type := list (string * list (string * list Metric)).

(** The object that [acc[metric.category]] is. *)
Inductive Target : Type :=
  | ownObject                      (* an object of [acc], made by the callback *)
  | objectPrototype                (* [acc.__proto__] *)
  | builtinFunction (f : string)   (* [acc.constructor], [acc.toString], ... *)
  | prototypeArray (p : string).   (* an array created on [Object.prototype] *)

(** The array that [acc[metric.category][metric.subcategory]] is. *)
Inductive Location : Type :=
  | resultArray                    (* an array of an object of [acc] *)
  | functionArray (f : string)     (* an array created on a built-in function *)
  | objectPrototypeArray           (* an array created on [Object.prototype] *)
  | nestedArray (p : string)       (* an array created on such an array *)
  | arrayPrototype.                (* [Array.prototype] *)

(** What the read of [acc[metric.category][metric.subcategory]] finds:
    nothing, an array, or a value that is no array.  The values of the
    last kind are built-in functions and objects, the strings and numbers
    that are the [name] and [length] of a function or the [length] of an
    array, [null], and the records held by an array.  The truthy ones have
    no method [push]; on the others the assignment of [[]] is refused or
    without effect, and [push] is called on the old value.  Either way a
    [TypeError] is raised. *)
Inductive Read : Type :=
  | undefined
  | found (l : Location)
  | other.

Definition subcategoriesOf (acc : Grouped) (c : string)
  : list (string * list Metric) :=
  match Obj.get acc c with
  | Some o => o
  | None => []
  end.

(** [acc[c]], or [None] when the read gives [undefined]. *)
Definition target (realm : Realm.t) (acc : Grouped) (c : string)
  : option Target :=
  match Obj.get acc c with
  | Some _ => Some ownObject
  | None =>
      if c =? "__proto__" then Some objectPrototype
      else if Obj.inherited c then Some (builtinFunction c)
      else match Obj.get (Realm.onObjectPrototype realm) c with
           | Some _ => Some (prototypeArray c)
           | None => None
           end
  end.

(** [Object.prototype[s]], where every chain ends. *)
Definition readObjectPrototype (realm : Realm.t) (s : string) : Read :=
  if Obj.inherited s then other
  else match Obj.get (Realm.onObjectPrototype realm) s with
       | Some _ => found objectPrototypeArray
       | None => undefined
       end.

(** [x[s]] for the object [x] that [acc[c]] is: the own properties of [x],
    then those of its prototype, then [Object.prototype]. *)
Definition read (realm : Realm.t) (acc : Grouped) (x : Target)
    (c s : string) : Read :=
  match x with
  | ownObject =>
      match Obj.get (subcategoriesOf acc c) s with
      | Some _ => found resultArray
      | None => readObjectPrototype realm s
      end
  | objectPrototype => readObjectPrototype realm s
  | builtinFunction f =>
      match Obj.get (Realm.functionArrays realm f) s with
      | Some _ => found (functionArray f)
      | None =>
          if Realm.functionHas realm f s then other
          else readObjectPrototype realm s
      end
  | prototypeArray p =>
      if s =? "length" then other
      else
        match Realm.own (Realm.inheritedArray realm p) s with
        | Some (Realm.pushed _) => other
        | Some (Realm.assigned _) => found (nestedArray p)
        | None =>
            if Realm.arrayPrototypeHas realm s then other
            else if match Obj.arrayIndex s with
                    | Some i =>
                        (i <? N.of_nat
                                (List.length (Realm.onArrayPrototype realm)))%N
                    | None => false
                    end
            then other
            else if s =? "__proto__" then found arrayPrototype
            else readObjectPrototype realm s
        end
  end.

(** [x[s] = []], run when the read gave [undefined]: the array becomes an
    own property of [x]. *)
Definition assignArray (x : Target) (c s : string)
    (st : Grouped * Realm.t) : (Grouped * Realm.t) * Location :=
  let (acc, realm) := st in
  match x with
  | ownObject =>
      (Obj.set acc c (Obj.set (subcategoriesOf acc c) s []), realm,
       resultArray)
  | objectPrototype =>
      (acc,
       Realm.withOnObjectPrototype realm
         (Obj.set (Realm.onObjectPrototype realm) s Realm.emptyArray),
       objectPrototypeArray)
  | builtinFunction f =>
      (acc,
       Realm.withOnFunction realm
         (Obj.set (Realm.onFunction realm) f
            (Obj.set (Realm.functionArrays realm f) s [])),
       functionArray f)
  | prototypeArray p =>
      (acc,
       Realm.withOnObjectPrototype realm
         (Obj.set (Realm.onObjectPrototype realm) p
            (Realm.setOwn (Realm.inheritedArray realm p) s [])),
       nestedArray p)
  end.

(** [array.push(metric)] for the array at [l].  [None] is the [RangeError]
    of [Realm.push]. *)
Definition pushAt (l : Location) (c s : string) (metric : Metric)
    (st : Grouped * Realm.t) : option (Grouped * Realm.t) :=
  let (acc, realm) := st in
  match l with
  | resultArray =>
      let subs := subcategoriesOf acc c in
      let array := match Obj.get subs s with
                   | Some a => a
                   | None => []
                   end in
      Some (Obj.set acc c (Obj.set subs s (array ++ [metric])%list), realm)
  | functionArray f =>
      let arrays := Realm.functionArrays realm f in
      let array := match Obj.get arrays s with
                   | Some a => a
                   | None => []
                   end in
      Some (acc,
            Realm.withOnFunction realm
              (Obj.set (Realm.onFunction realm) f
                 (Obj.set arrays s (array ++ [metric])%list)))
  | objectPrototypeArray =>
      match Realm.push (Realm.inheritedArray realm s) metric with
      | Some a =>
          Some (acc,
                Realm.withOnObjectPrototype realm
                  (Obj.set (Realm.onObjectPrototype realm) s a))
      | None => None
      end
  | nestedArray p =>
      let a := Realm.inheritedArray realm p in
      let array := match Realm.own a s with
                   | Some (Realm.assigned array) => array
                   | _ => []
                   end in
      Some (acc,
            Realm.withOnObjectPrototype realm
              (Obj.set (Realm.onObjectPrototype realm) p
                 (Realm.setOwn a s (array ++ [metric])%list)))
  | arrayPrototype =>
      Some (acc,
            Realm.withOnArrayPrototype realm
              (Realm.onArrayPrototype realm ++ [metric])%list)
  end.

(** One turn of the [reduce] callback, in the realm [realm].  [None] is an
    exception that leaves [groupMetrics]. *)
Definition groupStep (realm : Realm.t) (acc : Grouped) (metric : Metric)
  : option (Grouped * Realm.t) :=
  let c := category metric in
  let s := subcategory metric in
  (* if (!acc[c]) acc[c] = {} *)
  let (acc1, x) :=
    match target realm acc c with
    | Some x => (acc, x)
    | None => (Obj.set acc c [], ownObject)
    end in
  match read realm acc1 x c s with
  | other => None
  | undefined =>
      (* acc[c][s] = []; acc[c][s].push(metric) *)
      let (st, l) := assignArray x c s (acc1, realm) in
      pushAt l c s metric st
  | found l =>
      (* acc[c][s].push(metric) *)
      pushAt l c s metric (acc1, realm)
  end.

(** [metrics.reduce(callback, acc)] *)
Fixpoint groupFrom (realm : Realm.t) (acc : Grouped) (metrics : list Metric)
  : option (Grouped * Realm.t) :=
  match metrics with
  | [] => Some (acc, realm)
  | metric :: rest =>
      match groupStep realm acc metric with
      | Some (acc', realm') => groupFrom realm' acc' rest
      | None => None
      end
  end.

(** [groupMetrics(metrics)], called in the realm [realm]: the object
    returned and the realm after the call. *)
Definition groupMetrics (realm : Realm.t) (metrics : list Metric)
  : option (Grouped * Realm.t) :=
  groupFrom realm [] metrics.

(** ** exportByCategory, exportActiveMetrics *)

Definition isActive (st : DeprecationStatus) : bool :=
  match st with
  | active => true
  | _ => false
  end.

Definition exportByCategory (metrics : list Metric) (cat : string)
  : list Metric :=
  filter (fun m => includes (toLowerCase (category m)) (toLowerCase cat))
         metrics.

Definition exportActiveMetrics (metrics : list Metric) : list Metric :=
  filter (fun m => isActive (deprecationStatus m)) metrics.

(** ** The statistics of formatOutput *)

Record CategoryStatistics : Type := mkCategoryStatistics {
  statCategory : string;
  count : Z;
  subcategories : Z
}.

Record Statistics : Type := mkStatistics {
  totalMetrics : Z;
  activeMetrics : Z;
  deprecatedMetrics : Z;
  categoriesCount : Z;
  byCategory : list CategoryStatistics
}.

(** The object [stats] that [formatOutput] builds before it writes the
    report, and the realm that its call of [groupMetrics] leaves; the JSON
    text and its time stamp are not modelled. *)
Definition formatOutputStatistics (realm : Realm.t) (metrics : list Metric)
  : option (Statistics * Realm.t) :=
  match groupMetrics realm metrics with
  | None => None
  | Some (grouped, realm') =>
      let deprecatedCount :=
        Z.of_nat
          (List.length
             (filter (fun m => negb (isActive (deprecationStatus m)))
                     metrics)) in
      Some ({| totalMetrics := Z.of_nat (List.length metrics);
               activeMetrics :=
                 (Z.of_nat (List.length metrics) - deprecatedCount)%Z;
               deprecatedMetrics := deprecatedCount;
               categoriesCount := Z.of_nat (List.length (Obj.keys grouped));
               byCategory :=
                 map (fun e =>
                        {| statCategory := fst e;
                           count :=
                             fold_left
                               (fun sum ms =>
                                  (sum + Z.of_nat (List.length ms))%Z)
                               (Obj.values (snd e)) 0%Z;
                           subcategories :=
                             Z.of_nat (List.length (Obj.keys (snd e))) |})
                     (Obj.entries grouped) |},
            realm')
  end.

(** ** formatAsOptionGroups *)

Record Option : Type := mkOption {
  label : string;
  value : string
}.

Record OptionGroup : Type := mkOptionGroup {
  groupLabel : string;
  options : list Option
}.

Definition optionOf (metric : Metric) : Option :=
  {| label := if truthy (description metric)
              then name metric ++ " - " ++ description metric
              else name metric;
     value := name metric |}.

Definition optionGroupsOf (grouped : Grouped) : list OptionGroup :=
  flat_map
    (fun e =>
       map (fun e' =>
              {| groupLabel := if fst e' =? "General" then fst e
                               else fst e ++ " - " ++ fst e';
                 options := map optionOf (snd e') |})
           (Obj.entries (snd e)))
    (Obj.entries grouped).

Definition formatAsOptionGroups (realm : Realm.t) (metrics : list Metric)
  : option (list OptionGroup * Realm.t) :=
  match groupMetrics realm metrics with
  | None => None
  | Some (grouped, realm') => Some (optionGroupsOf grouped, realm')
  end.

Definition formatActiveAsOptionGroups (realm : Realm.t)
    (metrics : list Metric) : option (list OptionGroup * Realm.t) :=
  formatAsOptionGroups realm (exportActiveMetrics metrics).

(** ** The downloader: file names and document trees *)

(** The nine code units that [sanitizeFilename] replaces by a dash: the
    angle brackets, the colon, the double quote, the two slashes, the bar,
    the question mark and the star. *)
Definition isInvalidFilenameChar (c : ascii) : bool :=
  match N_of_ascii c with
  | 60%N | 62%N | 58%N | 34%N | 47%N | 92%N | 124%N | 63%N | 42%N => true
  | _ => false
  end.

(** The first [replace] of [sanitizeFilename]: each of the nine code
    units becomes a dash. *)
Fixpoint replaceInvalidChars (s : string) : string :=
  match s with
  | EmptyString => EmptyString
  | String c r =>
      String (if isInvalidFilenameChar c then "-"%char else c)
             (replaceInvalidChars r)
  end.

(** [s.replace(/\s+/g, "_")] *)
Fixpoint underscoreWhiteSpaceRuns (inRun : bool) (s : string) : string :=
  match s with
  | EmptyString => EmptyString
  | String c r =>
      if isWhiteSpace c then
        if inRun then underscoreWhiteSpaceRuns true r
        else String "_" (underscoreWhiteSpaceRuns true r)
      else String c (underscoreWhiteSpaceRuns false r)
  end.

(** [s.replace(/^\.+/, "")] *)
Fixpoint removeLeadingDots (s : string) : string :=
  match s with
  | EmptyString => EmptyString
  | String c r => if Ascii.eqb c "." then removeLeadingDots r else s
  end.

(** [s.replace(/\.+$/, "")] *)
Fixpoint removeTrailingDots (s : string) : string :=
  match s with
  | EmptyString => EmptyString
  | String c r =>
      match removeTrailingDots r with
      | EmptyString => if Ascii.eqb c "." then EmptyString else String c ""
      | t => String c t
      end
  end.

(** [s.substring(0, n)] *)
Fixpoint substringTo (n : nat) (s : string) : string :=
  match n, s with
  | O, _ => EmptyString
  | S _, EmptyString => EmptyString
  | S k, String c r => String c (substringTo k r)
  end.

Definition sanitizeFilename (filename : string) : string :=
  substringTo 255
    (removeTrailingDots
       (removeLeadingDots
          (underscoreWhiteSpaceRuns false (replaceInvalidChars filename)))).

(** A node of the documentation tree; an absent [child_docs] is the empty
    list. *)
#[local] Unset Elimination Schemes.
Inductive DocNode : Type :=
  mkDocNode {
    doc_id : Z;
    title : string;
    parent_id : Z;
    status : bool;
    docType : string;
    child_docs : list DocNode
  }.
#[local] Set Elimination Schemes.

(** What one turn of the loop of [countDocs] adds to [count]; the inner
    [fix] is the call of [countDocs] on the children. *)
Fixpoint countDocsNode (node : DocNode) : Z :=
  match node with
  | mkDocNode _ _ _ _ ty children =>
      ((if String.eqb ty "MARKDOWN" then 1 else 0)
       + (fix loop (nodes : list DocNode) : Z :=
            match nodes with
            | [] => 0
            | n :: rest => countDocsNode n + loop rest
            end) children)%Z
  end.

Definition countDocs (nodes : list DocNode) : Z :=
  fold_left (fun count node => (count + countDocsNode node)%Z) nodes 0%Z.

(** ** Vocabulary of the statements *)

(** All code units of a string are white space. *)
Fixpoint allWhite (s : string) : bool :=
  match s with
  | EmptyString => true
  | String c r => isWhiteSpace c && allWhite r
  end.

(** A string that does not begin with white space. *)
Definition headNotWhite (s : string) : Prop :=
  match s with
  | EmptyString => True
  | String c _ => isWhiteSpace c = false
  end.





(** A string without leading or trailing white space. *)
Definition trimmed (s : string) : Prop := trim s = s.


(** [w] with the records [new] pushed, the heading context untouched. *)
Definition appendMetrics (w : Walker) (new : list Metric) : Walker :=
  {| metrics := metrics w ++ new;
     currentCategory := currentCategory w;
     currentSubcategory := currentSubcategory w;
     currentSubSubcategory := currentSubSubcategory w;
     currentInlineHeader := currentInlineHeader w |}.

(** A line the outer loop passes over: no heading, no table opening. *)
Definition plainLine (line : string) : Prop :=
  isH1 line = false /\ isH2 line = false /\ isH3 line = false /\
  includes line "```xtable" = false.

(** A line at which the outer loop starts to gather a table. *)
Definition opensTable (line : string) : Prop :=
  isH1 line = false /\ isH2 line = false /\ isH3 line = false /\
  includes line "```xtable" = true.

(** Lines that leave the heading context alone: plain lines and closed
    table blocks none of whose rows is an inline header. *)
Inductive Quiet : list string -> Prop :=
  | Quiet_nil : Quiet []
  | Quiet_plain (line : string) (ls : list string) :
      plainLine line -> Quiet ls -> Quiet (line :: ls)
  | Quiet_table (opening : string) (body : list string) (closing : string)
      (ls : list string) :
      opensTable opening ->
      Forall (fun l => includes l "```" = false) body ->
      includes closing "```" = true ->
      (forall t, parseXTable (unlines body) = Some t ->
                 Forall (fun r => inlineHeaderOf (headers t) r = None)
                        (rows t)) ->
      Quiet ls ->
      Quiet (opening :: body ++ closing :: ls).

(** The value the subcategory has before the inline header is added. *)
Definition builtSoFar (sub subsub : string) : string :=
  match subsub with
  | EmptyString => sub
  | _ => sub ++ " - " ++ subsub
  end.

(** A table with one data row whose field cell is a deprecation marker and
    nothing else. *)
Definition markerOnlyDocument : string :=
  unlines
    [ "# Costs";
      "```xtable";
      "Field | Type | Description";
      "---";
      "{-deprecated} | number | Retired";
      "```" ].

(** After a [#] heading, a [###] heading and then a table. *)
Definition deepHeadingDocument : string :=
  unlines
    [ "# Costs";
      "### Deep";
      "```xtable";
      "Field | Type | Description";
      "---";
      "spend | number | Cost";
      "```" ].

(** After a [#] heading, a table whose first row is an inline header. *)
Definition inlineHeaderDocument : string :=
  unlines
    [ "# Costs";
      "```xtable";
      "Field | Type | Description";
      "---";
      "Legacy Fields";
      "spend | number | Cost";
      "```" ].

(** What the scan guarantees of the name of a record: it is trimmed, it
    comes out of [parseDeprecationStatus] run on a trimmed, non-empty field
    cell that does not start with [#], and it is not empty when the record
    is active. *)
Definition nameFromCell (m : Metric) : Prop :=
  trimmed (name m) /\
  (deprecationStatus m = active -> name m <> "") /\
  exists cell,
    trimmed cell /\ cell <> "" /\ startsWith cell "#" = false /\
    parseDeprecationStatus cell = (name m, deprecationStatus m).

(** The code unit [d] occurs in [s]. *)
Fixpoint hasChar (d : ascii) (s : string) : bool :=
  match s with
  | EmptyString => false
  | String c r => Ascii.eqb c d || hasChar d r
  end.

(** Segments written one after the other with [d] between them. *)
Fixpoint join (d : ascii) (segs : list string) : string :=
  match segs with
  | [] => ""
  | seg :: rest =>
      match rest with
      | [] => seg
      | _ :: _ => seg ++ String d (join d rest)
      end
  end.

(** All code units of [s] are digits or percent signs. *)
Fixpoint allDigitOrPercent (s : string) : bool :=
  match s with
  | EmptyString => true
  | String c r => Re.isDigitOrPercent c && allDigitOrPercent r
  end.

(** [s] begins with an annotation [{run}], [run] a non-empty string of
    digits and percent signs, followed by [rest]. *)
Definition annotationAt (s run rest : string) : Prop :=
  s = "{" ++ run ++ "}" ++ rest /\ run <> "" /\ allDigitOrPercent run = true.

(** The width annotations in the words of the specification: an opening
    brace, one or more digits, at most one percent sign, a closing brace. *)
Definition isDigit (c : ascii) : bool :=
  let n := N_of_ascii c in ((48 <=? n) && (n <=? 57))%N.

(** At a digit: the digits, the optional percent sign and the brace; the
    result is the number of code units read. *)
Fixpoint digitsThenClose (s : string) : option nat :=
  match s with
  | EmptyString => None
  | String c r =>
      if isDigit c then
        match digitsThenClose r with
        | Some n => Some (S n)
        | None =>
            if startsWith r "%}" then Some 3%nat
            else if startsWith r "}" then Some 2%nat
            else None
        end
      else None
  end.

Definition widthMatchAsSpecified (s : string) : option nat :=
  match s with
  | String "{"%char r => option_map S (digitsThenClose r)
  | _ => None
  end.

Fixpoint removeWidthsFromAsSpecified (skip : nat) (s : string) : string :=
  match s with
  | EmptyString => EmptyString
  | String c r =>
      match skip with
      | S k => removeWidthsFromAsSpecified k r
      | O =>
          match widthMatchAsSpecified s with
          | Some n => removeWidthsFromAsSpecified (Nat.pred n) r
          | None => String c (removeWidthsFromAsSpecified 0 r)
          end
      end
  end.

Definition removeWidthsAsSpecified (s : string) : string :=
  removeWidthsFromAsSpecified 0 s.

Definition headerCellsAsSpecified (headerLine : string) : list string :=
  map (fun h => trim (removeWidthsAsSpecified h))
      (filter (fun h => negb (allWhite h)) (split "|" headerLine)).

(** [w'] has the category, subcategory and sub-subcategory of [w], and
    the records of [w] followed by new ones. *)
Definition sameHeadings (w w' : Walker) : Prop :=
  currentCategory w' = currentCategory w /\
  currentSubcategory w' = currentSubcategory w /\
  currentSubSubcategory w' = currentSubSubcategory w /\
  exists new, metrics w' = (metrics w ++ new)%list.

(** A record whose category and subcategory can be keys of a plain object
    without meeting an inherited property. *)
Definition ordinaryKeys (m : Metric) : Prop :=
  Obj.inherited (category m) = false /\
  Obj.inherited (subcategory m) = false.

(** [Object.prototype] has the properties it is born with and no other: the
    callback has created no array on it. *)
Definition plainPrototype (realm : Realm.t) : Prop :=
  Realm.onObjectPrototype realm = [].

(** A record whose category is not the name of a property inherited from
    [Object.prototype]. *)
Definition stored (m : Metric) : bool :=
  negb (Obj.inherited (category m)).

(** The object [acc] with the record [m] at the end of the array of its
    category and subcategory, the object of the category and the array
    being made if they are missing. *)
Definition storeRecord (acc : Grouped) (m : Metric) : Grouped :=
  let subs := subcategoriesOf acc (category m) in
  let array := match Obj.get subs (subcategory m) with
               | Some a => a
               | None => []
               end in
  Obj.set acc (category m)
    (Obj.set subs (subcategory m) (array ++ [m])%list).

(** No own property of [acc], and none of the objects it holds, has the
    name of an inherited one. *)
Definition plainKeys (acc : Grouped) : Prop :=
  (forall c, Obj.inherited c = true -> Obj.get acc c = None) /\
  (forall c subs s,
      Obj.get acc c = Some subs -> Obj.inherited s = true ->
      Obj.get subs s = None).

(** The array that the function [Object.prototype[f]] holds under [s]. *)
Definition functionBucket (realm : Realm.t) (f s : string) : list Metric :=
  match Obj.get (Realm.functionArrays realm f) s with
  | Some a => a
  | None => []
  end.

(** The values of the options of all groups. *)
Definition offered (groups : list OptionGroup) : list string :=
  flat_map (fun grp => map value (options grp)) groups.

(** The realm after a turn of the callback that has raised no exception,
    when [Object.prototype] is plain: a record whose category names a
    built-in function has gone to the end of the array that the function
    holds under the subcategory of the record. *)
Definition divert (realm : Realm.t) (m : Metric) : Realm.t :=
  if stored m then realm
  else Realm.withOnFunction realm
         (Obj.set (Realm.onFunction realm) (category m)
            (Obj.set (Realm.functionArrays realm (category m))
               (subcategory m)
               (functionBucket realm (category m) (subcategory m)
                ++ [m])%list)).

(** The turn of the callback for [m] raises no exception, when
    [Object.prototype] is plain and the category is not [__proto__]: the
    subcategory names no inherited property and, when the category names a
    built-in function, no property that the function has unless it is an
    array made by the callback. *)
Definition accepted (realm : Realm.t) (m : Metric) : bool :=
  if stored m then negb (Obj.inherited (subcategory m))
  else match Obj.get (Realm.functionArrays realm (category m))
                     (subcategory m) with
       | Some _ => true
       | None =>
           negb (Realm.functionHas realm (category m) (subcategory m))
           && negb (Obj.inherited (subcategory m))
       end.

(** The records that [grouped] holds under category [c] and subcategory
    [s]. *)
Definition bucket (grouped : Grouped) (c s : string) : list Metric :=
  match Obj.get grouped c with
  | Some subs =>
      match Obj.get subs s with
      | Some l => l
      | None => []
      end
  | None => []
  end.

(** All the records of [grouped], group after group. *)
Definition flatten (grouped : Grouped) : list Metric :=
  flat_map (fun e => flat_map snd (snd e)) grouped.

(** The elements of [l] without repetition, each at its first place;
    [seen] are the elements met before. *)
Fixpoint firstOccurrencesFrom (seen l : list string) : list string :=
  match l with
  | [] => []
  | x :: r =>
      if existsb (String.eqb x) seen then firstOccurrencesFrom seen r
      else x :: firstOccurrencesFrom (seen ++ [x]) r
  end.

Definition firstOccurrences (l : list string) : list string :=
  firstOccurrencesFrom [] l.

Definition zsum (l : list Z) : Z := fold_right Z.add 0%Z l.

(** No group is empty. *)
Definition noEmptyGroup (g : Grouped) : Prop :=
  Forall (fun e => snd e <> [] /\
                   Forall (fun e' => snd e' <> []) (snd e)) g.

(** Every white space of [s] is a space that stands alone; [afterWhite]
    tells that white space comes just before [s]. *)
Fixpoint spaced (afterWhite : bool) (s : string) : bool :=
  match s with
  | EmptyString => true
  | String c r =>
      if isWhiteSpace c
      then Ascii.eqb c " " && negb afterWhite && spaced true r
      else spaced false r
  end.

(** The code units of [s] that are not white space. *)
Fixpoint nonWhite (s : string) : string :=
  match s with
  | EmptyString => EmptyString
  | String c r => if isWhiteSpace c then nonWhite r else String c (nonWhite r)
  end.

(** A string that holds neither a bar nor a line feed. *)
Definition noBarNoLineFeed (s : string) : Prop :=
  hasChar "|" s = false /\ hasChar LF s = false.

(** Every code unit of [s] satisfies [p]. *)
Fixpoint allChars (p : ascii -> bool) (s : string) : bool :=
  match s with
  | EmptyString => true
  | String c r => p c && allChars p r
  end.

Fixpoint lastChar (s : string) : option ascii :=
  match s with
  | EmptyString => None
  | String c r =>
      match lastChar r with
      | None => Some c
      | Some l => Some l
      end
  end.

(** A code unit that may stand in a sanitized file name. *)
Definition isPlainChar (c : ascii) : bool :=
  negb (isInvalidFilenameChar c) && negb (isWhiteSpace c).

(** The string of [n] code units [c]. *)
Fixpoint replicate (n : nat) (c : ascii) : string :=
  match n with
  | O => EmptyString
  | S k => String c (replicate k c)
  end.

(** The nodes of a forest, each before its children. *)
Fixpoint nodesOf (node : DocNode) : list DocNode :=
  match node with
  | mkDocNode _ _ _ _ _ children =>
      node :: (fix all (nodes : list DocNode) : list DocNode :=
                 match nodes with
                 | [] => []
                 | n :: rest => (nodesOf n ++ all rest)%list
                 end) children
  end.

Definition allNodes (nodes : list DocNode) : list DocNode :=
  flat_map nodesOf nodes.

(** * Properties *)

(** ** Strings *)

Section StringFacts.

Lemma append_nil_r (s : string) : s ++ "" = s.
Proof. induction s as [|c s IH]; simpl; [reflexivity | now rewrite IH]. Qed.

Lemma append_assoc (a b c : string) : (a ++ b) ++ c = a ++ (b ++ c).
Proof. induction a as [|x a IH]; simpl; [reflexivity | now rewrite IH]. Qed.

Lemma length_append (a b : string) :
  String.length (a ++ b) = String.length a + String.length b.
Proof. induction a as [|x a IH]; simpl; [reflexivity | now rewrite IH]. Qed.

Lemma truthy_true_iff (s : string) : truthy s = true <-> s <> "".
Proof. destruct s; simpl; split; congruence. Qed.

Lemma truthy_false_iff (s : string) : truthy s = false <-> s = "".
Proof. destruct s; simpl; split; congruence. Qed.

Lemma truthy_eqb (s : string) : truthy s = negb (s =? "").
Proof. now destruct s. Qed.

Lemma trimEnd_empty_iff (s : string) : trimEnd s = "" <-> allWhite s = true.
Proof.
  induction s as [|c s IH]; simpl.
  - tauto.
  - destruct (trimEnd s) eqn:E.
    + destruct (isWhiteSpace c); simpl; split; try congruence.
      * intros _. now apply IH.
    + split; [congruence|].
      intros H. apply andb_true_iff in H as [_ H].
      apply IH in H. congruence.
Qed.

Lemma trimStart_white (s : string) : allWhite s = true -> trimStart s = "".
Proof.
  induction s as [|c s IH]; simpl; [reflexivity|].
  intros H. apply andb_true_iff in H as [Hc Hs]. rewrite Hc. auto.
Qed.

Lemma allWhite_trimStart (s : string) : allWhite (trimStart s) = allWhite s.
Proof.
  induction s as [|c s IH]; simpl; [reflexivity|].
  destruct (isWhiteSpace c) eqn:E; simpl; [assumption | now rewrite E].
Qed.

Lemma trim_empty_iff (s : string) : trim s = "" <-> allWhite s = true.
Proof.
  unfold trim. rewrite trimEnd_empty_iff. now rewrite allWhite_trimStart.
Qed.

Lemma trimStart_headNotWhite (s : string) : headNotWhite (trimStart s).
Proof.
  induction s as [|c s IH]; simpl; [exact I|].
  destruct (isWhiteSpace c) eqn:E; simpl; assumption.
Qed.

Lemma trimStart_fixed (s : string) : headNotWhite s -> trimStart s = s.
Proof. destruct s as [|c s]; simpl; [reflexivity|]. now intros ->. Qed.

Lemma trimEnd_headNotWhite (s : string) :
  headNotWhite s -> headNotWhite (trimEnd s).
Proof.
  destruct s as [|c s]; simpl; [trivial|].
  intros H. destruct (trimEnd s); [rewrite H|]; simpl; assumption.
Qed.

Lemma trimEnd_idem (s : string) : trimEnd (trimEnd s) = trimEnd s.
Proof.
  induction s as [|c s IH]; simpl; [reflexivity|].
  destruct (trimEnd s) as [|d t] eqn:E.
  - destruct (isWhiteSpace c) eqn:W; simpl; [reflexivity | now rewrite W].
  - change (trimEnd (String c (String d t))) with
      (match trimEnd (String d t) with
       | EmptyString =>
           if isWhiteSpace c then EmptyString else String c EmptyString
       | u => String c u
       end).
    now rewrite IH.
Qed.

(** Trimming twice is trimming once. *)
Lemma trim_idem (s : string) : trim (trim s) = trim s.
Proof.
  unfold trim.
  rewrite (trimStart_fixed (trimEnd (trimStart s))).
  - apply trimEnd_idem.
  - apply trimEnd_headNotWhite, trimStart_headNotWhite.
Qed.

Lemma startsWith_app (p s : string) : startsWith (p ++ s) p = true.
Proof.
  induction p as [|c p IH]; simpl; [reflexivity|].
  now rewrite Ascii.eqb_refl, IH.
Qed.

Lemma startsWith_iff (s p : string) :
  startsWith s p = true <-> exists r, s = p ++ r.
Proof.
  revert s. induction p as [|b p IH]; intros s; simpl.
  - split; [now exists s | reflexivity].
  - destruct s as [|a s].
    + split; [discriminate | now intros [r Hr]].
    + rewrite andb_true_iff, Ascii.eqb_eq, IH. split.
      * intros [-> [r ->]]. now exists r.
      * intros [r Hr]. injection Hr as -> ->.
        split; [reflexivity | now exists r].
Qed.

End StringFacts.

(** ** Literal patterns under the [i] flag *)

Section CaseInsensitiveSearch.

Variable pat : string.





Lemma removeFirst_unfold (s : string) :
  Re.removeFirst pat s =
  if Re.matchAt pat s then substringFrom (String.length pat) s
  else match s with
       | EmptyString => EmptyString
       | String c r => String c (Re.removeFirst pat r)
       end.
Proof. now destruct s. Qed.



Lemma substringFrom_app (mid post : string) :
  substringFrom (String.length mid) (mid ++ post) = post.
Proof.
  induction mid as [|c mid IH]; simpl; [now destruct post | assumption].
Qed.


End CaseInsensitiveSearch.

(** ** parseDeprecationStatus *)




(** ** Column resolution and cell access *)

Section Columns.

Context {A : Type}.
Variable p : A -> bool.

Lemma findIndex_range (l : list A) :
  findIndex p l = (-1)%Z \/
  (0 <= findIndex p l < Z.of_nat (List.length l))%Z.
Proof.
  induction l as [|x l IH]; [now left|].
  cbn [findIndex List.length]. destruct (p x); [right; lia|].
  destruct IH as [IH|IH].
  - rewrite IH. now left.
  - destruct (Z.eqb_spec (findIndex p l) (-1)); [now left | right; lia].
Qed.

Lemma findIndex_none_iff (l : list A) :
  findIndex p l = (-1)%Z <-> Forall (fun x => p x = false) l.
Proof.
  induction l as [|x l IH]; cbn [findIndex].
  - split; [constructor | reflexivity].
  - destruct (p x) eqn:E.
    + split; [discriminate|]. intros H. inversion H; congruence.
    + pose proof (findIndex_range l) as R.
      destruct (Z.eqb_spec (findIndex p l) (-1)) as [e|n].
      * split; [|reflexivity]. intros _. constructor; [assumption|].
        now apply IH.
      * split; [lia|]. intros H. inversion H; subst. apply IH in H3. lia.
Qed.


Lemma at_in_range (l : list A) (i : Z) :
  (0 <= i < Z.of_nat (List.length l))%Z -> exists x, at_ l i = Some x.
Proof.
  intros Hr. unfold at_. destruct (Z.ltb_spec i 0) as [|Hi]; [lia|].
  destruct (nth_error l (Z.to_nat i)) eqn:E; [now eexists|].
  apply nth_error_None in E. lia.
Qed.

Lemma at_beyond (l : list A) (i : Z) :
  (Z.of_nat (List.length l) <= i)%Z -> at_ l i = None.
Proof.
  intros Hr. unfold at_. destruct (Z.ltb_spec i 0) as [|Hi]; [reflexivity|].
  apply nth_error_None. lia.
Qed.

Lemma at_In (l : list A) (i : Z) (x : A) : at_ l i = Some x -> In x l.
Proof.
  unfold at_. destruct (i <? 0)%Z; [discriminate|]. apply nth_error_In.
Qed.

End Columns.

(** ** extractMetricFromRow *)

Section Extractor.

Variables (row headers : list string) (cat subcat : string).

(** What a returned record is made of. *)
Lemma extractMetricFromRow_Some (m : Metric) :
  let fieldIndex := findIndex isFieldHeader headers in
  let fieldCell := orEmpty (at_ row fieldIndex) in
  extractMetricFromRow row headers cat subcat = Some m ->
  at_ row fieldIndex = Some fieldCell /\
  startsWith fieldCell "#" = false /\ fieldCell <> "" /\
  3 <= List.length row /\
  m = {| name := fst (parseDeprecationStatus fieldCell);
         category := cat;
         subcategory := subcat;
         type := cellOr row (findIndex isTypeHeader headers) "string";
         description := cellOr row (findIndex isDescHeader headers) "";
         commentary := cellOr row (findIndex isDetailHeader headers) "";
         deprecationStatus := snd (parseDeprecationStatus fieldCell) |}.
Proof.
  intros fieldIndex fieldCell.
  unfold extractMetricFromRow. fold fieldIndex. fold fieldCell.
  destruct (Z.eqb_spec fieldIndex (-1)) as [|Hi]; [discriminate|].
  destruct (Z.leb_spec (Z.of_nat (List.length row)) fieldIndex) as [|Hr];
    [discriminate|].
  cbn [orb].
  destruct (startsWith fieldCell "#") eqn:Hh; [discriminate|].
  destruct (String.eqb_spec fieldCell "") as [|He]; [discriminate|].
  destruct (Z.ltb_spec (Z.of_nat (List.length row)) 3) as [|Hl];
    [discriminate|].
  cbn [orb]. destruct (parseDeprecationStatus fieldCell) as [cn st] eqn:P.
  intros H. injection H as <-.
  destruct (findIndex_range isFieldHeader headers) as [R|R];
    [contradiction|].
  destruct (at_in_range row fieldIndex) as [x Hx]; [unfold fieldIndex; lia|].
  repeat split; try assumption; try lia.
  unfold fieldCell. now rewrite Hx.
Qed.

Lemma extractMetricFromRow_None :
  let fieldIndex := findIndex isFieldHeader headers in
  let fieldCell := orEmpty (at_ row fieldIndex) in
  extractMetricFromRow row headers cat subcat = None <->
  fieldIndex = (-1)%Z \/
  (Z.of_nat (List.length row) <= fieldIndex)%Z \/
  startsWith fieldCell "#" = true \/
  fieldCell = "" \/
  List.length row < 3.
Proof.
  intros fieldIndex fieldCell.
  unfold extractMetricFromRow. fold fieldIndex. fold fieldCell.
  destruct (Z.eqb_spec fieldIndex (-1)) as [|Hi]; [tauto|].
  destruct (Z.leb_spec (Z.of_nat (List.length row)) fieldIndex) as [|Hr];
    [tauto|].
  cbn [orb].
  destruct (startsWith fieldCell "#") eqn:Hh; [tauto|].
  destruct (String.eqb_spec fieldCell "") as [|He]; [tauto|].
  destruct (Z.ltb_spec (Z.of_nat (List.length row)) 3) as [|Hl].
  - cbn [orb]. split; [intros _|reflexivity]. right. right. right. right. lia.
  - cbn [orb]. destruct (parseDeprecationStatus fieldCell).
    split; [discriminate|].
    intros [H|[H|[H|[H|H]]]]; try contradiction; try discriminate; lia.
Qed.

End Extractor.




(** ** Lines and blank lines *)

Section Lines.

Lemma split_not_nil (d : ascii) (s : string) : split d s <> [].
Proof.
  induction s as [|c s IH]; simpl; [discriminate|].
  destruct (Ascii.eqb c d); [discriminate|].
  destruct (split d s); [contradiction | discriminate].
Qed.

Lemma allWhite_split_LF (s : string) :
  allWhite s = forallb allWhite (split LF s).
Proof.
  induction s as [|c s IH]; simpl; [reflexivity|].
  destruct (Ascii.eqb_spec c LF) as [->|Hc].
  - simpl. exact IH.
  - pose proof (split_not_nil LF s) as Hn.
    destruct (split LF s) as [|h t]; [contradiction|].
    simpl in *. rewrite IH. now rewrite andb_assoc.
Qed.

Lemma nonblank_lines_exist (s : string) :
  truthy (trim s) = true ->
  filter (fun line => truthy (trim line)) (split LF s) <> [].
Proof.
  intros Ht Hf.
  assert (Hw : allWhite s = true).
  { rewrite allWhite_split_LF. apply forallb_forall. intros l Hl.
    destruct (truthy (trim l)) eqn:E.
    - assert (In l (filter (fun line => truthy (trim line)) (split LF s)))
        by (apply filter_In; now split).
      rewrite Hf in H. contradiction.
    - apply truthy_false_iff in E. now apply trim_empty_iff. }
  apply trim_empty_iff in Hw. rewrite Hw in Ht. discriminate.
Qed.

(** Under the guard of the caller [parseXTable] finds its header line. *)
Lemma parseXTable_guarded (s : string) :
  truthy (trim s) = true -> exists t, parseXTable s = Some t.
Proof.
  intros Ht. apply nonblank_lines_exist in Ht. unfold parseXTable.
  destruct (filter _ (split LF s)); [contradiction | now eexists].
Qed.

Lemma parseXTable_blank (s : string) :
  truthy (trim s) = false -> parseXTable s = None.
Proof.
  intros Ht. apply truthy_false_iff, trim_empty_iff in Ht.
  rewrite allWhite_split_LF in Ht. unfold parseXTable.
  destruct (filter _ (split LF s)) as [|l ls] eqn:E; [reflexivity|].
  assert (Hl : In l (filter (fun line => truthy (trim line)) (split LF s)))
    by (rewrite E; now left).
  apply filter_In in Hl as [Hin Hl].
  rewrite forallb_forall in Ht. apply Ht in Hin.
  apply trim_empty_iff in Hin. rewrite Hin in Hl. discriminate.
Qed.

End Lines.

(** ** The walker *)

Section WalkerFacts.

Lemma appendMetrics_nil (w : Walker) : appendMetrics w [] = w.
Proof. destruct w. unfold appendMetrics. simpl. now rewrite app_nil_r. Qed.

Lemma appendMetrics_app (w : Walker) (a b : list Metric) :
  appendMetrics (appendMetrics w a) b = appendMetrics w (a ++ b).
Proof. unfold appendMetrics. simpl. now rewrite app_assoc. Qed.

Lemma pushMetric_append (w : Walker) (m : option Metric) :
  pushMetric w m
  = appendMetrics w match m with Some x => [x] | None => [] end.
Proof. destruct m; [reflexivity | symmetry; apply appendMetrics_nil]. Qed.

Lemma processRow_inline (hs row : list string) (w : Walker) (h : string) :
  inlineHeaderOf hs row = Some h ->
  processRow hs w row = setInlineHeader w h.
Proof. unfold processRow. now intros ->. Qed.

Lemma processRow_emit (hs row : list string) (w : Walker) :
  inlineHeaderOf hs row = None ->
  processRow hs w row
  = pushMetric w (extractMetricFromRow row hs (currentCategory w)
                    (effectiveSubcategory w)).
Proof. unfold processRow. now intros ->. Qed.

(** Rows that are no inline headers leave the context alone, and every
    record they push carries the category and the effective subcategory of
    that context. *)
Lemma rows_emit (hs : list string) (rs : list (list string)) :
  Forall (fun r => inlineHeaderOf hs r = None) rs ->
  forall w, exists new,
    fold_left (processRow hs) rs w = appendMetrics w new /\
    Forall (fun m => category m = currentCategory w /\
                     subcategory m = effectiveSubcategory w) new.
Proof.
  induction 1 as [|r rs Hr _ IH]; intros w; simpl.
  - exists []. split; [now rewrite appendMetrics_nil | constructor].
  - rewrite (processRow_emit _ _ _ Hr), pushMetric_append.
    destruct (IH (appendMetrics w
      match extractMetricFromRow r hs (currentCategory w)
              (effectiveSubcategory w) with
      | Some x => [x] | None => [] end)) as (new & Hf & Hn).
    eexists. split.
    + rewrite Hf. apply appendMetrics_app.
    + apply Forall_app. split; [|exact Hn].
      destruct (extractMetricFromRow r hs _ _) as [m|] eqn:E; [|constructor].
      apply extractMetricFromRow_Some in E as (_ & _ & _ & _ & ->).
      constructor; [now split | constructor].
Qed.

Lemma processTable_total (w : Walker) (text : string) :
  exists w', processTable w text = Some w'.
Proof.
  unfold processTable. destruct (truthy (trim text)) eqn:E; [|now eexists].
  destruct (parseXTable_guarded _ E) as [t ->]. now eexists.
Qed.

Lemma processTable_emit (w : Walker) (text : string) :
  (forall t, parseXTable text = Some t ->
             Forall (fun r => inlineHeaderOf (headers t) r = None) (rows t)) ->
  exists new,
    processTable w text = Some (appendMetrics w new) /\
    Forall (fun m => category m = currentCategory w /\
                     subcategory m = effectiveSubcategory w) new.
Proof.
  intros Hq. unfold processTable. destruct (truthy (trim text)) eqn:E.
  - destruct (parseXTable_guarded _ E) as [t Ht]. rewrite Ht.
    destruct (rows_emit _ _ (Hq t Ht) w) as (new & -> & Hn).
    now exists new.
  - exists []. split; [now rewrite appendMetrics_nil | constructor].
Qed.

(** The inner loop gathers the lines up to the closing fence. *)
Lemma collectTable_body (body : list string) :
  Forall (fun l => includes l "```" = false) body ->
  forall w text closing rest,
    includes closing "```" = true ->
    collectTable w text (body ++ closing :: rest)
    = match processTable w (text ++ unlines body) with
      | Some w' => scanLines w' rest
      | None => None
      end.
Proof.
  induction 1 as [|l body Hl _ IH]; intros w text closing rest Hc.
  - simpl. rewrite Hc. now rewrite append_nil_r.
  - cbn [app collectTable]. rewrite Hl. rewrite (IH _ _ _ _ Hc).
    cbn [unlines]. now rewrite !append_assoc.
Qed.

Lemma scanLines_plain (w : Walker) (line : string) (rest : list string) :
  plainLine line -> scanLines w (line :: rest) = scanLines w rest.
Proof.
  intros (H1 & H2 & H3 & H4). cbn [scanLines]. now rewrite H1, H2, H3, H4.
Qed.

Lemma scanLines_opening (w : Walker) (line : string) (rest : list string) :
  opensTable line -> scanLines w (line :: rest) = collectTable w "" rest.
Proof.
  intros (H1 & H2 & H3 & H4). cbn [scanLines]. now rewrite H1, H2, H3, H4.
Qed.


End WalkerFacts.

(** ** Heading context *)

Section Context.

Lemma effectiveSubcategory_unfold (w : Walker) :
  effectiveSubcategory w
  = let built :=
      builtSoFar (currentSubcategory w) (currentSubSubcategory w) in
    match currentInlineHeader w with
    | EmptyString => built
    | _ => if built =? "General" then currentInlineHeader w
           else built ++ " - " ++ currentInlineHeader w
    end.
Proof.
  unfold effectiveSubcategory, builtSoFar.
  destruct (currentSubSubcategory w), (currentInlineHeader w); reflexivity.
Qed.

Lemma h2_not_h1 (line : string) :
  startsWith line "## " = true -> isH1 line = false.
Proof. intros H. apply startsWith_iff in H as [r ->]. reflexivity. Qed.

Lemma h3_not_h1_h2 (line : string) :
  startsWith line "### " = true -> isH1 line = false /\ isH2 line = false.
Proof. intros H. apply startsWith_iff in H as [r ->]. split; reflexivity. Qed.


Lemma snoc_self_absurd {A : Type} (l : list A) (x : A) : l <> (l ++ [x])%list.
Proof.
  intros H. apply (f_equal (@List.length A)) in H.
  rewrite length_app in H. simpl in H. lia.
Qed.

End Context.

(** C7.  When a row makes [processMarkdownContent] push a record [m], that
    record is what [extractMetricFromRow] returns for the current category
    and a subcategory [m] carries, which is: the current subcategory when
    sub-subcategory and inline header are both empty; subcategory, [" - "]
    and sub-subcategory when only the sub-subcategory is set; and, when the
    inline header is set, the inline header alone if the value built so far
    is the string [General], otherwise that value, [" - "] and the inline
    header. *)
Theorem effectiveSubcategory_composition :
  forall (headers row : list string) (w : Walker) (m : Metric),
    metrics (processRow headers w row) = (metrics w ++ [m])%list ->
    let sub := currentSubcategory w in
    let subsub := currentSubSubcategory w in
    let inl := currentInlineHeader w in
    extractMetricFromRow row headers (currentCategory w) (subcategory m)
    = Some m /\
    (subsub = "" -> inl = "" -> subcategory m = sub) /\
    (subsub <> "" -> inl = "" -> subcategory m = sub ++ " - " ++ subsub) /\
    (inl <> "" -> builtSoFar sub subsub = "General" -> subcategory m = inl) /\
    (inl <> "" -> builtSoFar sub subsub <> "General" ->
     subcategory m = builtSoFar sub subsub ++ " - " ++ inl).
Proof.
  intros hs row w m Hm sub subsub inl.
  destruct (inlineHeaderOf hs row) as [h|] eqn:Hi.
  { rewrite (processRow_inline _ _ _ _ Hi) in Hm. simpl in Hm.
    now apply snoc_self_absurd in Hm. }
  rewrite (processRow_emit _ _ _ Hi) in Hm.
  destruct (extractMetricFromRow row hs (currentCategory w)
              (effectiveSubcategory w)) as [m'|] eqn:E.
  2:{ simpl in Hm. now apply snoc_self_absurd in Hm. }
  simpl in Hm. apply app_inj_tail in Hm as [_ ->].
  assert (Hs : subcategory m = effectiveSubcategory w).
  { apply extractMetricFromRow_Some in E as (_ & _ & _ & _ & ->).
    reflexivity. }
  rewrite Hs. split; [exact E|].
  rewrite effectiveSubcategory_unfold. fold sub subsub inl. cbv zeta.
  repeat split.
  - intros -> ->. reflexivity.
  - intros Hn ->. destruct subsub; [contradiction | reflexivity].
  - intros Hn ->. destruct inl; [contradiction | reflexivity].
  - intros Hn Hb. destruct inl; [contradiction|].
    apply String.eqb_neq in Hb. now rewrite Hb.
Qed.

Lemma effectiveSubcategory_composition_witness :
  extractMetricFromRow ["spend"; "number"; "Cost"]
    ["Field"; "Type"; "Description"]
    "Costs" "Basic - Totals"
  = Some {| name := "spend"; category := "Costs";
            subcategory := "Basic - Totals"; type := "number";
            description := "Cost"; commentary := "";
            deprecationStatus := active |}.
Proof.
  apply (effectiveSubcategory_composition
           ["Field"; "Type"; "Description"] ["spend"; "number"; "Cost"]
           {| metrics := []; currentCategory := "Costs";
              currentSubcategory := "Basic"; currentSubSubcategory := "";
              currentInlineHeader := "Totals" |}
           {| name := "spend"; category := "Costs";
              subcategory := "Basic - Totals"; type := "number";
              description := "Cost"; commentary := "";
              deprecationStatus := active |}).
  reflexivity.
Defined.

(** The records of [scanLines_quiet] do not depend on the lines that
    follow. *)
Lemma scanLines_quiet_everywhere (ls : list string) :
  Quiet ls ->
  forall w, exists new,
    (forall rest,
        scanLines w (ls ++ rest) = scanLines (appendMetrics w new) rest) /\
    Forall (fun m => category m = currentCategory w /\
                     subcategory m = effectiveSubcategory w) new.
Proof.
  induction 1 as [|line ls Hp _ IH|opening body closing ls Ho Hb Hc Hq _ IH];
    intros w.
  - exists []. split; [now rewrite appendMetrics_nil | constructor].
  - destruct (IH w) as (new & Hs & Hn).
    exists new. split; [|exact Hn].
    intros rest. cbn [app]. now rewrite scanLines_plain.
  - destruct (processTable_emit w _ Hq) as (new1 & Hp1 & Hn1).
    destruct (IH (appendMetrics w new1)) as (new2 & Hs & Hn2).
    exists (new1 ++ new2)%list. split.
    + intros rest. cbn [app]. rewrite scanLines_opening by assumption.
      rewrite <- app_assoc. cbn [app].
      rewrite (collectTable_body _ Hb _ _ _ _ Hc). cbn [append].
      rewrite Hp1, Hs. now rewrite appendMetrics_app.
    + apply Forall_app. split; assumption.
Qed.

Lemma rows_emit_exactly (hs : list string) (rs : list (list string)) :
  Forall (fun r => inlineHeaderOf hs r = None) rs ->
  forall w,
    fold_left (processRow hs) rs w
    = appendMetrics w
        (flat_map (fun r =>
                     match extractMetricFromRow r hs (currentCategory w)
                             (effectiveSubcategory w) with
                     | Some m => [m]
                     | None => []
                     end) rs).
Proof.
  induction 1 as [|r rs Hr _ IH]; intros w; cbn [fold_left flat_map].
  - now rewrite appendMetrics_nil.
  - rewrite (processRow_emit _ _ _ Hr), pushMetric_append, IH.
    now rewrite appendMetrics_app.
Qed.

Lemma processTable_emit_exactly (w : Walker) (text : string)
    (t : ParsedTable) :
  parseXTable text = Some t ->
  Forall (fun r => inlineHeaderOf (headers t) r = None) (rows t) ->
  processTable w text
  = Some (appendMetrics w
            (flat_map (fun r =>
                         match extractMetricFromRow r (headers t)
                                 (currentCategory w)
                                 (effectiveSubcategory w) with
                         | Some m => [m]
                         | None => []
                         end) (rows t))).
Proof.
  intros Ht Hr. unfold processTable.
  destruct (truthy (trim text)) eqn:E.
  - rewrite Ht. now rewrite (rows_emit_exactly _ _ Hr).
  - rewrite (parseXTable_blank _ E) in Ht. discriminate.
Qed.

(** C6, as the code has it.  A line that starts with ["# "] sets the
    category to the trimmed remainder and resets subcategory to [General],
    sub-subcategory and inline header to the empty string; a line that
    starts with ["## "] sets the subcategory and resets sub-subcategory and
    inline header only; a line that starts with ["### "] sets the
    sub-subcategory and resets the inline header only.  The records
    gathered so far are kept, and no heading touches a field above its own
    level.  After a ["# "] heading, across lines that hold no heading of
    any level and no inline-header row, every record pushed has
    subcategory [General]; a table that follows the heading at once gives
    the records that [extractMetricFromRow] returns for its rows under that
    category and [General]. *)
Theorem heading_reset_cascade :
  forall (w : Walker) (line : string),
    (startsWith line "# " = true -> startsWith line "## " = false ->
     let w1 := {| metrics := metrics w;
                  currentCategory := trim (substringFrom 2 line);
                  currentSubcategory := "General";
                  currentSubSubcategory := "";
                  currentInlineHeader := "" |} in
     scanLines w [line] = Some w1 /\
     forall rest, scanLines w (line :: rest) = scanLines w1 rest) /\
    (startsWith line "## " = true -> startsWith line "### " = false ->
     let w2 := {| metrics := metrics w;
                  currentCategory := currentCategory w;
                  currentSubcategory := trim (substringFrom 3 line);
                  currentSubSubcategory := "";
                  currentInlineHeader := "" |} in
     scanLines w [line] = Some w2 /\
     forall rest, scanLines w (line :: rest) = scanLines w2 rest) /\
    (startsWith line "### " = true ->
     let w3 := {| metrics := metrics w;
                  currentCategory := currentCategory w;
                  currentSubcategory := currentSubcategory w;
                  currentSubSubcategory := trim (substringFrom 4 line);
                  currentInlineHeader := "" |} in
     scanLines w [line] = Some w3 /\
     forall rest, scanLines w (line :: rest) = scanLines w3 rest) /\
    (startsWith line "# " = true ->
     forall ls, Quiet ls ->
     exists new,
       let w1 := {| metrics := metrics w ++ new;
                    currentCategory := trim (substringFrom 2 line);
                    currentSubcategory := "General";
                    currentSubSubcategory := "";
                    currentInlineHeader := "" |} in
       scanLines w (line :: ls) = Some w1 /\
       (forall rest, scanLines w (line :: ls ++ rest) = scanLines w1 rest) /\
       Forall (fun m => category m = trim (substringFrom 2 line) /\
                        subcategory m = "General") new) /\
    (startsWith line "# " = true ->
     forall (opening closing : string) (body : list string)
            (t : ParsedTable),
       opensTable opening ->
       Forall (fun l => includes l "```" = false) body ->
       includes closing "```" = true ->
       parseXTable (unlines body) = Some t ->
       Forall (fun r => inlineHeaderOf (headers t) r = None) (rows t) ->
       scanLines w (line :: opening :: body ++ [closing])
       = Some {| metrics :=
                   metrics w
                   ++ flat_map
                        (fun r =>
                           match extractMetricFromRow r (headers t)
                                   (trim (substringFrom 2 line))
                                   "General" with
                           | Some m => [m]
                           | None => []
                           end) (rows t);
                 currentCategory := trim (substringFrom 2 line);
                 currentSubcategory := "General";
                 currentSubSubcategory := "";
                 currentInlineHeader := "" |}).
Proof.
  intros w line.
  assert (H1 : startsWith line "# " = true ->
               forall rest,
                 scanLines w (line :: rest) = scanLines (onH1 w line) rest).
  { intros H rest. pose proof H as H'.
    apply startsWith_iff in H' as [r ->]. reflexivity. }
  split; [|split; [|split; [|split]]].
  - intros H _ w1. split; [exact (H1 H [])|]. intros rest. now apply H1.
  - intros H N w2.
    assert (H2 : forall rest,
               scanLines w (line :: rest) = scanLines w2 rest).
    { intros rest. cbn [scanLines]. rewrite (h2_not_h1 _ H).
      unfold isH2. now rewrite H, N. }
    split; [exact (H2 [])|exact H2].
  - intros H w3.
    assert (H3 : forall rest,
               scanLines w (line :: rest) = scanLines w3 rest).
    { intros rest. cbn [scanLines].
      destruct (h3_not_h1_h2 _ H) as [-> ->]. unfold isH3. now rewrite H. }
    split; [exact (H3 [])|exact H3].
  - intros H ls Hq.
    destruct (scanLines_quiet_everywhere ls Hq (onH1 w line))
      as (new & Hs & Hn).
    exists new. cbv zeta. repeat split.
    + rewrite (H1 H). rewrite <- (app_nil_r ls). exact (Hs []).
    + intros rest. rewrite (H1 H). exact (Hs rest).
    + exact Hn.
  - intros H opening closing body t Ho Hb Hc Ht Hr.
    rewrite (H1 H), (scanLines_opening _ _ _ Ho).
    rewrite (collectTable_body _ Hb _ _ _ _ Hc). cbn [append].
    now rewrite (processTable_emit_exactly _ _ _ Ht Hr).
Qed.

Lemma heading_reset_cascade_witness :
  scanLines
    {| metrics := []; currentCategory := "Reach";
       currentSubcategory := "Video"; currentSubSubcategory := "Play";
       currentInlineHeader := "Legacy" |}
    [ "#  Costs "; "```xtable"; "Field | Type | Description"; "---";
      "spend | number | Cost"; "```" ]
  = Some {| metrics :=
              [ {| name := "spend"; category := "Costs";
                   subcategory := "General"; type := "number";
                   description := "Cost"; commentary := "";
                   deprecationStatus := active |} ];
            currentCategory := "Costs";
            currentSubcategory := "General";
            currentSubSubcategory := "";
            currentInlineHeader := "" |}.
Proof.
  exact (proj2 (proj2 (proj2 (proj2 (heading_reset_cascade
           {| metrics := []; currentCategory := "Reach";
              currentSubcategory := "Video"; currentSubSubcategory := "Play";
              currentInlineHeader := "Legacy" |}
           "#  Costs "))))
         eq_refl "```xtable" "```"
         [ "Field | Type | Description"; "---"; "spend | number | Cost" ]
         {| headers := ["Field"; "Type"; "Description"];
            rows := [ ["spend"; "number"; "Cost"] ] |}
         ltac:(repeat split; reflexivity)
         ltac:(repeat constructor)
         eq_refl eq_refl
         ltac:(repeat constructor)).
Defined.

(** C6, as claimed, does not hold: with no [##] line after the [#]
    heading, a [###] line or an inline-header row in between gives the
    record a subcategory other than [General]. *)
Lemma subcategory_after_h1_not_General :
  processMarkdownContent deepHeadingDocument
  = Some [ {| name := "spend"; category := "Costs";
              subcategory := "General - Deep"; type := "number";
              description := "Cost"; commentary := "";
              deprecationStatus := active |} ] /\
  processMarkdownContent inlineHeaderDocument
  = Some [ {| name := "spend"; category := "Costs";
              subcategory := "Legacy Fields"; type := "number";
              description := "Cost"; commentary := "";
              deprecationStatus := active |} ] /\
  Forall (fun line => startsWith line "## " = false)
         (split LF deepHeadingDocument ++ split LF inlineHeaderDocument).
Proof. repeat split; vm_compute; repeat constructor. Qed.



(** ** The whole scan *)

Section Scan.

Lemma truthyCell_defined (c : option string) :
  truthyCell c = true -> exists s, c = Some s /\ s <> "".
Proof.
  destruct c as [s|]; [|discriminate]. intros H.
  exists s. split; [reflexivity | now apply truthy_true_iff].
Qed.

(** Both loops come to an end with a walker, whatever the lines. *)
Lemma scanLines_total (lines : list string) :
  (forall w, exists w', scanLines w lines = Some w') /\
  (forall w text, exists w', collectTable w text lines = Some w').
Proof.
  induction lines as [|line rest [IHs IHc]].
  - split; intros w.
    + now exists w.
    + intros text. apply processTable_total.
  - split.
    + intros w. cbn [scanLines].
      destruct (isH1 line); [apply IHs|].
      destruct (isH2 line); [apply IHs|].
      destruct (isH3 line); [apply IHs|].
      destruct (includes line "```xtable"); [apply IHc | apply IHs].
    + intros w text. cbn [collectTable].
      destruct (includes line "```"); [|apply IHc].
      destruct (processTable_total w text) as [w' ->]. apply IHs.
Qed.

Lemma rowCells_trimmed (line : string) : Forall trimmed (rowCells line).
Proof.
  unfold rowCells. apply Forall_forall. intros c Hc.
  apply in_map_iff in Hc as (x & <- & _). apply trim_idem.
Qed.

Lemma parseXTable_rows_trimmed (text : string) (t : ParsedTable) :
  parseXTable text = Some t -> Forall (Forall trimmed) (rows t).
Proof.
  unfold parseXTable. destruct (filter _ (split LF text)); [discriminate|].
  intros H. injection H as <-. cbn [rows].
  apply Forall_forall. intros r Hr.
  apply in_map_iff in Hr as (x & <- & _). apply rowCells_trimmed.
Qed.

Variable P : Metric -> Prop.
Hypothesis extracted_P :
  forall row hs cat sub m,
    Forall trimmed row -> extractMetricFromRow row hs cat sub = Some m -> P m.

Lemma processRow_keeps (hs row : list string) (w : Walker) :
  Forall trimmed row -> Forall P (metrics w) ->
  Forall P (metrics (processRow hs w row)).
Proof.
  intros Hr Hw. unfold processRow.
  destruct (inlineHeaderOf hs row); [exact Hw|].
  destruct (extractMetricFromRow row hs _ _) as [m|] eqn:E; [|exact Hw].
  cbn. apply Forall_app. split; [exact Hw|].
  constructor; [|constructor]. exact (extracted_P _ _ _ _ _ Hr E).
Qed.

Lemma rows_keep (hs : list string) (rs : list (list string)) :
  Forall (Forall trimmed) rs ->
  forall w, Forall P (metrics w) ->
            Forall P (metrics (fold_left (processRow hs) rs w)).
Proof.
  induction 1 as [|r rs Hr _ IH]; intros w Hw; [exact Hw|].
  cbn [fold_left]. apply IH. now apply processRow_keeps.
Qed.

Lemma processTable_keeps (w w' : Walker) (text : string) :
  processTable w text = Some w' ->
  Forall P (metrics w) -> Forall P (metrics w').
Proof.
  unfold processTable. destruct (truthy (trim text)).
  - destruct (parseXTable text) as [t|] eqn:E; [|discriminate].
    intros H Hw. injection H as <-.
    apply rows_keep; [|exact Hw]. exact (parseXTable_rows_trimmed _ _ E).
  - intros H. now injection H as <-.
Qed.

(** A property of the records that holds of every record extracted from a
    trimmed row holds of everything the scan returns. *)
Lemma scanLines_keeps (lines : list string) :
  (forall w w', scanLines w lines = Some w' ->
                Forall P (metrics w) -> Forall P (metrics w')) /\
  (forall w text w', collectTable w text lines = Some w' ->
                     Forall P (metrics w) -> Forall P (metrics w')).
Proof.
  induction lines as [|line rest [IHs IHc]].
  - split.
    + intros w w' H. now injection H as <-.
    + intros w text w'. apply processTable_keeps.
  - split.
    + intros w w'. cbn [scanLines].
      destruct (isH1 line); [intros H Hw; exact (IHs _ _ H Hw)|].
      destruct (isH2 line); [intros H Hw; exact (IHs _ _ H Hw)|].
      destruct (isH3 line); [intros H Hw; exact (IHs _ _ H Hw)|].
      destruct (includes line "```xtable"); [apply IHc | apply IHs].
    + intros w text w'. cbn [collectTable].
      destruct (includes line "```"); [|apply IHc].
      destruct (processTable w text) as [w1|] eqn:E; [|discriminate].
      intros H Hw. apply (IHs _ _ H). exact (processTable_keeps _ _ _ E Hw).
Qed.

Lemma processMarkdownContent_keeps (content : string) (ms : list Metric) :
  processMarkdownContent content = Some ms -> Forall P ms.
Proof.
  unfold processMarkdownContent.
  destruct (scanLines initialWalker (split LF content)) as [w|] eqn:E;
    [|discriminate].
  intros H. injection H as <-.
  apply (proj1 (scanLines_keeps _) _ _ E). constructor.
Qed.

End Scan.

(** ** End to end *)

(** C1, as the code has it.  On the example document the scan returns two
    records, [video_views] and [total_comments].  The row [#Legacy Fields]
    pushes no record: with its [#] removed by [parseXTable] it is a
    one-cell row, which the scan takes for an inline header, so that
    [total_comments] has subcategory [Video Metrics - Legacy Fields]. *)
Theorem exampleDocument_metrics :
  processMarkdownContent exampleDocument
  = Some [ {| name := "video_views"; category := "Engagement";
              subcategory := "Video Metrics"; type := "number";
              description := "Total views"; commentary := "";
              deprecationStatus := active |};
           {| name := "total_comments"; category := "Engagement";
              subcategory := "Video Metrics - Legacy Fields";
              type := "number"; description := "Total comments";
              commentary := ""; deprecationStatus := deprecated |} ] /\
  rowCells "#Legacy Fields" = ["Legacy Fields"] /\
  inlineHeaderOf ["Field"; "Type"; "Description"] ["Legacy Fields"]
  = Some "Legacy Fields" /\
  extractMetricFromRow ["Legacy Fields"] ["Field"; "Type"; "Description"]
    "Engagement" "Video Metrics" = None.
Proof. repeat split; vm_compute; reflexivity. Qed.

(** C1, as claimed, does not hold: whatever the commentary fields, the scan
    of the example document does not return [total_comments] under the
    subcategory [Video Metrics]. *)
Lemma exampleDocument_not_as_claimed :
  ~ exists c1 c2 : string,
      processMarkdownContent exampleDocument
      = Some [ {| name := "video_views"; category := "Engagement";
                  subcategory := "Video Metrics"; type := "number";
                  description := "Total views"; commentary := c1;
                  deprecationStatus := active |};
               {| name := "total_comments"; category := "Engagement";
                  subcategory := "Video Metrics"; type := "number";
                  description := "Total comments"; commentary := c2;
                  deprecationStatus := deprecated |} ].
Proof.
  intros (c1 & c2 & H). vm_compute in H. discriminate H.
Qed.

(** ** The name of a record *)

Lemma extracted_nameFromCell (row hs : list string) (cat sub : string)
    (m : Metric) :
  Forall trimmed row ->
  extractMetricFromRow row hs cat sub = Some m -> nameFromCell m.
Proof.
  intros Hr E.
  apply extractMetricFromRow_Some in E as (Hc & Hh & Hne & _ & ->).
  set (cell := orEmpty (at_ row (findIndex isFieldHeader hs))) in *.
  assert (Ht : trimmed cell).
  { apply at_In in Hc. rewrite Forall_forall in Hr. now apply Hr. }
  cbn [name deprecationStatus]. repeat split.
  - unfold parseDeprecationStatus.
    destruct (Re.test toBeDeprecatedPattern cell); [apply trim_idem|].
    destruct (Re.test deprecatedPattern cell); [apply trim_idem|].
    exact Ht.
  - unfold parseDeprecationStatus.
    destruct (Re.test toBeDeprecatedPattern cell); [discriminate|].
    destruct (Re.test deprecatedPattern cell); [discriminate|].
    intros _. exact Hne.
  - exists cell. repeat split; try assumption.
    now destruct (parseDeprecationStatus cell).
Qed.

(** C5, as the code has it.  Every record that [extractMetricFromRow]
    returns for a row of trimmed cells, and so every record that
    [processMarkdownContent] returns, has a name without leading or
    trailing white space, obtained by [parseDeprecationStatus] from a
    non-empty field cell that does not start with [#]; the name is not
    empty when the record is active. *)
Theorem metric_name_invariant :
  (forall (row headers : list string) (cat sub : string) (m : Metric),
     Forall trimmed row ->
     extractMetricFromRow row headers cat sub = Some m -> nameFromCell m) /\
  (forall (content : string) (ms : list Metric) (m : Metric),
     processMarkdownContent content = Some ms -> In m ms -> nameFromCell m).
Proof.
  split; [exact extracted_nameFromCell|].
  intros content ms m H Hin.
  pose proof (processMarkdownContent_keeps nameFromCell
                extracted_nameFromCell content ms H) as HF.
  rewrite Forall_forall in HF. now apply HF.
Qed.

Lemma metric_name_invariant_witness :
  nameFromCell {| name := "total_comments"; category := "Engagement";
                  subcategory := "Video Metrics - Legacy Fields";
                  type := "number"; description := "Total comments";
                  commentary := ""; deprecationStatus := deprecated |}.
Proof.
  apply (proj2 metric_name_invariant exampleDocument
           [ {| name := "video_views"; category := "Engagement";
                subcategory := "Video Metrics"; type := "number";
                description := "Total views"; commentary := "";
                deprecationStatus := active |};
             {| name := "total_comments"; category := "Engagement";
                subcategory := "Video Metrics - Legacy Fields";
                type := "number"; description := "Total comments";
                commentary := ""; deprecationStatus := deprecated |} ]).
  - vm_compute. reflexivity.
  - right. left. reflexivity.
Defined.

(** C5, as claimed, does not hold: a field cell that is a deprecation
    marker and nothing else passes the tests of [extractMetricFromRow], and
    the record returned has the empty name. *)
Lemma marker_only_cell_has_empty_name :
  processMarkdownContent markerOnlyDocument
  = Some [ {| name := ""; category := "Costs"; subcategory := "General";
              type := "number"; description := "Retired"; commentary := "";
              deprecationStatus := deprecated |} ] /\
  extractMetricFromRow ["{-deprecated}"; "number"; "Retired"]
    ["Field"; "Type"; "Description"] "Costs" "General"
  = Some {| name := ""; category := "Costs"; subcategory := "General";
            type := "number"; description := "Retired"; commentary := "";
            deprecationStatus := deprecated |}.
Proof. split; vm_compute; reflexivity. Qed.

(** ** Nothing is thrown *)

Lemma cellOr_default (row : list string) (i : Z) (dflt : string) :
  i = (-1)%Z \/ (Z.of_nat (List.length row) <= i)%Z ->
  cellOr row i dflt = dflt.
Proof.
  intros [->|H]; unfold cellOr; [reflexivity|].
  rewrite (at_beyond _ _ H). cbn. now rewrite andb_false_r.
Qed.

Lemma inlineHeaderOf_no_field (hs row : list string) :
  findIndex isFieldHeader hs = (-1)%Z \/
  (Z.of_nat (List.length row) <= findIndex isFieldHeader hs)%Z ->
  inlineHeaderOf hs row = None.
Proof.
  intros [H|H]; unfold inlineHeaderOf.
  - now rewrite H.
  - rewrite (at_beyond _ _ H). cbn. now rewrite andb_false_r.
Qed.

(** C8.  [processMarkdownContent] returns a list of records for every
    input: no exception leaves it.  In a returned record a type,
    description or detail column that is not resolved, or lies beyond the
    end of the row, gives ["string"], [""] and [""].  A table block whose
    gathered text is empty or white space contributes nothing.  A row is
    passed over, with the walker unchanged, when no header resolves the
    field column or the row ends before it; a row of fewer than three
    cells pushes no record. *)
Theorem processMarkdownContent_total :
  (forall content : string,
     exists ms, processMarkdownContent content = Some ms) /\
  (forall (row headers : list string) (cat sub : string) (m : Metric),
     extractMetricFromRow row headers cat sub = Some m ->
     let absent (i : Z) :=
       i = (-1)%Z \/ (Z.of_nat (List.length row) <= i)%Z in
     (absent (findIndex isTypeHeader headers) -> type m = "string") /\
     (absent (findIndex isDescHeader headers) -> description m = "") /\
     (absent (findIndex isDetailHeader headers) -> commentary m = "")) /\
  (forall (w : Walker) (opening closing : string) (body rest : list string),
     opensTable opening ->
     Forall (fun l => includes l "```" = false) body ->
     includes closing "```" = true ->
     allWhite (unlines body) = true ->
     scanLines w (opening :: body ++ closing :: rest) = scanLines w rest) /\
  (forall (headers row : list string) (w : Walker),
     let fieldIndex := findIndex isFieldHeader headers in
     (fieldIndex = (-1)%Z \/ (Z.of_nat (List.length row) <= fieldIndex)%Z ->
      processRow headers w row = w) /\
     (List.length row < 3 ->
      metrics (processRow headers w row) = metrics w)).
Proof.
  split; [|split; [|split]].
  - intros content. unfold processMarkdownContent.
    destruct (proj1 (scanLines_total (split LF content)) initialWalker)
      as [w ->].
    now eexists.
  - intros row hs cat sub m E absent.
    apply extractMetricFromRow_Some in E as (_ & _ & _ & _ & ->).
    cbn [type description commentary].
    repeat split; intros H; now apply cellOr_default.
  - intros w opening closing body rest Ho Hb Hc Hw.
    rewrite scanLines_opening by assumption.
    rewrite (collectTable_body _ Hb _ _ _ _ Hc). cbn [append].
    unfold processTable. apply trim_empty_iff in Hw. now rewrite Hw.
  - intros hs row w fieldIndex. split.
    + intros H. unfold processRow.
      rewrite (inlineHeaderOf_no_field _ _ H).
      assert (E : extractMetricFromRow row hs (currentCategory w)
                    (effectiveSubcategory w) = None).
      { apply extractMetricFromRow_None. tauto. }
      now rewrite E.
    + intros H. unfold processRow.
      destruct (inlineHeaderOf hs row); [reflexivity|].
      assert (E : extractMetricFromRow row hs (currentCategory w)
                    (effectiveSubcategory w) = None).
      { apply extractMetricFromRow_None. tauto. }
      now rewrite E.
Qed.

Lemma processMarkdownContent_total_witness :
  scanLines initialWalker ["```xtable"; "  "; ""; "```"; "# Costs"]
  = scanLines initialWalker ["# Costs"].
Proof.
  apply (proj1 (proj2 (proj2 processMarkdownContent_total))
           initialWalker "```xtable" "```" ["  "; ""] ["# Costs"]).
  - repeat split.
  - repeat constructor.
  - reflexivity.
  - reflexivity.
Defined.

(** ** Splitting at a separator *)

Section Split.

Variable d : ascii.




(** Joining undoes splitting, and no segment holds the separator. *)
Lemma join_split (s : string) :
  join d (split d s) = s /\
  Forall (fun x => hasChar d x = false) (split d s).
Proof.
  induction s as [|c s [IHj IHf]]; cbn [split].
  - split; [reflexivity | now repeat constructor].
  - pose proof (split_not_nil d s) as Hn.
    destruct (Ascii.eqb_spec c d) as [->|Hc].
    + split; [|now constructor].
      destruct (split d s) as [|h t]; [contradiction|].
      cbn [join] in *. now rewrite IHj.
    + destruct (split d s) as [|h t]; [contradiction|].
      apply Forall_cons_iff in IHf as [Hh Ht]. split.
      * cbn [join] in *. destruct t; cbn [append]; now rewrite <- IHj.
      * constructor; [|assumption]. cbn [hasChar].
        apply Ascii.eqb_neq in Hc. now rewrite Hc.
Qed.

End Split.

(** ** Cells of a data line *)

Section RowCells.

Lemma removeLeadingHash_unfold (c : ascii) (r : string) :
  Re.removeLeadingHash (String c r)
  = if Ascii.eqb c "#" then r else String c r.
Proof. destruct c as [[] [] [] [] [] [] [] []]; reflexivity. Qed.







End RowCells.



(** ** Width annotations *)

Section Widths.

Lemma brace_not_in_class (c : ascii) :
  Re.isDigitOrPercent c = true -> Ascii.eqb c "}" = false.
Proof. destruct c as [[] [] [] [] [] [] [] []]; now cbn. Qed.

Lemma runThenBrace_unfold (c : ascii) (r : string) :
  Re.runThenBrace (String c r)
  = if Re.isDigitOrPercent c then
      if startsWith r "}" then Some 2
      else option_map S (Re.runThenBrace r)
    else None.
Proof.
  cbn [Re.runThenBrace]. destruct (Re.isDigitOrPercent c); [|reflexivity].
  destruct r as [|x r]; [reflexivity|].
  destruct x as [[] [] [] [] [] [] [] []]; reflexivity.
Qed.

Lemma widthMatch_unfold (c : ascii) (r : string) :
  Re.widthMatch (String c r)
  = if Ascii.eqb c "{" then option_map S (Re.runThenBrace r) else None.
Proof. destruct c as [[] [] [] [] [] [] [] []]; reflexivity. Qed.

Lemma runThenBrace_run (run rest : string) :
  run <> "" -> allDigitOrPercent run = true ->
  Re.runThenBrace (run ++ "}" ++ rest) = Some (S (String.length run)).
Proof.
  induction run as [|c run IH]; [contradiction|]. intros _ H.
  cbn [allDigitOrPercent] in H. apply andb_true_iff in H as [Hc Hr].
  cbn [append]. rewrite runThenBrace_unfold, Hc.
  destruct run as [|x run]; [reflexivity|].
  cbn [allDigitOrPercent] in Hr. pose proof Hr as Hr'.
  apply andb_true_iff in Hr' as [Hx _].
  cbn [append startsWith]. rewrite (brace_not_in_class _ Hx). cbn [andb].
  cbn [append] in IH. rewrite IH; [reflexivity | discriminate | exact Hr].
Qed.

Lemma runThenBrace_Some (s : string) (n : nat) :
  Re.runThenBrace s = Some n ->
  exists run rest,
    s = run ++ "}" ++ rest /\ run <> "" /\ allDigitOrPercent run = true.
Proof.
  revert n. induction s as [|c s IH]; intros n; [discriminate|].
  rewrite runThenBrace_unfold.
  destruct (Re.isDigitOrPercent c) eqn:Hc; [|discriminate].
  destruct (startsWith s "}") eqn:Hb.
  - intros _. apply startsWith_iff in Hb as [rest ->].
    exists (String c ""), rest. cbn. rewrite Hc. now repeat split.
  - destruct (Re.runThenBrace s) as [k|]; [|discriminate]. intros _.
    destruct (IH k eq_refl) as (run & rest & -> & Hn & Ha).
    exists (String c run), rest. cbn. rewrite Hc, Ha. now repeat split.
Qed.

Lemma widthMatch_annotation (run rest : string) :
  run <> "" -> allDigitOrPercent run = true ->
  Re.widthMatch ("{" ++ run ++ "}" ++ rest)
  = Some (S (S (String.length run))).
Proof.
  intros Hn Ha. cbn [append]. rewrite widthMatch_unfold. cbn.
  change (String "}" rest) with ("}" ++ rest).
  now rewrite (runThenBrace_run _ rest Hn Ha).
Qed.

Lemma widthMatch_Some (s : string) (n : nat) :
  Re.widthMatch s = Some n -> exists run rest, annotationAt s run rest.
Proof.
  destruct s as [|c s]; [discriminate|]. rewrite widthMatch_unfold.
  destruct (Ascii.eqb_spec c "{") as [->|]; [|discriminate].
  destruct (Re.runThenBrace s) as [k|] eqn:E; [|discriminate]. intros _.
  apply runThenBrace_Some in E as (run & rest & -> & Hn & Ha).
  exists run, rest. now repeat split.
Qed.

Lemma substringFrom_empty (n : nat) : substringFrom n "" = "".
Proof. now destruct n. Qed.

(** Passing over [n] code units and then removing is removing from the
    [n]-th code unit on. *)
Lemma removeWidthsFrom_skip (s : string) (n : nat) :
  Re.removeWidthsFrom n s = Re.removeWidths (substringFrom n s).
Proof.
  revert n. induction s as [|c s IH]; intros n.
  - now rewrite substringFrom_empty.
  - destruct n as [|n]; [reflexivity|]. cbn [Re.removeWidthsFrom substringFrom].
    apply IH.
Qed.

Lemma removeWidths_annotation (run rest : string) :
  run <> "" -> allDigitOrPercent run = true ->
  Re.removeWidths ("{" ++ run ++ "}" ++ rest) = Re.removeWidths rest.
Proof.
  intros Hn Ha. unfold Re.removeWidths at 1.
  pose proof (widthMatch_annotation run rest Hn Ha) as Hm.
  cbn [append] in *. cbn [Re.removeWidthsFrom]. rewrite Hm. cbn [Nat.pred].
  rewrite removeWidthsFrom_skip. f_equal.
  change (S (String.length run)) with (String.length (String "{" run)).
  change (String "}" rest) with ("}" ++ rest).
  replace (run ++ "}" ++ rest) with ((run ++ "}") ++ rest)
    by apply append_assoc.
  replace (String.length (String "{" run)) with (String.length (run ++ "}"))
    by (rewrite length_append; cbn; lia).
  apply substringFrom_app.
Qed.

Lemma removeWidths_other (c : ascii) (rest : string) :
  (forall run rest', ~ annotationAt (String c rest) run rest') ->
  Re.removeWidths (String c rest) = String c (Re.removeWidths rest).
Proof.
  intros H. unfold Re.removeWidths. cbn [Re.removeWidthsFrom].
  destruct (Re.widthMatch (String c rest)) as [n|] eqn:E; [|reflexivity].
  apply widthMatch_Some in E as (run & rest' & Ha). now apply H in Ha.
Qed.

Lemma truthy_trim (s : string) : truthy (trim s) = negb (allWhite s).
Proof.
  destruct (allWhite s) eqn:E.
  - apply trim_empty_iff in E. now rewrite E.
  - apply truthy_true_iff. intros H. apply trim_empty_iff in H. congruence.
Qed.

End Widths.

(** ** parseXTable *)

(** C9, as the code has it.  For a block with a non-blank line,
    [parseXTable] returns as headers the first non-blank line split at the
    bars, the segments of white space dropped, every annotation removed
    from each cell and the cell trimmed; an annotation is an opening brace,
    one or more code units that are digits or percent signs, and a closing
    brace.  The second non-blank line has no part in the result.  Every
    further non-blank line gives one row, in order: one leading [#]
    removed, the line split at the bars, the empty segments dropped, each
    cell trimmed.  Splitting at a separator is the inverse of joining. *)
Theorem parseXTable_contract :
  (forall (block headerLine : string) (others : list string),
     filter (fun l => negb (allWhite l)) (split LF block)
     = headerLine :: others ->
     parseXTable block
     = Some {| headers :=
                 map (fun h => trim (Re.removeWidths h))
                     (filter (fun h => negb (allWhite h))
                             (split "|" headerLine));
               rows :=
                 map (fun line =>
                        map trim
                            (filter (fun c => negb (c =? ""))
                                    (split "|" (Re.removeLeadingHash line))))
                     (tl others) |}) /\
  (Re.removeWidths "" = "" /\
   (forall run rest,
      run <> "" -> allDigitOrPercent run = true ->
      Re.removeWidths ("{" ++ run ++ "}" ++ rest) = Re.removeWidths rest) /\
   (forall c rest,
      (forall run rest', ~ annotationAt (String c rest) run rest') ->
      Re.removeWidths (String c rest) = String c (Re.removeWidths rest))) /\
  (forall line,
     Re.removeLeadingHash ("#" ++ line) = line /\
     (startsWith line "#" = false -> Re.removeLeadingHash line = line)) /\
  (forall d s,
     join d (split d s) = s /\
     Forall (fun seg => hasChar d seg = false) (split d s)).
Proof.
  split; [|split; [|split]].
  - intros block headerLine others H. unfold parseXTable.
    rewrite (filter_ext _ (fun l => negb (allWhite l)) truthy_trim), H.
    unfold headerCells.
    rewrite (filter_ext _ (fun l => negb (allWhite l)) truthy_trim).
    destruct others; reflexivity.
  - split; [reflexivity|]. split.
    + exact removeWidths_annotation.
    + exact removeWidths_other.
  - intros line. split; [reflexivity|].
    destruct line as [|c r]; [reflexivity|].
    rewrite removeLeadingHash_unfold. cbn [startsWith].
    rewrite andb_true_r. now intros ->.
  - intros d s. apply join_split.
Qed.

Lemma parseXTable_contract_witness :
  parseXTable
    (unlines ["Field{20%} | Type{10} | Description"; "";
              "--|--"; "#Basic"; "spend || number | Cost "])
  = Some {| headers := ["Field"; "Type"; "Description"];
            rows := [["Basic"]; ["spend"; "number"; "Cost"]] |}.
Proof.
  apply (proj1 parseXTable_contract
           (unlines ["Field{20%} | Type{10} | Description"; "";
                     "--|--"; "#Basic"; "spend || number | Cost "])
           "Field{20%} | Type{10} | Description"
           ["--|--"; "#Basic"; "spend || number | Cost "]).
  reflexivity.
Defined.

(** C9, as claimed, does not hold: the header cells [Field{%}] and
    [Type{2%5}] carry no annotation of the form digits, or digits and one
    percent sign, yet [parseXTable] removes the braces and what they hold. *)
Lemma percent_only_annotation_removed :
  headerCellsAsSpecified "Field{%} | Type{2%5} | Size{20%}"
  = ["Field{%}"; "Type{2%5}"; "Size"] /\
  parseXTable "Field{%} | Type{2%5} | Size{20%}"
  = Some {| headers := ["Field"; "Type"; "Size"]; rows := [] |}.
Proof. split; vm_compute; reflexivity. Qed.

(** * Further properties of the scan *)

(** ** Substrings *)

Section Includes.

Lemma includes_unfold (s p : string) :
  includes s p =
  startsWith s p ||
  match s with EmptyString => false | String _ r => includes r p end.
Proof. now destruct s. Qed.

(** [s.includes(p)] holds exactly when [p] lies somewhere in [s]. *)
Lemma includes_iff (s p : string) :
  includes s p = true <-> exists a b, s = a ++ p ++ b.
Proof.
  induction s as [|c s IH]; rewrite includes_unfold, orb_true_iff.
  - split.
    + intros [H|H]; [|discriminate].
      apply startsWith_iff in H as [r Hr]. now exists "", r.
    + intros (a & b & H). left. destruct a; [|discriminate].
      apply startsWith_iff. now exists b.
  - split.
    + intros [H|H].
      * apply startsWith_iff in H as [r Hr]. now exists "", r.
      * apply IH in H as (a & b & ->). now exists (String c a), b.
    + intros (a & b & H). destruct a as [|x a].
      * left. apply startsWith_iff. now exists b.
      * right. apply IH. injection H as _ ->. now exists a, b.
Qed.

Lemma includes_trans (s p q : string) :
  includes s p = true -> includes p q = true -> includes s q = true.
Proof.
  rewrite !includes_iff. intros (a & b & ->) (a' & b' & ->).
  exists (a ++ a'), (b' ++ b). now rewrite !append_assoc.
Qed.

Lemma includes_refl (s : string) : includes s s = true.
Proof. apply includes_iff. exists "", "". now rewrite append_nil_r. Qed.

Lemma includes_empty (s : string) : includes s "" = true.
Proof. apply includes_iff. now exists "", s. Qed.

End Includes.

(** ** An invariant of the two loops *)

Section ScanInvariant.

(** [all] are the lines of the document, [R] holds of the rows that
    [parseXTable] returns, and [Inv] is kept by the three headings of [all]
    and by the [forEach] callback on such rows. *)
Variable all : list string.
Variable R : list string -> Prop.
Variable Inv : Walker -> Prop.

Hypothesis R_parsed :
  forall text t, parseXTable text = Some t -> Forall R (rows t).
Hypothesis Inv_h1 :
  forall w line, In line all -> isH1 line = true -> Inv w ->
                 Inv (onH1 w line).
Hypothesis Inv_h2 :
  forall w line, In line all -> isH2 line = true -> Inv w ->
                 Inv (onH2 w line).
Hypothesis Inv_h3 :
  forall w line, In line all -> isH3 line = true -> Inv w ->
                 Inv (onH3 w line).
Hypothesis Inv_row :
  forall hs w row, R row -> Inv w -> Inv (processRow hs w row).

Lemma rows_invariant (hs : list string) (rs : list (list string)) :
  Forall R rs ->
  forall w, Inv w -> Inv (fold_left (processRow hs) rs w).
Proof.
  induction 1 as [|r rs Hr _ IH]; intros w Hw; [exact Hw|].
  cbn [fold_left]. apply IH. now apply Inv_row.
Qed.

Lemma processTable_invariant (w w' : Walker) (text : string) :
  processTable w text = Some w' -> Inv w -> Inv w'.
Proof.
  unfold processTable. destruct (truthy (trim text)).
  - destruct (parseXTable text) as [t|] eqn:E; [|discriminate].
    intros H Hw. injection H as <-.
    apply rows_invariant; [|exact Hw]. exact (R_parsed _ _ E).
  - intros H. now injection H as <-.
Qed.

Lemma scanLines_invariant (lines : list string) :
  incl lines all ->
  (forall w w', scanLines w lines = Some w' -> Inv w -> Inv w') /\
  (forall w text w', collectTable w text lines = Some w' ->
                     Inv w -> Inv w').
Proof.
  induction lines as [|line rest IH]; intros Hincl.
  - split.
    + intros w w' H. now injection H as <-.
    + intros w text w'. apply processTable_invariant.
  - assert (Hin : In line all) by (apply Hincl; now left).
    destruct IH as [IHs IHc].
    { intros x Hx. apply Hincl. now right. }
    split.
    + intros w w'. cbn [scanLines].
      destruct (isH1 line) eqn:E1.
      { intros H Hw. apply (IHs _ _ H). now apply Inv_h1. }
      destruct (isH2 line) eqn:E2.
      { intros H Hw. apply (IHs _ _ H). now apply Inv_h2. }
      destruct (isH3 line) eqn:E3.
      { intros H Hw. apply (IHs _ _ H). now apply Inv_h3. }
      destruct (includes line "```xtable"); [apply IHc | apply IHs].
    + intros w text w'. cbn [collectTable].
      destruct (includes line "```"); [|apply IHc].
      destruct (processTable w text) as [w1|] eqn:E; [|discriminate].
      intros H Hw. apply (IHs _ _ H).
      exact (processTable_invariant _ _ _ E Hw).
Qed.

End ScanInvariant.

Lemma any_row_parsed (text : string) (t : ParsedTable) :
  parseXTable text = Some t -> Forall (fun _ => True) (rows t).
Proof. intros _. apply Forall_forall. trivial. Qed.

(** ** Type and category of the records *)

Lemma cellOr_truthy (row : list string) (i : Z) (dflt : string) :
  dflt <> "" -> cellOr row i dflt <> "".
Proof.
  intros Hd. unfold cellOr.
  destruct (negb (i =? -1)%Z && truthyCell (at_ row i)) eqn:E; [|exact Hd].
  apply andb_true_iff in E as [_ E].
  apply truthyCell_defined in E as (c & -> & Hc). exact Hc.
Qed.

(** X1.  No record has an empty type: where the type column is not resolved,
    or the cell is missing or empty, the type is ["string"]. *)
Theorem metric_type_never_empty :
  forall (content : string) (ms : list Metric) (m : Metric),
    processMarkdownContent content = Some ms -> In m ms ->
    type m <> "" /\
    (forall (row headers : list string) (cat sub : string),
        extractMetricFromRow row headers cat sub = Some m ->
        ~ truthyCell (at_ row (findIndex isTypeHeader headers)) = true ->
        type m = "string").
Proof.
  intros content ms m H Hin.
  assert (HF : Forall (fun m => type m <> "") ms).
  { apply (processMarkdownContent_keeps (fun m => type m <> "")) with content;
      [|exact H].
    intros row hs cat sub m' _ E.
    apply extractMetricFromRow_Some in E as (_ & _ & _ & _ & ->).
    cbn [type]. now apply cellOr_truthy. }
  rewrite Forall_forall in HF. split; [now apply HF|].
  intros row hs cat sub E Hn.
  apply extractMetricFromRow_Some in E as (_ & _ & _ & _ & ->).
  cbn [type]. unfold cellOr.
  destruct (truthyCell (at_ row (findIndex isTypeHeader hs)));
    [contradiction|].
  now rewrite andb_false_r.
Qed.

Lemma metric_type_never_empty_witness :
  type {| name := "video_views"; category := "Engagement";
          subcategory := "Video Metrics"; type := "number";
          description := "Total views"; commentary := "";
          deprecationStatus := active |} <> "".
Proof.
  apply (metric_type_never_empty exampleDocument
           [ {| name := "video_views"; category := "Engagement";
                subcategory := "Video Metrics"; type := "number";
                description := "Total views"; commentary := "";
                deprecationStatus := active |};
             {| name := "total_comments"; category := "Engagement";
                subcategory := "Video Metrics - Legacy Fields";
                type := "number"; description := "Total comments";
                commentary := ""; deprecationStatus := deprecated |} ]).
  - vm_compute. reflexivity.
  - left. reflexivity.
Defined.

(** X2.  The category of every record is [General] or the trimmed text of a
    line of the document that starts with ["# "]. *)
Theorem metric_category_from_heading :
  forall (content : string) (ms : list Metric) (m : Metric),
    processMarkdownContent content = Some ms -> In m ms ->
    category m = "General" \/
    exists line,
      In line (split LF content) /\ startsWith line "# " = true /\
      category m = trim (substringFrom 2 line).
Proof.
  intros content ms m H Hin.
  set (ok := fun c : string =>
         c = "General" \/
         exists line,
           In line (split LF content) /\ startsWith line "# " = true /\
           c = trim (substringFrom 2 line)).
  set (Inv := fun w : Walker =>
         ok (currentCategory w) /\
         Forall (fun m => ok (category m)) (metrics w)).
  unfold processMarkdownContent in H.
  destruct (scanLines initialWalker (split LF content)) as [w|] eqn:E;
    [|discriminate].
  injection H as <-.
  assert (Hh1 : forall w0 line, In line (split LF content) ->
                 isH1 line = true -> Inv w0 -> Inv (onH1 w0 line)).
  { intros w0 line Hl H1 [_ Hm]. split; [|exact Hm].
    right. exists line. cbn. repeat split; try assumption.
    unfold isH1 in H1. now apply andb_true_iff in H1 as [H1 _]. }
  assert (Hh2 : forall w0 line, In line (split LF content) ->
                 isH2 line = true -> Inv w0 -> Inv (onH2 w0 line)).
  { intros w0 line _ _ Hi. exact Hi. }
  assert (Hh3 : forall w0 line, In line (split LF content) ->
                 isH3 line = true -> Inv w0 -> Inv (onH3 w0 line)).
  { intros w0 line _ _ Hi. exact Hi. }
  assert (Hrow : forall hs w0 row, True -> Inv w0 ->
                  Inv (processRow hs w0 row)).
  { intros hs w0 row _ [Hc Hm]. unfold processRow.
    destruct (inlineHeaderOf hs row); [now split|].
    destruct (extractMetricFromRow row hs _ _) as [m'|] eqn:Ex;
      [|now split].
    split; [exact Hc|]. cbn. apply Forall_app. split; [exact Hm|].
    constructor; [|constructor].
    apply extractMetricFromRow_Some in Ex as (_ & _ & _ & _ & ->).
    exact Hc. }
  assert (Hw : Inv w).
  { apply (proj1 (scanLines_invariant (split LF content)
                    (fun _ => True) Inv any_row_parsed Hh1 Hh2 Hh3 Hrow
                    (split LF content) (incl_refl _))
             initialWalker w E).
    split; [now left | constructor]. }
  destruct Hw as [_ Hw]. rewrite Forall_forall in Hw. now apply Hw.
Qed.

Lemma metric_category_from_heading_witness :
  category {| name := "video_views"; category := "Engagement";
              subcategory := "Video Metrics"; type := "number";
              description := "Total views"; commentary := "";
              deprecationStatus := active |} = "General" \/
  exists line,
    In line (split LF exampleDocument) /\ startsWith line "# " = true /\
    category {| name := "video_views"; category := "Engagement";
                subcategory := "Video Metrics"; type := "number";
                description := "Total views"; commentary := "";
                deprecationStatus := active |}
    = trim (substringFrom 2 line).
Proof.
  apply (metric_category_from_heading exampleDocument
           [ {| name := "video_views"; category := "Engagement";
                subcategory := "Video Metrics"; type := "number";
                description := "Total views"; commentary := "";
                deprecationStatus := active |};
             {| name := "total_comments"; category := "Engagement";
                subcategory := "Video Metrics - Legacy Fields";
                type := "number"; description := "Total comments";
                commentary := ""; deprecationStatus := deprecated |} ]).
  - vm_compute. reflexivity.
  - left. reflexivity.
Defined.

(** ** Fences *)

Section Fences.

Lemma xtable_fence_is_fence (line : string) :
  includes line "```xtable" = true -> includes line "```" = true.
Proof.
  intros H. apply (includes_trans _ _ _ H). reflexivity.
Qed.

Lemma processRow_sameHeadings (w : Walker) (hs : list string)
    (w1 : Walker) (row : list string) :
  True -> sameHeadings w w1 -> sameHeadings w (processRow hs w1 row).
Proof.
  intros _ (Hc & Hs & Hss & new & Hm). unfold processRow.
  destruct (inlineHeaderOf hs row).
  - repeat split; try assumption. now exists new.
  - destruct (extractMetricFromRow row hs _ _) as [m|].
    + repeat split; try assumption. exists (new ++ [m])%list. cbn.
      now rewrite Hm, app_assoc.
    + repeat split; try assumption. now exists new.
Qed.

Lemma sameHeadings_refl (w : Walker) : sameHeadings w w.
Proof. repeat split. exists []. now rewrite app_nil_r. Qed.

Lemma processTable_sameHeadings (w w' : Walker) (text : string) :
  processTable w text = Some w' -> sameHeadings w w'.
Proof.
  intros H.
  apply (processTable_invariant (fun _ => True) (sameHeadings w)
           any_row_parsed (processRow_sameHeadings w) w w' text H).
  apply sameHeadings_refl.
Qed.

Lemma collectTable_to_the_end (body : list string) :
  Forall (fun l => includes l "```" = false) body ->
  forall w text,
    collectTable w text body = processTable w (text ++ unlines body).
Proof.
  induction 1 as [|l body Hl _ IH]; intros w text.
  - cbn. now rewrite append_nil_r.
  - cbn [collectTable]. rewrite Hl, IH. cbn [unlines].
    now rewrite !append_assoc.
Qed.

End Fences.

(** X3.  A document without a line that holds [```xtable] gives no record. *)
Theorem no_table_no_metrics :
  forall content : string,
    Forall (fun line => includes line "```xtable" = false)
           (split LF content) ->
    processMarkdownContent content = Some [].
Proof.
  intros content H. unfold processMarkdownContent.
  assert (G : forall lines,
             Forall (fun line => includes line "```xtable" = false) lines ->
             forall w, exists w',
               scanLines w lines = Some w' /\ metrics w' = metrics w).
  { induction 1 as [|line rest Hl _ IH]; intros w.
    - now exists w.
    - cbn [scanLines]. rewrite Hl.
      destruct (isH1 line); [apply (IH (onH1 w line))|].
      destruct (isH2 line); [apply (IH (onH2 w line))|].
      destruct (isH3 line); [apply (IH (onH3 w line))|].
      apply IH. }
  destruct (G _ H initialWalker) as (w' & -> & Hm). cbn. now rewrite Hm.
Qed.

Lemma no_table_no_metrics_witness :
  processMarkdownContent
    (unlines ["# Costs"; "```"; "Field | Type | Description"; "--";
              "spend | number | Cost"; "```"]) = Some [].
Proof.
  apply no_table_no_metrics. repeat constructor.
Defined.

(** X4.  Between the fences no line is read as a heading: after a closed table
    block, whatever its lines, category, subcategory and sub-subcategory
    are what they were, and the records gathered before are still there,
    in front of the new ones. *)
Theorem table_block_keeps_headings :
  forall (w : Walker) (opening closing : string) (body rest : list string),
    opensTable opening ->
    Forall (fun l => includes l "```" = false) body ->
    includes closing "```" = true ->
    exists w',
      scanLines w (opening :: body ++ closing :: rest) = scanLines w' rest /\
      currentCategory w' = currentCategory w /\
      currentSubcategory w' = currentSubcategory w /\
      currentSubSubcategory w' = currentSubSubcategory w /\
      exists new, metrics w' = (metrics w ++ new)%list.
Proof.
  intros w opening closing body rest Ho Hb Hc.
  rewrite scanLines_opening by assumption.
  rewrite (collectTable_body _ Hb _ _ _ _ Hc). cbn [append].
  destruct (processTable_total w (unlines body)) as [w' E].
  rewrite E. exists w'. split; [reflexivity|].
  exact (processTable_sameHeadings _ _ _ E).
Qed.

Lemma table_block_keeps_headings_witness :
  exists w',
    scanLines initialWalker
      ("```xtable" :: ["Field | Type | Description"; "--"; "# Costs";
                       "## Basic"; "spend | number | Cost"]
       ++ "```" :: ["text"])
    = scanLines w' ["text"] /\
    currentCategory w' = currentCategory initialWalker /\
    currentSubcategory w' = currentSubcategory initialWalker /\
    currentSubSubcategory w' = currentSubSubcategory initialWalker /\
    exists new, metrics w' = (metrics initialWalker ++ new)%list.
Proof.
  apply table_block_keeps_headings.
  - repeat split.
  - repeat constructor.
  - reflexivity.
Defined.

(** X5.  A table without closing fence runs to the end of the document: all
    the lines after the opening are its text, headings among them. *)
Theorem unterminated_table_runs_to_end :
  forall (w : Walker) (opening : string) (body : list string),
    opensTable opening ->
    Forall (fun l => includes l "```" = false) body ->
    exists w',
      scanLines w (opening :: body) = Some w' /\
      processTable w (unlines body) = Some w' /\
      currentCategory w' = currentCategory w /\
      currentSubcategory w' = currentSubcategory w /\
      currentSubSubcategory w' = currentSubSubcategory w.
Proof.
  intros w opening body Ho Hb.
  rewrite scanLines_opening by assumption.
  rewrite (collectTable_to_the_end _ Hb). cbn [append].
  destruct (processTable_total w (unlines body)) as [w' E].
  exists w'. repeat split; try assumption;
    now destruct (processTable_sameHeadings _ _ _ E) as (? & ? & ? & _).
Qed.

Lemma unterminated_table_runs_to_end_witness :
  exists w',
    scanLines initialWalker
      ["```xtable"; "Field | Type | Description"; "--";
       "spend | number | Cost"; "# Reach"; "text"] = Some w' /\
    processTable initialWalker
      (unlines ["Field | Type | Description"; "--";
                "spend | number | Cost"; "# Reach"; "text"]) = Some w' /\
    currentCategory w' = currentCategory initialWalker /\
    currentSubcategory w' = currentSubcategory initialWalker /\
    currentSubSubcategory w' = currentSubSubcategory initialWalker.
Proof.
  apply unterminated_table_runs_to_end.
  - repeat split.
  - repeat constructor.
Defined.

(** X6.  While a table is gathered, a line that holds [```xtable] ends it like
    any fence and opens no table of its own: the scan goes on with the
    lines after it as ordinary lines. *)
Theorem opening_fence_closes_open_table :
  forall (w : Walker) (opening second : string) (body rest : list string),
    opensTable opening ->
    Forall (fun l => includes l "```" = false) body ->
    includes second "```xtable" = true ->
    exists w',
      processTable w (unlines body) = Some w' /\
      scanLines w (opening :: body ++ second :: rest) = scanLines w' rest.
Proof.
  intros w opening second body rest Ho Hb Hs.
  rewrite scanLines_opening by assumption.
  rewrite (collectTable_body _ Hb _ _ _ _ (xtable_fence_is_fence _ Hs)).
  cbn [append].
  destruct (processTable_total w (unlines body)) as [w' E].
  rewrite E. now exists w'.
Qed.

Lemma opening_fence_closes_open_table_witness :
  exists w',
    processTable initialWalker
      (unlines ["Field | Type | Description"; "--"]) = Some w' /\
    scanLines initialWalker
      ("```xtable" :: ["Field | Type | Description"; "--"]
       ++ "```xtable" :: ["Field | Type"; "--"; "a | b | c"; "```"])
    = scanLines w' ["Field | Type"; "--"; "a | b | c"; "```"].
Proof.
  apply opening_fence_closes_open_table.
  - repeat split.
  - repeat constructor.
  - reflexivity.
Defined.

(** ** Column resolution *)

Lemma findIndex_first {A : Type} (p : A -> bool) (l : list A) (k : nat) :
  findIndex p l = Z.of_nat k ->
  (exists x, nth_error l k = Some x /\ p x = true) /\
  (forall j y, j < k -> nth_error l j = Some y -> p y = false).
Proof.
  revert k. induction l as [|x l IH]; intros k; cbn [findIndex].
  - lia.
  - destruct (p x) eqn:E.
    + intros H. assert (k = 0) by lia. subst k. split.
      * now exists x.
      * intros j y Hj. lia.
    + pose proof (findIndex_range p l) as Hr.
      destruct (Z.eqb_spec (findIndex p l) (-1)); [lia|].
      intros H. destruct k as [|k]; [lia|].
      destruct (IH k) as [Hx Hb]; [lia|]. split; [exact Hx|].
      intros [|j] y Hj Hy.
      * cbn in Hy. now injection Hy as <-.
      * cbn in Hy. apply (Hb j y); [lia | exact Hy].
Qed.

(** X7.  A column is resolved by substring alone: a header stands for the
    field, type, description or detail column exactly when its lower-case
    form holds the fragment, so that the comparisons with the whole name
    decide nothing; and the column taken is the first such header from the
    left. *)
Theorem column_resolution_by_substring :
  (forall h : string,
     (isFieldHeader h = true <->
      exists a b, toLowerCase h = a ++ "field" ++ b) /\
     (isTypeHeader h = true <->
      exists a b, toLowerCase h = a ++ "type" ++ b) /\
     (isDescHeader h = true <->
      exists a b, toLowerCase h = a ++ "description" ++ b) /\
     (isDetailHeader h = true <->
      exists a b, toLowerCase h = a ++ "detail" ++ b)) /\
  (forall (p : string -> bool) (headers : list string) (k : nat),
     findIndex p headers = Z.of_nat k ->
     (exists h, nth_error headers k = Some h /\ p h = true) /\
     (forall j h, j < k -> nth_error headers j = Some h -> p h = false)) /\
  (forall (p : string -> bool) (headers : list string),
     findIndex p headers = (-1)%Z <->
     Forall (fun h => p h = false) headers).
Proof.
  split; [|split].
  - intros h.
    assert (G : forall frag whole,
               includes whole frag = true ->
               (includes (toLowerCase h) frag
                || (toLowerCase h =? whole) = true <->
                exists a b, toLowerCase h = a ++ frag ++ b)).
    { intros frag whole Hw. rewrite orb_true_iff, <- includes_iff.
      split; [|now left]. intros [H|H]; [exact H|].
      apply String.eqb_eq in H. now rewrite H. }
    repeat split; try (apply (G _ _); reflexivity);
      try (apply (proj1 (G _ _ ltac:(reflexivity))));
      try (apply (proj2 (G _ _ ltac:(reflexivity)))).
  - intros p headers k. apply findIndex_first.
  - intros p headers. apply findIndex_none_iff.
Qed.

Lemma column_resolution_by_substring_witness :
  (exists h, nth_error ["Name"; "Subtype"; "Data Type"] 1 = Some h /\
             isTypeHeader h = true) /\
  (forall j h, j < 1 -> nth_error ["Name"; "Subtype"; "Data Type"] j = Some h ->
               isTypeHeader h = false).
Proof.
  apply (proj1 (proj2 column_resolution_by_substring)
           isTypeHeader ["Name"; "Subtype"; "Data Type"] 1).
  reflexivity.
Defined.

(** * The views of the metric list *)

(** ** Plain objects *)

Section ObjFacts.

Context {V : Type}.
Implicit Types (o : list (string * V)) (k : string) (v : V).

Lemma get_set_same o k v : Obj.get (Obj.set o k v) k = Some v.
Proof.
  induction o as [|[k' v'] o IH]; cbn.
  - now rewrite String.eqb_refl.
  - destruct (k' =? k) eqn:E; cbn; now rewrite E.
Qed.

Lemma get_set_other o k k' v :
  k <> k' -> Obj.get (Obj.set o k v) k' = Obj.get o k'.
Proof.
  intros Hk. induction o as [|[k0 v0] o IH]; cbn.
  - apply String.eqb_neq in Hk. now rewrite Hk.
  - destruct (String.eqb_spec k0 k) as [->|Hn]; cbn.
    + apply String.eqb_neq in Hk. now rewrite Hk.
    + destruct (k0 =? k'); [reflexivity | exact IH].
Qed.

Lemma set_set o k v v' : Obj.set (Obj.set o k v) k v' = Obj.set o k v'.
Proof.
  induction o as [|[k0 v0] o IH]; cbn.
  - now rewrite String.eqb_refl.
  - destruct (k0 =? k) eqn:E; cbn; rewrite E; [reflexivity | now rewrite IH].
Qed.

Lemma set_not_nil o k v : Obj.set o k v <> [].
Proof.
  destruct o as [|[k0 v0] o]; cbn; [discriminate|].
  destruct (k0 =? k); discriminate.
Qed.

Lemma keys_set o k v :
  map fst (Obj.set o k v)
  = if existsb (String.eqb k) (map fst o) then map fst o
    else (map fst o ++ [k])%list.
Proof.
  induction o as [|[k0 v0] o IH]; cbn; [reflexivity|].
  rewrite (String.eqb_sym k k0).
  destruct (k0 =? k) eqn:E; cbn; [reflexivity|].
  rewrite IH. now destruct (existsb (String.eqb k) (map fst o)).
Qed.

Lemma get_Some_In o k v : Obj.get o k = Some v -> In (k, v) o.
Proof.
  induction o as [|[k0 v0] o IH]; cbn; [discriminate|].
  destruct (String.eqb_spec k0 k) as [->|Hn].
  - intros H. injection H as ->. now left.
  - intros H. right. now apply IH.
Qed.

Lemma get_None_keys o k :
  Obj.get o k = None <-> existsb (String.eqb k) (map fst o) = false.
Proof.
  induction o as [|[k0 v0] o IH]; cbn; [tauto|].
  rewrite (String.eqb_sym k k0).
  destruct (k0 =? k); cbn; [split; discriminate | exact IH].
Qed.

Lemma Forall_set (Q : V -> Prop) o k v :
  Forall (fun e => Q (snd e)) o -> Q v ->
  Forall (fun e => Q (snd e)) (Obj.set o k v).
Proof.
  intros Ho Hv. induction Ho as [|[k0 v0] o H0 Ht IH]; cbn.
  - now repeat constructor.
  - destruct (k0 =? k); constructor; assumption.
Qed.

(** Storing under [k] a value that holds what the old one held, and [x]
    besides, adds [x] to what the object holds. *)
Lemma flat_map_set {B : Type} (f : V -> list B) o k v v0 (x : list B) :
  Obj.get o k = Some v0 \/ (Obj.get o k = None /\ f v0 = []) ->
  Permutation (f v) (f v0 ++ x) ->
  Permutation (flat_map (fun e => f (snd e)) (Obj.set o k v))
              (flat_map (fun e => f (snd e)) o ++ x).
Proof.
  intros Hg Hv. induction o as [|[k0 v1] o IH]; cbn in *.
  - destruct Hg as [Hg|[_ Hg]]; [discriminate|].
    rewrite Hg in Hv. now rewrite app_nil_r.
  - destruct (k0 =? k) eqn:E; cbn.
    + destruct Hg as [Hg|[Hg _]]; [|discriminate]. injection Hg as ->.
      rewrite <- app_assoc.
      transitivity ((f v0 ++ x) ++ flat_map (fun e => f (snd e)) o)%list.
      * now apply Permutation_app_tail.
      * rewrite <- app_assoc. apply Permutation_app_head.
        apply Permutation_app_comm.
    + rewrite <- app_assoc. apply Permutation_app_head. now apply IH.
Qed.

Lemma insertByIndex_perm (n : N) (e : string * V) l :
  Permutation (Obj.insertByIndex n e l) ((n, e) :: l).
Proof.
  induction l as [|[n' e'] l IH]; cbn; [reflexivity|].
  destruct (n <=? n')%N; [reflexivity|].
  rewrite IH. apply perm_swap.
Qed.

(** [Object.entries] lists every own property once. *)
Lemma entries_perm o : Permutation (Obj.entries o) o.
Proof.
  unfold Obj.entries. induction o as [|e o IH]; [reflexivity|].
  cbn [Obj.indexed filter]. unfold Obj.isNamed at 1.
  destruct (Obj.arrayIndex (fst e)) as [n|].
  - rewrite (Permutation_map snd (insertByIndex_perm n e (Obj.indexed o))).
    cbn. now constructor.
  - rewrite <- Permutation_middle. now constructor.
Qed.

Lemma indexed_perm o :
  Permutation (map snd (Obj.indexed o))
              (filter (fun e => negb (Obj.isNamed e)) o).
Proof.
  induction o as [|e o IH]; cbn [Obj.indexed filter]; [reflexivity|].
  unfold Obj.isNamed at 1.
  destruct (Obj.arrayIndex (fst e)) as [n|]; cbn [negb]; [|exact IH].
  rewrite (Permutation_map snd (insertByIndex_perm n e (Obj.indexed o))).
  cbn. now constructor.
Qed.

End ObjFacts.

Section FlatMaps.

Context {A B C : Type}.

Lemma flat_map_pointwise_perm (f g : A -> list B) (l : list A) :
  (forall x, Permutation (f x) (g x)) ->
  Permutation (flat_map f l) (flat_map g l).
Proof.
  intros H. induction l as [|x l IH]; cbn; [reflexivity|].
  now apply Permutation_app.
Qed.

Lemma flat_map_perm (f : A -> list B) (l l' : list A) :
  Permutation l l' -> Permutation (flat_map f l) (flat_map f l').
Proof.
  induction 1 as [|x l l' _ IH|x y l|l l' l'' _ IH1 _ IH2]; cbn.
  - reflexivity.
  - now apply Permutation_app_head.
  - rewrite !app_assoc. apply Permutation_app_tail.
    apply Permutation_app_comm.
  - now transitivity (flat_map f l').
Qed.

Lemma flat_map_of_flat_map (f : A -> list B) (g : B -> list C)
    (l : list A) :
  flat_map g (flat_map f l) = flat_map (fun x => flat_map g (f x)) l.
Proof.
  induction l as [|x l IH]; cbn; [reflexivity|].
  now rewrite flat_map_app, IH.
Qed.

Lemma flat_map_of_map (f : A -> B) (g : B -> list C) (l : list A) :
  flat_map g (map f l) = flat_map (fun x => g (f x)) l.
Proof. induction l as [|x l IH]; cbn; [reflexivity | now rewrite IH]. Qed.

Lemma map_of_flat_map (f : A -> list B) (g : B -> C) (l : list A) :
  map g (flat_map f l) = flat_map (fun x => map g (f x)) l.
Proof.
  induction l as [|x l IH]; cbn; [reflexivity|].
  now rewrite map_app, IH.
Qed.

End FlatMaps.

(** ** groupMetrics *)

Section Grouping.

Lemma inherited_proto (c : string) :
  Obj.inherited c = false -> (c =? "__proto__") = false.
Proof.
  intros H. destruct (String.eqb_spec c "__proto__") as [->|_];
    [discriminate H | reflexivity].
Qed.

(** With ordinary keys and a plain [Object.prototype] the callback works on
    the objects of [acc] alone. *)
Lemma groupStep_simpl (realm : Realm.t) (acc : Grouped) (m : Metric) :
  plainPrototype realm -> ordinaryKeys m ->
  groupStep realm acc m = Some (storeRecord acc m, realm).
Proof.
  intros Hp [Hc Hs]. unfold groupStep, target, storeRecord.
  rewrite (inherited_proto _ Hc), Hc, Hp. cbn [Obj.get].
  destruct (Obj.get acc (category m)) as [o|] eqn:Ea.
  - cbn [read]. unfold subcategoriesOf at 1. rewrite Ea.
    destruct (Obj.get o (subcategory m)) as [a|] eqn:Eo.
    + cbn [pushAt]. reflexivity.
    + unfold readObjectPrototype. rewrite Hs, Hp. cbn [Obj.get].
      cbn [assignArray pushAt]. unfold subcategoriesOf. rewrite Ea, Eo.
      rewrite !get_set_same. cbn [app]. now rewrite !set_set.
  - cbn [read]. unfold subcategoriesOf at 1. rewrite get_set_same.
    cbn [Obj.get]. unfold readObjectPrototype. rewrite Hs, Hp.
    cbn [Obj.get assignArray pushAt]. unfold subcategoriesOf.
    rewrite Ea. rewrite !get_set_same. cbn [Obj.get Obj.set].
    rewrite String.eqb_refl. cbn [app]. now rewrite !set_set.
Qed.


Lemma functionArrays_set (realm : Realm.t) v (f : string) o :
  Realm.functionArrays (Realm.withOnFunction realm (Obj.set v f o)) f = o.
Proof.
  unfold Realm.functionArrays. cbn [Realm.onFunction Realm.withOnFunction].
  now rewrite get_set_same.
Qed.

Lemma withOnFunction_twice (realm : Realm.t) v v' :
  Realm.withOnFunction (Realm.withOnFunction realm v) v'
  = Realm.withOnFunction realm v'.
Proof. reflexivity. Qed.

Lemma storeRecord_get (acc : Grouped) (m : Metric) (c : string) :
  Obj.get (storeRecord acc m) c
  = if category m =? c
    then Some (Obj.set (subcategoriesOf acc (category m)) (subcategory m)
                 (match Obj.get (subcategoriesOf acc (category m))
                                (subcategory m) with
                  | Some a => a
                  | None => []
                  end ++ [m])%list)
    else Obj.get acc c.
Proof.
  unfold storeRecord. destruct (String.eqb_spec (category m) c) as [<-|Hc].
  - apply get_set_same.
  - now apply get_set_other.
Qed.

Lemma plainKeys_nil : plainKeys [].
Proof. split; [reflexivity | discriminate]. Qed.

Lemma plainKeys_store (acc : Grouped) (m : Metric) :
  ordinaryKeys m -> plainKeys acc -> plainKeys (storeRecord acc m).
Proof.
  intros [Hc Hs] [Hk Hk']. split.
  - intros c Hi. rewrite storeRecord_get.
    destruct (String.eqb_spec (category m) c) as [<-|_]; [congruence|].
    now apply Hk.
  - intros c subs s. rewrite storeRecord_get.
    destruct (String.eqb_spec (category m) c) as [<-|_].
    + intros H Hi. injection H as <-.
      rewrite get_set_other by congruence.
      unfold subcategoriesOf.
      destruct (Obj.get acc (category m)) as [o|] eqn:E; [|reflexivity].
      exact (Hk' _ _ s E Hi).
    + apply Hk'.
Qed.

(** What one turn does when [Object.prototype] is plain and the category
    is not [__proto__]: a record with an ordinary category is stored
    unless its subcategory names an inherited property; a record whose
    category names a built-in function leaves [acc] as it is and goes onto
    the function; in the other cases an exception is raised. *)
Lemma groupStep_plain (realm : Realm.t) (acc : Grouped) (m : Metric) :
  plainPrototype realm -> plainKeys acc -> category m <> "__proto__" ->
  groupStep realm acc m
  = if accepted realm m
    then Some (if stored m then storeRecord acc m else acc, divert realm m)
    else None.
Proof.
  intros Hp [Hk Hk'] Hn. unfold accepted, divert, stored.
  destruct (Obj.inherited (category m)) eqn:Hc; cbn [negb].
  - unfold groupStep, target. rewrite (Hk _ Hc), Hc.
    apply String.eqb_neq in Hn. rewrite Hn. cbn [read].
    unfold functionBucket.
    destruct (Obj.get (Realm.functionArrays realm (category m))
                (subcategory m)) as [a|] eqn:Ef.
    + cbn [pushAt]. now rewrite Ef.
    + destruct (Realm.functionHas realm (category m) (subcategory m));
        [reflexivity|].
      unfold readObjectPrototype.
      destruct (Obj.inherited (subcategory m)); [reflexivity|].
      rewrite Hp. cbn [Obj.get assignArray pushAt negb andb].
      rewrite functionArrays_set, withOnFunction_twice.
      cbn [Realm.onFunction Realm.withOnFunction].
      now rewrite get_set_same, !set_set.
  - destruct (Obj.inherited (subcategory m)) eqn:Hs; cbn [negb].
    + unfold groupStep, target.
      rewrite (inherited_proto _ Hc), Hc, Hp. cbn [Obj.get].
      destruct (Obj.get acc (category m)) as [o|] eqn:Ea; cbn [read];
        unfold subcategoriesOf.
      * rewrite Ea, (Hk' _ _ _ Ea Hs).
        unfold readObjectPrototype. now rewrite Hs.
      * rewrite get_set_same. cbn [Obj.get].
        unfold readObjectPrototype. now rewrite Hs.
    + apply groupStep_simpl; [exact Hp | now split].
Qed.

Lemma divert_plain (realm : Realm.t) (m : Metric) :
  plainPrototype realm -> plainPrototype (divert realm m).
Proof. unfold divert. now destruct (stored m). Qed.

Lemma functionBucket_divert (realm : Realm.t) (m : Metric) (f s : string) :
  functionBucket (divert realm m) f s
  = (functionBucket realm f s
     ++ if negb (stored m) && (category m =? f) && (subcategory m =? s)
        then [m] else [])%list.
Proof.
  unfold divert. destruct (stored m); cbn [negb andb];
    [now rewrite app_nil_r|].
  unfold functionBucket at 1. unfold Realm.functionArrays at 1.
  cbn [Realm.onFunction Realm.withOnFunction].
  destruct (String.eqb_spec (category m) f) as [<-|Hf]; cbn [andb].
  - rewrite get_set_same.
    destruct (String.eqb_spec (subcategory m) s) as [<-|Hs].
    + now rewrite get_set_same.
    + now rewrite (get_set_other _ _ _ _ Hs), app_nil_r.
  - now rewrite (get_set_other _ _ _ _ Hf), app_nil_r.
Qed.

(** A turn that raises no exception does not change what the later turns
    do. *)
Lemma accepted_divert (realm : Realm.t) (m m' : Metric) :
  accepted realm m = true ->
  accepted (divert realm m) m' = accepted realm m'.
Proof.
  intros Ha. unfold accepted at 1. unfold accepted at 1.
  destruct (stored m') eqn:Hs'; [reflexivity|].
  unfold divert. destruct (stored m) eqn:Hs; [reflexivity|].
  cbn [Realm.functionHas Realm.withOnFunction].
  unfold Realm.functionArrays at 1.
  cbn [Realm.onFunction Realm.withOnFunction].
  destruct (String.eqb_spec (category m) (category m')) as [Ec|Hf].
  - rewrite <- Ec. rewrite get_set_same.
    destruct (String.eqb_spec (subcategory m) (subcategory m')) as [Es|Hn].
    + rewrite <- Es, get_set_same.
      unfold accepted in Ha. rewrite Hs in Ha.
      destruct (Obj.get (Realm.functionArrays realm (category m))
                  (subcategory m)); [reflexivity | now rewrite Ha].
    + now rewrite (get_set_other _ _ _ _ Hn).
  - rewrite (get_set_other _ _ _ _ Hf). reflexivity.
Qed.

Lemma forallb_accepted_divert (realm : Realm.t) (m : Metric)
    (ms : list Metric) :
  accepted realm m = true ->
  forallb (accepted (divert realm m)) ms = forallb (accepted realm) ms.
Proof.
  intros Ha. induction ms as [|m' ms IH]; cbn; [reflexivity|].
  now rewrite IH, (accepted_divert _ _ _ Ha).
Qed.

Lemma ordinaryKeys_accepted (realm : Realm.t) (m : Metric) :
  ordinaryKeys m -> accepted realm m = true /\ divert realm m = realm.
Proof.
  intros [Hc Hs]. unfold accepted, divert, stored. now rewrite Hc, Hs.
Qed.

Lemma accepted_stored_ordinary (realm : Realm.t) (m : Metric) :
  accepted realm m = true -> stored m = true -> ordinaryKeys m.
Proof.
  unfold accepted. intros Ha Hs. rewrite Hs in Ha. unfold stored in Hs.
  split; [now apply negb_true_iff in Hs | now apply negb_true_iff in Ha].
Qed.

(** The whole [reduce] under the same conditions: unless a turn raises an
    exception, the result holds the records of ordinary category, stored
    one after the other, and the others have been diverted. *)
Lemma groupFrom_plain (ms : list Metric) :
  forall realm acc,
    plainPrototype realm -> plainKeys acc ->
    Forall (fun m => category m <> "__proto__") ms ->
    groupFrom realm acc ms
    = if forallb (accepted realm) ms
      then Some (fold_left storeRecord (filter stored ms) acc,
                 fold_left divert ms realm)
      else None.
Proof.
  induction ms as [|m ms IH]; intros realm acc Hp Hk Hn;
    cbn [groupFrom filter forallb fold_left]; [reflexivity|].
  inversion Hn as [|? ? Hm Hn']; subst.
  rewrite (groupStep_plain _ _ _ Hp Hk Hm).
  destruct (accepted realm m) eqn:Ha; cbn [andb]; [|reflexivity].
  rewrite <- (forallb_accepted_divert _ _ ms Ha).
  destruct (stored m) eqn:Hs.
  - apply (IH _ _ (divert_plain _ m Hp)); [|exact Hn'].
    apply plainKeys_store; [|exact Hk].
    exact (accepted_stored_ordinary _ _ Ha Hs).
  - cbn [fold_left]. apply (IH _ _ (divert_plain _ m Hp) Hk Hn').
Qed.

Lemma fold_divert_plain (ms : list Metric) :
  forall realm, plainPrototype realm -> plainPrototype (fold_left divert ms realm).
Proof.
  induction ms as [|m ms IH]; intros realm Hp; cbn [fold_left];
    [exact Hp | apply IH, divert_plain, Hp].
Qed.

Lemma functionBucket_fold (ms : list Metric) :
  forall realm f s,
    functionBucket (fold_left divert ms realm) f s
    = (functionBucket realm f s
       ++ filter (fun m => negb (stored m) && (category m =? f)
                           && (subcategory m =? s)) ms)%list.
Proof.
  induction ms as [|m ms IH]; intros realm f s; cbn [fold_left filter].
  - now rewrite app_nil_r.
  - rewrite IH, functionBucket_divert, <- app_assoc.
    now destruct (negb (stored m) && (category m =? f)
                  && (subcategory m =? s)).
Qed.

Lemma groupFrom_defined (ms : list Metric) :
  forall realm acc,
    plainPrototype realm -> Forall ordinaryKeys ms ->
    groupFrom realm acc ms = Some (fold_left storeRecord ms acc, realm).
Proof.
  induction ms as [|m ms IH]; intros realm acc Hp Ho; cbn [groupFrom].
  - reflexivity.
  - inversion Ho as [|? ? Hm Ho']; subst.
    rewrite (groupStep_simpl _ _ _ Hp Hm). now apply IH.
Qed.

Lemma bucket_store (acc : Grouped) (m : Metric) (c s : string) :
  bucket (storeRecord acc m) c s
  = (bucket acc c s
     ++ if (category m =? c) && (subcategory m =? s) then [m] else [])%list.
Proof.
  unfold bucket. rewrite storeRecord_get. unfold subcategoriesOf.
  destruct (String.eqb_spec (category m) c) as [<-|Hc]; cbn [andb].
  - destruct (String.eqb_spec (subcategory m) s) as [<-|Hs].
    + rewrite get_set_same.
      destruct (Obj.get acc (category m)) as [o|]; [|reflexivity].
      now destruct (Obj.get o (subcategory m)).
    + rewrite (get_set_other _ _ _ _ Hs), app_nil_r.
      now destruct (Obj.get acc (category m)).
  - now rewrite app_nil_r.
Qed.

Lemma bucket_fold (ms : list Metric) :
  forall acc c s,
    bucket (fold_left storeRecord ms acc) c s
    = (bucket acc c s
       ++ filter (fun m => (category m =? c) && (subcategory m =? s)) ms)%list.
Proof.
  induction ms as [|m ms IH]; intros acc c s; cbn [fold_left filter].
  - now rewrite app_nil_r.
  - rewrite IH, bucket_store, <- app_assoc.
    now destruct ((category m =? c) && (subcategory m =? s)).
Qed.

Lemma flatten_store (acc : Grouped) (m : Metric) :
  Permutation (flatten (storeRecord acc m)) (flatten acc ++ [m]).
Proof.
  unfold flatten, storeRecord.
  set (subs := subcategoriesOf acc (category m)).
  set (arr := match Obj.get subs (subcategory m) with
              | Some a => a | None => [] end).
  apply (flat_map_set (fun o => flat_map snd o) acc (category m) _ subs).
  - unfold subs, subcategoriesOf.
    destruct (Obj.get acc (category m)); [now left | now right].
  - apply (flat_map_set (fun a => a) subs (subcategory m) _ arr).
    + unfold arr.
      destruct (Obj.get subs (subcategory m)); [now left | now right].
    + reflexivity.
Qed.

Lemma flatten_fold (ms : list Metric) :
  forall acc,
    Permutation (flatten (fold_left storeRecord ms acc)) (flatten acc ++ ms).
Proof.
  induction ms as [|m ms IH]; intros acc; cbn [fold_left].
  - now rewrite app_nil_r.
  - rewrite IH, flatten_store. now rewrite <- app_assoc.
Qed.

Lemma noEmptyGroup_store (acc : Grouped) (m : Metric) :
  noEmptyGroup acc -> noEmptyGroup (storeRecord acc m).
Proof.
  intros Hw. unfold noEmptyGroup, storeRecord in *.
  apply (Forall_set
           (fun subs => subs <> [] /\ Forall (fun e' => snd e' <> []) subs));
    [exact Hw|].
  split; [apply set_not_nil|].
  apply (Forall_set (fun l : list Metric => l <> [])).
  - unfold subcategoriesOf.
    destruct (Obj.get acc (category m)) as [o|] eqn:E; [|constructor].
    apply get_Some_In in E. rewrite Forall_forall in Hw.
    now destruct (Hw _ E).
  - now destruct (match Obj.get _ (subcategory m) with
                  | Some a => a | None => [] end).
Qed.

Lemma noEmptyGroup_fold (ms : list Metric) :
  forall acc, noEmptyGroup acc -> noEmptyGroup (fold_left storeRecord ms acc).
Proof.
  induction ms as [|m ms IH]; intros acc Hw; cbn [fold_left]; [exact Hw|].
  apply IH, noEmptyGroup_store, Hw.
Qed.

Lemma keys_store (acc : Grouped) (m : Metric) :
  map fst (storeRecord acc m)
  = if existsb (String.eqb (category m)) (map fst acc) then map fst acc
    else (map fst acc ++ [category m])%list.
Proof. apply keys_set. Qed.

Lemma keys_fold (ms : list Metric) :
  forall acc,
    map fst (fold_left storeRecord ms acc)
    = (map fst acc
       ++ firstOccurrencesFrom (map fst acc) (map category ms))%list.
Proof.
  induction ms as [|m ms IH]; intros acc; cbn [fold_left map].
  - cbn. now rewrite app_nil_r.
  - rewrite IH, keys_store. cbn [firstOccurrencesFrom].
    destruct (existsb (String.eqb (category m)) (map fst acc));
      [reflexivity|].
    now rewrite <- app_assoc.
Qed.

End Grouping.

Section GroupedViews.

Lemma entries_flatten {B : Type} (K : string * list Metric -> list B)
    (g : Grouped) :
  Permutation
    (flat_map (fun e => flat_map K (Obj.entries (snd e))) (Obj.entries g))
    (flat_map (fun e => flat_map K (snd e)) g).
Proof.
  transitivity (flat_map (fun e => flat_map K (Obj.entries (snd e))) g).
  - apply flat_map_perm, entries_perm.
  - apply flat_map_pointwise_perm. intros e.
    apply flat_map_perm, entries_perm.
Qed.

Lemma entries_noEmptyGroup (g : Grouped) :
  noEmptyGroup g ->
  Forall (fun e => Obj.entries (snd e) <> [] /\
                   Forall (fun e' => snd e' <> []) (Obj.entries (snd e)))
         (Obj.entries g).
Proof.
  intros Hw. apply Forall_forall. intros e He.
  apply (Permutation_in _ (entries_perm g)) in He.
  unfold noEmptyGroup in Hw. rewrite Forall_forall in Hw.
  destruct (Hw _ He) as [Hn Hf]. split.
  - intros H. apply Hn. apply Permutation_nil.
    rewrite <- H. apply entries_perm.
  - apply Forall_forall. intros e' He'.
    apply (Permutation_in _ (entries_perm (snd e))) in He'.
    rewrite Forall_forall in Hf. now apply Hf.
Qed.

Lemma fold_left_lengths {A : Type} (ls : list (list A)) (z : Z) :
  fold_left (fun sum ms => (sum + Z.of_nat (List.length ms))%Z) ls z
  = (z + Z.of_nat (List.length (concat ls)))%Z.
Proof.
  revert z. induction ls as [|l ls IH]; intros z; cbn.
  - lia.
  - rewrite IH, length_app. lia.
Qed.

Lemma zsum_lengths {A B : Type} (f : A -> list B) (l : list A) :
  zsum (map (fun x => Z.of_nat (List.length (f x))) l)
  = Z.of_nat (List.length (flat_map f l)).
Proof.
  induction l as [|x l IH]; cbn; [reflexivity|].
  rewrite length_app. unfold zsum in IH. rewrite IH. lia.
Qed.

Lemma length_flat_map_nonempty {A B : Type} (f : A -> list B)
    (l : list A) :
  Forall (fun x => f x <> []) l ->
  List.length l <= List.length (flat_map f l).
Proof.
  induction 1 as [|x l Hx _ IH]; cbn; [lia|].
  rewrite length_app. destruct (f x); [contradiction | cbn; lia].
Qed.

Lemma named_keys (g : Grouped) :
  map fst (filter Obj.isNamed g)
  = filter (fun k => match Obj.arrayIndex k with
                     | Some _ => false | None => true end)
           (map fst g).
Proof.
  induction g as [|e g IH]; cbn; [reflexivity|].
  unfold Obj.isNamed at 1.
  destruct (Obj.arrayIndex (fst e)); cbn; now rewrite IH.
Qed.

End GroupedViews.

Section PlainResults.

Lemma plainKeys_fold (ms : list Metric) :
  forall acc,
    Forall ordinaryKeys ms -> plainKeys acc ->
    plainKeys (fold_left storeRecord ms acc).
Proof.
  induction ms as [|m ms IH]; intros acc Ho Hk; cbn [fold_left]; [exact Hk|].
  inversion Ho as [|? ? Hm Ho']; subst.
  apply IH; [exact Ho' | now apply plainKeys_store].
Qed.

Lemma accepted_stored (realm : Realm.t) (ms : list Metric) :
  forallb (accepted realm) ms = true -> Forall ordinaryKeys (filter stored ms).
Proof.
  induction ms as [|m ms IH]; cbn [forallb filter]; [constructor|].
  intros H. apply andb_true_iff in H as [Ha Hr].
  destruct (stored m) eqn:Hs; [|now apply IH].
  constructor; [exact (accepted_stored_ordinary _ _ Ha Hs) | now apply IH].
Qed.

(** What [groupMetrics] returns when [Object.prototype] is plain and no
    category is [__proto__]. *)
Lemma groupMetrics_plain (realm realm' : Realm.t) (ms : list Metric)
    (g : Grouped) :
  plainPrototype realm ->
  Forall (fun m => category m <> "__proto__") ms ->
  groupMetrics realm ms = Some (g, realm') ->
  forallb (accepted realm) ms = true /\
  g = fold_left storeRecord (filter stored ms) [] /\
  realm' = fold_left divert ms realm.
Proof.
  intros Hp Hn H. unfold groupMetrics in H.
  rewrite (groupFrom_plain ms realm [] Hp plainKeys_nil Hn) in H.
  destruct (forallb (accepted realm) ms); [|discriminate].
  injection H as <- <-. now repeat split.
Qed.

Lemma groupMetrics_ordinary (realm : Realm.t) (ms : list Metric) :
  plainPrototype realm -> Forall ordinaryKeys ms ->
  groupMetrics realm ms = Some (fold_left storeRecord ms [], realm).
Proof. intros Hp Ho. now apply groupFrom_defined. Qed.

Lemma noEmptyGroup_get (g : Grouped) (c : string)
    (subs : list (string * list Metric)) :
  noEmptyGroup g -> Obj.get g c = Some subs ->
  subs <> [] /\ forall s l, Obj.get subs s = Some l -> l <> [].
Proof.
  intros Hw Hc. unfold noEmptyGroup in Hw. rewrite Forall_forall in Hw.
  destruct (Hw _ (get_Some_In _ _ _ Hc)) as [Hn Hf]. split; [exact Hn|].
  intros s l Hs. rewrite Forall_forall in Hf.
  exact (Hf _ (get_Some_In _ _ _ Hs)).
Qed.

Lemma filter_filter {A : Type} (p q : A -> bool) (l : list A) :
  filter p (filter q l) = filter (fun x => q x && p x) l.
Proof.
  induction l as [|x l IH]; cbn; [reflexivity|].
  destruct (q x); cbn; [destruct (p x)|]; now rewrite IH.
Qed.

End PlainResults.

(** X9.  When no category and no subcategory names an inherited property,
    [groupMetrics], called while [Object.prototype] is plain, returns an
    object that holds, under every category and subcategory, exactly the
    records that carry them, in the order of the input; a category or a
    subcategory is a key only if a record has it.  The built-in objects
    are left as they are. *)
Theorem groupMetrics_buckets :
  forall (realm : Realm.t) (ms : list Metric),
    plainPrototype realm ->
    Forall ordinaryKeys ms ->
    exists g,
      groupMetrics realm ms = Some (g, realm) /\
      (forall c s,
          bucket g c s
          = filter (fun m => (category m =? c) && (subcategory m =? s)) ms) /\
      (forall c subs,
          Obj.get g c = Some subs ->
          subs <> [] /\
          forall s l, Obj.get subs s = Some l -> l <> []).
Proof.
  intros realm ms Hp Ho. exists (fold_left storeRecord ms []).
  split; [exact (groupMetrics_ordinary realm ms Hp Ho)|]. split.
  - intros c s. now rewrite bucket_fold.
  - intros c subs. apply noEmptyGroup_get, noEmptyGroup_fold. constructor.
Qed.

Lemma groupMetrics_buckets_witness :
  exists g,
    groupMetrics Realm.ecmaScript2024
      [ {| name := "spend"; category := "Costs"; subcategory := "General";
           type := "number"; description := ""; commentary := "";
           deprecationStatus := active |} ]
    = Some (g, Realm.ecmaScript2024) /\
    (forall c s,
        bucket g c s
        = filter (fun m => (category m =? c) && (subcategory m =? s))
            [ {| name := "spend"; category := "Costs";
                 subcategory := "General"; type := "number";
                 description := ""; commentary := "";
                 deprecationStatus := active |} ]) /\
    (forall c subs,
        Obj.get g c = Some subs ->
        subs <> [] /\ forall s l, Obj.get subs s = Some l -> l <> []).
Proof.
  apply groupMetrics_buckets; [reflexivity | repeat constructor].
Defined.

(** X20.  A record whose category is the name of a built-in function that
    every object inherits, as [constructor] or [toString], never reaches
    the result of [groupMetrics]: [acc[metric.category]] is that function,
    and the record goes to the end of an array that the callback creates
    on the function, under the record's subcategory.  With a plain
    [Object.prototype] and no category [__proto__], [groupMetrics] returns
    if and only if every record is accepted: the subcategory names no
    inherited property and, on a function, no property the function has
    unless the callback made it.  The result then holds exactly the
    records of the other categories, bucket by bucket in the order of the
    input, and has no key that names an inherited property; the records
    left out are on the functions, and [Object.prototype] is still
    plain. *)
Theorem groupMetrics_diverts_inherited_categories :
  forall (realm : Realm.t) (ms : list Metric),
    plainPrototype realm ->
    Forall (fun m => category m <> "__proto__") ms ->
    (groupMetrics realm ms <> None <->
     Forall (fun m => accepted realm m = true) ms) /\
    (forall g realm',
        groupMetrics realm ms = Some (g, realm') ->
        (forall c s,
            bucket g c s
            = filter (fun m => stored m && (category m =? c)
                               && (subcategory m =? s)) ms) /\
        (forall c, Obj.inherited c = true -> Obj.get g c = None) /\
        (forall f s,
            functionBucket realm' f s
            = (functionBucket realm f s
               ++ filter (fun m => negb (stored m) && (category m =? f)
                                   && (subcategory m =? s)) ms)%list) /\
        plainPrototype realm').
Proof.
  intros realm ms Hp Hn. split.
  - unfold groupMetrics.
    rewrite (groupFrom_plain ms realm [] Hp plainKeys_nil Hn).
    destruct (forallb (accepted realm) ms) eqn:E; split.
    + intros _. apply Forall_forall. now apply forallb_forall.
    + discriminate.
    + intros H. now contradiction H.
    + intros H. rewrite Forall_forall, <- forallb_forall in H. congruence.
  - intros g realm' H.
    destruct (groupMetrics_plain _ _ _ _ Hp Hn H) as (Ha & -> & ->).
    repeat split.
    + intros c s. rewrite bucket_fold. cbn [bucket Obj.get app].
      rewrite filter_filter. apply filter_ext. intros m.
      now rewrite andb_assoc.
    + intros c Hc.
      exact (proj1 (plainKeys_fold _ [] (accepted_stored _ _ Ha) plainKeys_nil)
               c Hc).
    + intros f s. apply functionBucket_fold.
    + now apply fold_divert_plain.
Qed.

Lemma groupMetrics_diverts_inherited_categories_witness :
  Forall (fun m => accepted Realm.ecmaScript2024 m = true)
    [ {| name := "a"; category := "Costs"; subcategory := "Basic";
         type := "number"; description := ""; commentary := "";
         deprecationStatus := active |};
      {| name := "b"; category := "toString"; subcategory := "General";
         type := "number"; description := ""; commentary := "";
         deprecationStatus := deprecated |} ].
Proof.
  apply (proj1 (proj1 (groupMetrics_diverts_inherited_categories
           Realm.ecmaScript2024
           [ {| name := "a"; category := "Costs"; subcategory := "Basic";
                type := "number"; description := ""; commentary := "";
                deprecationStatus := active |};
             {| name := "b"; category := "toString";
                subcategory := "General"; type := "number";
                description := ""; commentary := "";
                deprecationStatus := deprecated |} ]
           eq_refl
           ltac:(repeat constructor; discriminate)))).
  vm_compute. discriminate.
Defined.

Lemma optionGroupsOf_values (g : Grouped) :
  Permutation (offered (optionGroupsOf g)) (map name (flatten g)).
Proof.
  unfold offered, optionGroupsOf. rewrite flat_map_of_flat_map.
  rewrite (flat_map_ext _
             (fun e => flat_map (fun e' => map name (snd e'))
                                (Obj.entries (snd e)))).
  2:{ intros e. rewrite flat_map_of_map. apply flat_map_ext. intros e'.
      cbn. rewrite map_map. apply map_ext. reflexivity. }
  rewrite (entries_flatten (fun e' => map name (snd e')) g).
  unfold flatten. rewrite map_of_flat_map.
  erewrite flat_map_ext; [reflexivity|].
  intros e. cbn. now rewrite map_of_flat_map.
Qed.

Lemma optionGroupsOf_not_empty (g : Grouped) :
  noEmptyGroup g -> Forall (fun grp => options grp <> []) (optionGroupsOf g).
Proof.
  intros Hw. apply entries_noEmptyGroup in Hw. rewrite Forall_forall in Hw.
  apply Forall_forall. intros grp Hin. unfold optionGroupsOf in Hin.
  apply in_flat_map in Hin as (e & He & Hin).
  apply in_map_iff in Hin as (e' & <- & He'). cbn.
  destruct (Hw _ He) as [_ Hf]. rewrite Forall_forall in Hf.
  specialize (Hf _ He'). now destruct (snd e').
Qed.

Lemma offered_plain (ms : list Metric) :
  Permutation (offered (optionGroupsOf (fold_left storeRecord ms [])))
              (map name ms) /\
  Forall (fun grp => options grp <> [])
         (optionGroupsOf (fold_left storeRecord ms [])).
Proof.
  split.
  - rewrite optionGroupsOf_values. apply Permutation_map.
    exact (flatten_fold ms []).
  - apply optionGroupsOf_not_empty, noEmptyGroup_fold. constructor.
Qed.

(** X10.  With a plain [Object.prototype] and no category [__proto__],
    [formatAsOptionGroups] offers once every record whose category names
    no inherited property, and no other record: the values of the options
    of all groups are the names of those records, up to order, and no
    group is without option.  A record under [constructor] or [toString]
    is offered nowhere.  When every category and subcategory is ordinary
    the call returns and every record is offered once. *)
Theorem formatAsOptionGroups_each_metric_once :
  forall (realm : Realm.t) (ms : list Metric),
    plainPrototype realm ->
    Forall (fun m => category m <> "__proto__") ms ->
    (forall groups realm',
        formatAsOptionGroups realm ms = Some (groups, realm') ->
        Permutation (offered groups) (map name (filter stored ms)) /\
        Forall (fun grp => options grp <> []) groups) /\
    (Forall ordinaryKeys ms ->
     exists groups,
       formatAsOptionGroups realm ms = Some (groups, realm) /\
       Permutation (offered groups) (map name ms)).
Proof.
  intros realm ms Hp Hn. split.
  - intros groups realm' H. unfold formatAsOptionGroups in H.
    destruct (groupMetrics realm ms) as [[g r]|] eqn:Hg; [|discriminate].
    injection H as <- <-.
    destruct (groupMetrics_plain _ _ _ _ Hp Hn Hg) as (_ & -> & _).
    apply offered_plain.
  - intros Ho. exists (optionGroupsOf (fold_left storeRecord ms [])). split.
    + unfold formatAsOptionGroups.
      now rewrite (groupMetrics_ordinary realm ms Hp Ho).
    + apply offered_plain.
Qed.

Lemma formatAsOptionGroups_each_metric_once_witness :
  Permutation
    (offered
       [ {| groupLabel := "2";
            options := [ {| label := "b - Second"; value := "b" |} ] |};
         {| groupLabel := "Costs - Basic";
            options := [ {| label := "a"; value := "a" |} ] |} ])
    (map name
       (filter stored
          [ {| name := "a"; category := "Costs"; subcategory := "Basic";
               type := "number"; description := ""; commentary := "";
               deprecationStatus := active |};
            {| name := "lost"; category := "constructor";
               subcategory := "General"; type := "number";
               description := ""; commentary := "";
               deprecationStatus := active |};
            {| name := "b"; category := "2"; subcategory := "General";
               type := "number"; description := "Second"; commentary := "";
               deprecationStatus := deprecated |} ])).
Proof.
  apply (proj1 (formatAsOptionGroups_each_metric_once
           Realm.ecmaScript2024
           [ {| name := "a"; category := "Costs"; subcategory := "Basic";
                type := "number"; description := ""; commentary := "";
                deprecationStatus := active |};
             {| name := "lost"; category := "constructor";
                subcategory := "General"; type := "number";
                description := ""; commentary := "";
                deprecationStatus := active |};
             {| name := "b"; category := "2"; subcategory := "General";
                type := "number"; description := "Second"; commentary := "";
                deprecationStatus := deprecated |} ]
           eq_refl
           ltac:(repeat constructor; discriminate))
         _
         (divert Realm.ecmaScript2024
            {| name := "lost"; category := "constructor";
               subcategory := "General"; type := "number";
               description := ""; commentary := "";
               deprecationStatus := active |})).
  vm_compute. reflexivity.
Defined.

Lemma statistics_plain (ms : list Metric) :
  let g := fold_left storeRecord ms [] in
  let byCategory :=
    map (fun e : string * list (string * list Metric) =>
           {| statCategory := fst e;
              count :=
                fold_left
                  (fun sum l => (sum + Z.of_nat (List.length l))%Z)
                  (Obj.values (snd e)) 0%Z;
              subcategories :=
                Z.of_nat (List.length (Obj.keys (snd e))) |})
        (Obj.entries g) in
  zsum (map count byCategory) = Z.of_nat (List.length ms) /\
  Z.of_nat (List.length (Obj.keys g)) = Z.of_nat (List.length byCategory) /\
  Forall (fun cs => (1 <= subcategories cs <= count cs)%Z) byCategory.
Proof.
  intros g byCategory. subst byCategory.
  assert (Hc : forall e : string * list (string * list Metric),
             fold_left (fun sum l => (sum + Z.of_nat (List.length l))%Z)
                       (Obj.values (snd e)) 0%Z
             = Z.of_nat (List.length (flat_map snd (Obj.entries (snd e))))).
  { intros e. rewrite fold_left_lengths. unfold Obj.values.
    now rewrite <- flat_map_concat_map. }
  repeat split.
  - rewrite map_map. cbn.
    rewrite (map_ext _ (fun e => Z.of_nat (List.length
                          (flat_map snd (Obj.entries (snd e)))))) by exact Hc.
    rewrite zsum_lengths.
    rewrite (Permutation_length (entries_flatten snd g)).
    fold (flatten g). subst g.
    rewrite (Permutation_length (flatten_fold ms [])). reflexivity.
  - unfold Obj.keys. now rewrite !length_map.
  - assert (Hw : noEmptyGroup g)
      by (apply noEmptyGroup_fold; constructor).
    apply entries_noEmptyGroup in Hw. rewrite Forall_forall in Hw.
    apply Forall_forall. intros cs Hin.
    apply in_map_iff in Hin as (e & <- & He). cbn. rewrite Hc.
    destruct (Hw _ He) as [Hn Hf]. unfold Obj.keys. rewrite length_map.
    pose proof (length_flat_map_nonempty snd _ Hf).
    destruct (Obj.entries (snd e)); [contradiction | cbn in *; lia].
Qed.

(** X12.  The statistics of the report, with a plain [Object.prototype] and
    no category [__proto__]: active and deprecated records make the
    total, the active ones are those that [exportActiveMetrics] keeps,
    there is one entry by category, and every category has at least one
    subcategory and at least as many records as subcategories.  The counts
    by category sum to the number of records whose category names no
    inherited property, which is below the total when a category is
    [constructor] or [toString]; they sum to the total when every category
    and subcategory is ordinary, and then the call returns. *)
Theorem formatOutputStatistics_add_up :
  forall (realm : Realm.t) (ms : list Metric),
    plainPrototype realm ->
    Forall (fun m => category m <> "__proto__") ms ->
    (forall st realm',
        formatOutputStatistics realm ms = Some (st, realm') ->
        totalMetrics st = Z.of_nat (List.length ms) /\
        (activeMetrics st + deprecatedMetrics st)%Z = totalMetrics st /\
        activeMetrics st = Z.of_nat (List.length (exportActiveMetrics ms)) /\
        zsum (map count (byCategory st))
        = Z.of_nat (List.length (filter stored ms)) /\
        categoriesCount st = Z.of_nat (List.length (byCategory st)) /\
        Forall (fun cs => (1 <= subcategories cs <= count cs)%Z)
               (byCategory st)) /\
    (Forall ordinaryKeys ms ->
     exists st,
       formatOutputStatistics realm ms = Some (st, realm) /\
       zsum (map count (byCategory st)) = totalMetrics st).
Proof.
  intros realm ms Hp Hn. split.
  - intros st realm' H. unfold formatOutputStatistics in H.
    destruct (groupMetrics realm ms) as [[g r]|] eqn:Hg; [|discriminate].
    injection H as <- <-. cbn.
    destruct (groupMetrics_plain _ _ _ _ Hp Hn Hg) as (_ & -> & _).
    destruct (statistics_plain (filter stored ms)) as (H1 & H2 & H3).
    repeat split; try assumption.
    + lia.
    + unfold exportActiveMetrics.
      pose proof (filter_length (fun m => isActive (deprecationStatus m)) ms).
      lia.
  - intros Ho. unfold formatOutputStatistics.
    rewrite (groupMetrics_ordinary realm ms Hp Ho).
    eexists. split; [reflexivity|]. cbn.
    exact (proj1 (statistics_plain ms)).
Qed.

Lemma formatOutputStatistics_add_up_witness :
  zsum (map count
          [ {| statCategory := "2"; count := 1; subcategories := 1 |};
            {| statCategory := "Costs"; count := 2; subcategories := 2 |} ])
  = Z.of_nat
      (List.length
         (filter stored
            [ {| name := "a"; category := "Costs"; subcategory := "Basic";
                 type := "number"; description := ""; commentary := "";
                 deprecationStatus := active |};
              {| name := "b"; category := "2"; subcategory := "General";
                 type := "number"; description := "Second";
                 commentary := ""; deprecationStatus := deprecated |};
              {| name := "lost"; category := "toString";
                 subcategory := "General"; type := "number";
                 description := ""; commentary := "";
                 deprecationStatus := active |};
              {| name := "c"; category := "Costs"; subcategory := "Other";
                 type := "number"; description := ""; commentary := "";
                 deprecationStatus := to_be_deprecated |} ])).
Proof.
  apply (proj1 (formatOutputStatistics_add_up
           Realm.ecmaScript2024
           [ {| name := "a"; category := "Costs"; subcategory := "Basic";
                type := "number"; description := ""; commentary := "";
                deprecationStatus := active |};
             {| name := "b"; category := "2"; subcategory := "General";
                type := "number"; description := "Second"; commentary := "";
                deprecationStatus := deprecated |};
             {| name := "lost"; category := "toString";
                subcategory := "General"; type := "number";
                description := ""; commentary := "";
                deprecationStatus := active |};
             {| name := "c"; category := "Costs"; subcategory := "Other";
                type := "number"; description := ""; commentary := "";
                deprecationStatus := to_be_deprecated |} ]
           eq_refl
           ltac:(repeat constructor; discriminate))
         {| totalMetrics := 4; activeMetrics := 2; deprecatedMetrics := 2;
            categoriesCount := 2;
            byCategory :=
              [ {| statCategory := "2"; count := 1; subcategories := 1 |};
                {| statCategory := "Costs"; count := 2;
                   subcategories := 2 |} ] |}
         (divert Realm.ecmaScript2024
            {| name := "lost"; category := "toString";
               subcategory := "General"; type := "number";
               description := ""; commentary := "";
               deprecationStatus := active |})).
  vm_compute. reflexivity.
Defined.

Lemma firstOccurrencesFrom_incl (seen l : list string) (x : string) :
  In x (firstOccurrencesFrom seen l) -> In x l.
Proof.
  revert seen. induction l as [|y l IH]; intros seen; cbn; [trivial|].
  destruct (existsb (String.eqb y) seen).
  - intros Hx. right. eapply IH. exact Hx.
  - intros [Hx|Hx]; [now left | right; eapply IH; exact Hx].
Qed.

Lemma index_keys (g : Grouped) :
  map fst (filter (fun e => negb (Obj.isNamed e)) g)
  = filter (fun k => match Obj.arrayIndex k with
                     | Some _ => true | None => false end)
           (map fst g).
Proof.
  induction g as [|e g IH]; cbn; [reflexivity|].
  unfold Obj.isNamed at 1.
  destruct (Obj.arrayIndex (fst e)); cbn; now rewrite IH.
Qed.

Lemma categories_plain (ms : list Metric) :
  let named := fun k => match Obj.arrayIndex k with
                        | Some _ => false
                        | None => true
                        end in
  let listed := map (fun e : string * list (string * list Metric) => fst e)
                    (Obj.entries (fold_left storeRecord ms [])) in
  (exists indices,
      listed
      = (indices ++ filter named (firstOccurrences (map category ms)))%list /\
      Permutation indices
        (filter (fun k => negb (named k))
                (firstOccurrences (map category ms)))) /\
  (Forall (fun m => named (category m) = true) ms ->
   listed = firstOccurrences (map category ms)).
Proof.
  intros named listed. subst listed.
  set (g := fold_left storeRecord ms []).
  pose proof (keys_fold ms []) as Hk. cbn in Hk.
  fold (firstOccurrences (map category ms)) in Hk. fold g in Hk.
  assert (He : map (fun e : string * list (string * list Metric) => fst e)
                   (Obj.entries g)
               = (map (fun ne => fst (snd ne)) (Obj.indexed g)
                  ++ filter named (firstOccurrences (map category ms)))%list).
  { unfold Obj.entries. rewrite map_app, map_map, named_keys, Hk.
    reflexivity. }
  split.
  - exists (map (fun ne => fst (snd ne)) (Obj.indexed g)).
    split; [exact He|].
    rewrite <- (map_map snd fst).
    rewrite (Permutation_map fst (indexed_perm g)), index_keys, Hk.
    erewrite filter_ext; [reflexivity|].
    intros k. unfold named. now destruct (Obj.arrayIndex k).
  - intros Hn. rewrite He.
    assert (Hall : Forall (fun e : string * list (string * list Metric) =>
                             named (fst e) = true) g).
    { apply Forall_forall. intros e Hin.
      assert (Hin' : In (fst e) (map fst g)) by now apply in_map.
      rewrite Hk in Hin'. apply firstOccurrencesFrom_incl in Hin'.
      apply in_map_iff in Hin' as (m & <- & Hm).
      rewrite Forall_forall in Hn. now apply Hn. }
    assert (Hi : Obj.indexed g = []).
    { clear -Hall. induction Hall as [|e g He _ IH]; cbn; [reflexivity|].
      unfold named in He. now destruct (Obj.arrayIndex (fst e)). }
    rewrite Hi. cbn [map app]. rewrite <- Hk.
    clear -Hall. induction Hall as [|e g He _ IH]; cbn; [reflexivity|].
    rewrite He. cbn. now rewrite IH.
Qed.

(** X13.  The categories of the report, with a plain [Object.prototype] and
    no category [__proto__], are the categories that name no inherited
    property, each listed once: first those that are array indices, such
    as [2024], then the others in the order in which the records first
    bring them.  A category such as [constructor] is not listed.  When
    every category and subcategory is ordinary the call returns and every
    category is listed. *)
Theorem categories_in_order_of_first_appearance :
  forall (realm : Realm.t) (ms : list Metric),
    plainPrototype realm ->
    Forall (fun m => category m <> "__proto__") ms ->
    let named := fun k => match Obj.arrayIndex k with
                          | Some _ => false
                          | None => true
                          end in
    (forall st realm',
        formatOutputStatistics realm ms = Some (st, realm') ->
        let first := firstOccurrences (map category (filter stored ms)) in
        (exists indices,
            map statCategory (byCategory st)
            = (indices ++ filter named first)%list /\
            Permutation indices (filter (fun k => negb (named k)) first)) /\
        (Forall (fun m => named (category m) = true) ms ->
         map statCategory (byCategory st) = first)) /\
    (Forall ordinaryKeys ms ->
     exists st indices,
       let first := firstOccurrences (map category ms) in
       formatOutputStatistics realm ms = Some (st, realm) /\
       map statCategory (byCategory st)
       = (indices ++ filter named first)%list /\
       Permutation indices (filter (fun k => negb (named k)) first)).
Proof.
  intros realm ms Hp Hn named. split.
  - intros st realm' H first. unfold formatOutputStatistics in H.
    destruct (groupMetrics realm ms) as [[g r]|] eqn:Hg; [|discriminate].
    injection H as <- <-. cbn [byCategory]. rewrite map_map.
    cbn [statCategory].
    destruct (groupMetrics_plain _ _ _ _ Hp Hn Hg) as (_ & -> & _).
    destruct (categories_plain (filter stored ms)) as [H1 H2].
    split; [exact H1|]. intros Hall. apply H2.
    apply Forall_forall. intros m Hm. apply filter_In in Hm as [Hm _].
    rewrite Forall_forall in Hall. now apply Hall.
  - intros Ho. unfold formatOutputStatistics.
    rewrite (groupMetrics_ordinary realm ms Hp Ho).
    destruct (proj1 (categories_plain ms)) as (indices & H1 & H2).
    eexists. exists indices. cbv zeta. split; [reflexivity|].
    cbn [byCategory]. rewrite map_map. cbn [statCategory].
    now split.
Qed.

Lemma categories_in_order_of_first_appearance_witness :
  map statCategory
    [ {| statCategory := "Costs"; count := 2; subcategories := 2 |};
      {| statCategory := "Reach"; count := 1; subcategories := 1 |} ]
  = firstOccurrences
      (map category
         (filter stored
            [ {| name := "a"; category := "Costs"; subcategory := "Basic";
                 type := "number"; description := ""; commentary := "";
                 deprecationStatus := active |};
              {| name := "lost"; category := "valueOf";
                 subcategory := "General"; type := "number";
                 description := ""; commentary := "";
                 deprecationStatus := active |};
              {| name := "b"; category := "Reach"; subcategory := "General";
                 type := "number"; description := ""; commentary := "";
                 deprecationStatus := deprecated |};
              {| name := "c"; category := "Costs"; subcategory := "Other";
                 type := "number"; description := ""; commentary := "";
                 deprecationStatus := active |} ])).
Proof.
  apply (proj2 (proj1 (categories_in_order_of_first_appearance
           Realm.ecmaScript2024
           [ {| name := "a"; category := "Costs"; subcategory := "Basic";
                type := "number"; description := ""; commentary := "";
                deprecationStatus := active |};
             {| name := "lost"; category := "valueOf";
                subcategory := "General"; type := "number";
                description := ""; commentary := "";
                deprecationStatus := active |};
             {| name := "b"; category := "Reach"; subcategory := "General";
                type := "number"; description := ""; commentary := "";
                deprecationStatus := deprecated |};
             {| name := "c"; category := "Costs"; subcategory := "Other";
                type := "number"; description := ""; commentary := "";
                deprecationStatus := active |} ]
           eq_refl
           ltac:(repeat constructor; discriminate))
         {| totalMetrics := 4; activeMetrics := 3; deprecatedMetrics := 1;
            categoriesCount := 2;
            byCategory :=
              [ {| statCategory := "Costs"; count := 2;
                   subcategories := 2 |};
                {| statCategory := "Reach"; count := 1;
                   subcategories := 1 |} ] |}
         (divert Realm.ecmaScript2024
            {| name := "lost"; category := "valueOf";
               subcategory := "General"; type := "number";
               description := ""; commentary := "";
               deprecationStatus := active |})
         ltac:(vm_compute; reflexivity))).
  repeat constructor.
Defined.

(** X21.  A record whose category is [__proto__] makes the callback create
    its array on [Object.prototype] itself, where every object inherits
    it.  A later record with the same subcategory and an ordinary category
    then finds that array under its subcategory and is pushed onto it:
    [groupMetrics] returns an object in which the category of the second
    record is an empty object, the two records are on [Object.prototype],
    and [formatAsOptionGroups] offers neither. *)
Theorem prototype_category_reaches_every_object :
  forall (realm : Realm.t) (m1 m2 : Metric),
    plainPrototype realm ->
    category m1 = "__proto__" ->
    Obj.inherited (subcategory m1) = false ->
    Obj.inherited (category m2) = false ->
    category m2 <> subcategory m1 ->
    subcategory m2 = subcategory m1 ->
    let realm' :=
      Realm.withOnObjectPrototype realm
        [ (subcategory m1,
           {| Realm.arrayLength := 2;
              Realm.atIndex :=
                [ (0%N, Realm.pushed m1); (1%N, Realm.pushed m2) ];
              Realm.atName := [] |}) ] in
    groupMetrics realm [m1; m2] = Some ([(category m2, [])], realm') /\
    formatAsOptionGroups realm [m1; m2] = Some ([], realm').
Proof.
  intros realm m1 m2 Hp Hc1 Hs1 Hc2 Hne Hs2 realm'.
  assert (Hg : groupMetrics realm [m1; m2]
               = Some ([(category m2, [])], realm')).
  { unfold plainPrototype in Hp.
    assert (E : (subcategory m1 =? category m2) = false).
    { apply String.eqb_neq. congruence. }
    assert (S1 : groupStep realm [] m1
                 = Some ([],
                         Realm.withOnObjectPrototype realm
                           [ (subcategory m1,
                              {| Realm.arrayLength := 1;
                                 Realm.atIndex := [ (0%N, Realm.pushed m1) ];
                                 Realm.atName := [] |}) ])).
    { unfold groupStep, target. cbn [Obj.get]. rewrite Hc1.
      cbn [String.eqb Ascii.eqb Bool.eqb read]. unfold readObjectPrototype.
      rewrite Hs1, Hp. cbn [Obj.get assignArray pushAt Obj.set].
      unfold Realm.inheritedArray.
      cbn [Realm.onObjectPrototype Realm.withOnObjectPrototype Obj.get].
      rewrite get_set_same.
      cbn [Realm.push Realm.arrayLength Realm.emptyArray N.eqb Realm.atIndex
           Realm.atName Realm.setIndex N.add].
      rewrite set_set, Hp. reflexivity. }
    unfold groupMetrics. cbn [groupFrom]. rewrite S1.
    unfold groupStep, target. cbn [Obj.get]. rewrite Hc2.
    rewrite (inherited_proto _ Hc2).
    cbn [Realm.onObjectPrototype Realm.withOnObjectPrototype Obj.get].
    rewrite E. cbn [read]. unfold subcategoriesOf. cbn [Obj.set Obj.get].
    rewrite String.eqb_refl. cbn [Obj.get]. unfold readObjectPrototype.
    rewrite Hs2, Hs1.
    cbn [Realm.onObjectPrototype Realm.withOnObjectPrototype Obj.get].
    rewrite String.eqb_refl. cbn [pushAt]. unfold Realm.inheritedArray.
    cbn [Realm.onObjectPrototype Realm.withOnObjectPrototype Obj.get].
    rewrite String.eqb_refl. cbn. rewrite String.eqb_refl.
    subst realm'. reflexivity. }
  split; [exact Hg|]. unfold formatAsOptionGroups. rewrite Hg.
  unfold optionGroupsOf, Obj.entries. cbn [Obj.indexed filter fst].
  unfold Obj.isNamed. cbn [fst].
  now destruct (Obj.arrayIndex (category m2)).
Qed.

Lemma prototype_category_reaches_every_object_witness :
  formatAsOptionGroups Realm.ecmaScript2024
    [ {| name := "a"; category := "__proto__"; subcategory := "General";
         type := "number"; description := ""; commentary := "";
         deprecationStatus := active |};
      {| name := "b"; category := "Costs"; subcategory := "General";
         type := "number"; description := ""; commentary := "";
         deprecationStatus := active |} ]
  = Some ([],
          Realm.withOnObjectPrototype Realm.ecmaScript2024
            [ ("General",
               {| Realm.arrayLength := 2;
                  Realm.atIndex :=
                    [ (0%N,
                       Realm.pushed
                         {| name := "a"; category := "__proto__";
                            subcategory := "General"; type := "number";
                            description := ""; commentary := "";
                            deprecationStatus := active |});
                      (1%N,
                       Realm.pushed
                         {| name := "b"; category := "Costs";
                            subcategory := "General"; type := "number";
                            description := ""; commentary := "";
                            deprecationStatus := active |}) ];
                  Realm.atName := [] |}) ]).
Proof.
  apply (proj2 (prototype_category_reaches_every_object
           Realm.ecmaScript2024
           {| name := "a"; category := "__proto__";
              subcategory := "General"; type := "number";
              description := ""; commentary := "";
              deprecationStatus := active |}
           {| name := "b"; category := "Costs"; subcategory := "General";
              type := "number"; description := ""; commentary := "";
              deprecationStatus := active |}
           eq_refl eq_refl eq_refl eq_refl
           ltac:(discriminate) eq_refl)).
Defined.

(** ** exportByCategory, exportActiveMetrics *)

Lemma lowerChar_idem (c : ascii) : lowerChar (lowerChar c) = lowerChar c.
Proof. destruct c as [[] [] [] [] [] [] [] []]; reflexivity. Qed.

Lemma toLowerCase_idem (s : string) :
  toLowerCase (toLowerCase s) = toLowerCase s.
Proof.
  induction s as [|c s IH]; cbn; [reflexivity|].
  now rewrite lowerChar_idem, IH.
Qed.

(** X14.  [exportByCategory] keeps, in their order, the records whose category
    holds the query somewhere, both taken in lower case: the case of the
    query does not matter, the empty query keeps everything, a query that
    holds another keeps no more than the other does, and filtering by
    category and by activity can be done in either order. *)
Theorem exportByCategory_selects :
  forall (ms : list Metric) (q : string),
    (forall m,
        In m (exportByCategory ms q) <->
        In m ms /\
        exists a b, toLowerCase (category m) = a ++ toLowerCase q ++ b) /\
    exportByCategory ms (toLowerCase q) = exportByCategory ms q /\
    exportByCategory ms "" = ms /\
    (forall q',
        includes (toLowerCase q) (toLowerCase q') = true ->
        incl (exportByCategory ms q) (exportByCategory ms q')) /\
    exportActiveMetrics (exportByCategory ms q)
    = exportByCategory (exportActiveMetrics ms) q.
Proof.
  intros ms q. unfold exportByCategory, exportActiveMetrics.
  split; [|split; [|split; [|split]]].
  - intros m. now rewrite filter_In, includes_iff.
  - now rewrite toLowerCase_idem.
  - cbn [toLowerCase]. induction ms as [|m ms IH]; cbn [filter];
      [reflexivity|].
    rewrite includes_empty. now rewrite IH.
  - intros q' Hq m. rewrite !filter_In. intros [Hin Hm].
    split; [exact Hin|]. exact (includes_trans _ _ _ Hm Hq).
  - induction ms as [|m ms IH]; cbn [filter]; [reflexivity|].
    destruct (includes (toLowerCase (category m)) (toLowerCase q)) eqn:E1,
             (isActive (deprecationStatus m)) eqn:E2; cbn [filter];
      rewrite ?E1, ?E2, IH; reflexivity.
Qed.

Lemma exportByCategory_selects_witness :
  incl
    (exportByCategory
       [ {| name := "a"; category := "SKAN metrics"; subcategory := "General";
            type := "number"; description := ""; commentary := "";
            deprecationStatus := active |} ] "SKAN Metrics")
    (exportByCategory
       [ {| name := "a"; category := "SKAN metrics"; subcategory := "General";
            type := "number"; description := ""; commentary := "";
            deprecationStatus := active |} ] "skan").
Proof.
  apply (proj1 (proj2 (proj2 (proj2 (exportByCategory_selects
           [ {| name := "a"; category := "SKAN metrics";
                subcategory := "General"; type := "number";
                description := ""; commentary := "";
                deprecationStatus := active |} ] "SKAN Metrics"))))).
  reflexivity.
Defined.

Lemma forallb_filter {A : Type} (p q : A -> bool) (l : list A) :
  forallb p l = true -> forallb p (filter q l) = true.
Proof.
  induction l as [|x l IH]; cbn; [reflexivity|].
  intros H. apply andb_true_iff in H as [Hx Hl].
  destruct (q x); cbn; [rewrite Hx|]; now apply IH.
Qed.

Lemma Forall_filter {A : Type} (P : A -> Prop) (q : A -> bool) (l : list A) :
  Forall P l -> Forall P (filter q l).
Proof.
  intros H. apply Forall_forall. intros x Hx. apply filter_In in Hx as [Hx _].
  rewrite Forall_forall in H. now apply H.
Qed.

(** X11.  With a plain [Object.prototype] and no category [__proto__],
    [formatActiveAsOptionGroups] offers once every active record whose
    category names no inherited property, and no other record; it returns
    whenever [formatAsOptionGroups] does; and when every category and
    subcategory is ordinary it returns and offers every active record
    once. *)
Theorem formatActiveAsOptionGroups_offers_active :
  forall (realm : Realm.t) (ms : list Metric),
    plainPrototype realm ->
    Forall (fun m => category m <> "__proto__") ms ->
    (forall groups realm',
        formatActiveAsOptionGroups realm ms = Some (groups, realm') ->
        Permutation (offered groups)
                    (map name (filter stored (exportActiveMetrics ms))) /\
        forall v,
          In v (offered groups) ->
          exists m, In m ms /\ deprecationStatus m = active /\
                    stored m = true /\ name m = v) /\
    (formatAsOptionGroups realm ms <> None ->
     formatActiveAsOptionGroups realm ms <> None) /\
    (Forall ordinaryKeys ms ->
     exists groups,
       formatActiveAsOptionGroups realm ms = Some (groups, realm) /\
       Permutation (offered groups) (map name (exportActiveMetrics ms))).
Proof.
  intros realm ms Hp Hn.
  assert (Hn' : Forall (fun m => category m <> "__proto__")
                       (exportActiveMetrics ms))
    by (apply Forall_filter; exact Hn).
  split; [|split].
  - intros groups realm' H.
    unfold formatActiveAsOptionGroups, formatAsOptionGroups in H.
    destruct (groupMetrics realm (exportActiveMetrics ms)) as [[g r]|] eqn:Hg;
      [|discriminate].
    injection H as <- <-.
    destruct (groupMetrics_plain _ _ _ _ Hp Hn' Hg) as (_ & -> & _).
    split; [apply offered_plain|].
    intros v Hv.
    apply (Permutation_in _ (proj1 (offered_plain _))) in Hv.
    apply in_map_iff in Hv as (m & <- & Hm).
    apply filter_In in Hm as [Hm Hs].
    unfold exportActiveMetrics in Hm. apply filter_In in Hm as [Hin Ha].
    exists m. repeat split; try assumption.
    now destruct (deprecationStatus m).
  - unfold formatActiveAsOptionGroups, formatAsOptionGroups, groupMetrics.
    rewrite (groupFrom_plain ms realm [] Hp plainKeys_nil Hn).
    rewrite (groupFrom_plain _ realm [] Hp plainKeys_nil Hn').
    destruct (forallb (accepted realm) ms) eqn:E;
      [|intros H; now contradiction H].
    intros _. unfold exportActiveMetrics.
    rewrite (forallb_filter _ _ _ E). discriminate.
  - intros Ho.
    assert (Ho' : Forall ordinaryKeys (exportActiveMetrics ms))
      by (apply Forall_filter; exact Ho).
    exists (optionGroupsOf (fold_left storeRecord (exportActiveMetrics ms) [])).
    split.
    + unfold formatActiveAsOptionGroups, formatAsOptionGroups.
      now rewrite (groupMetrics_ordinary realm _ Hp Ho').
    + apply offered_plain.
Qed.

Lemma formatActiveAsOptionGroups_offers_active_witness :
  Permutation
    (offered
       [ {| groupLabel := "Costs - Basic";
            options := [ {| label := "a"; value := "a" |} ] |} ])
    (map name
       (filter stored
          (exportActiveMetrics
             [ {| name := "a"; category := "Costs"; subcategory := "Basic";
                  type := "number"; description := ""; commentary := "";
                  deprecationStatus := active |};
               {| name := "lost"; category := "toString";
                  subcategory := "General"; type := "number";
                  description := ""; commentary := "";
                  deprecationStatus := active |};
               {| name := "b"; category := "Costs";
                  subcategory := "General"; type := "number";
                  description := ""; commentary := "";
                  deprecationStatus := deprecated |} ]))).
Proof.
  apply (proj1 (formatActiveAsOptionGroups_offers_active
           Realm.ecmaScript2024
           [ {| name := "a"; category := "Costs"; subcategory := "Basic";
                type := "number"; description := ""; commentary := "";
                deprecationStatus := active |};
             {| name := "lost"; category := "toString";
                subcategory := "General"; type := "number";
                description := ""; commentary := "";
                deprecationStatus := active |};
             {| name := "b"; category := "Costs"; subcategory := "General";
                type := "number"; description := ""; commentary := "";
                deprecationStatus := deprecated |} ]
           eq_refl
           ltac:(repeat constructor; discriminate))
         _
         (divert Realm.ecmaScript2024
            {| name := "lost"; category := "toString";
               subcategory := "General"; type := "number";
               description := ""; commentary := "";
               deprecationStatus := active |})).
  vm_compute. reflexivity.
Defined.

(** ** removeExtraWhitespace *)

Section WhiteSpaceRuns.

Lemma trimEnd_cons (c : ascii) (r : string) :
  trimEnd (String c r)
  = match trimEnd r with
    | EmptyString => if isWhiteSpace c then "" else String c ""
    | _ => String c (trimEnd r)
    end.
Proof. cbn [trimEnd]. now destruct (trimEnd r). Qed.

Lemma spaced_replaced (s : string) :
  forall b, spaced b (replaceWhiteSpaceRuns b s) = true.
Proof.
  induction s as [|c s IH]; intros b; cbn [replaceWhiteSpaceRuns];
    [reflexivity|].
  destruct (isWhiteSpace c) eqn:E.
  - destruct b; [apply IH|]. cbn. now rewrite IH.
  - cbn [spaced]. rewrite E. apply IH.
Qed.

Lemma replace_spaced (s : string) :
  forall b, spaced b s = true -> replaceWhiteSpaceRuns b s = s.
Proof.
  induction s as [|c s IH]; intros b; cbn [spaced replaceWhiteSpaceRuns];
    [reflexivity|].
  destruct (isWhiteSpace c) eqn:E.
  - intros H. apply andb_true_iff in H as [H Hs].
    apply andb_true_iff in H as [Hc Hb].
    apply Ascii.eqb_eq in Hc. subst c. destruct b; [discriminate|].
    now rewrite (IH true Hs).
  - intros H. now rewrite (IH false H).
Qed.

Lemma spaced_weaken (s : string) (b : bool) :
  spaced b s = true -> spaced false s = true.
Proof.
  destruct s as [|c s]; [reflexivity|]. cbn [spaced].
  destruct (isWhiteSpace c); [|trivial].
  intros H. apply andb_true_iff in H as [H Hs].
  apply andb_true_iff in H as [Hc _]. now rewrite Hc, Hs.
Qed.

Lemma spaced_trimStart (s : string) (b : bool) :
  spaced b s = true -> spaced false (trimStart s) = true.
Proof.
  revert b. induction s as [|c s IH]; intros b; [reflexivity|].
  cbn [trimStart]. destruct (isWhiteSpace c) eqn:E.
  - cbn [spaced]. rewrite E. intros H.
    apply andb_true_iff in H as [_ Hs]. exact (IH true Hs).
  - apply spaced_weaken.
Qed.

Lemma spaced_trimEnd (s : string) :
  forall b, spaced b s = true -> spaced b (trimEnd s) = true.
Proof.
  induction s as [|c s IH]; intros b; [reflexivity|].
  rewrite trimEnd_cons. cbn [spaced].
  destruct (isWhiteSpace c) eqn:E.
  - intros H. apply andb_true_iff in H as [H Hs].
    specialize (IH true Hs).
    destruct (trimEnd s) as [|d t]; [reflexivity|].
    change (spaced b (String c (String d t)))
      with (if isWhiteSpace c
            then Ascii.eqb c " " && negb b && spaced true (String d t)
            else spaced false (String d t)).
    now rewrite E, H, IH.
  - intros H. specialize (IH false H).
    destruct (trimEnd s) as [|d t].
    + cbn [spaced]. now rewrite E.
    + change (spaced b (String c (String d t)))
        with (if isWhiteSpace c
              then Ascii.eqb c " " && negb b && spaced true (String d t)
              else spaced false (String d t)).
      now rewrite E.
Qed.

Lemma spaced_no_double_space (s : string) (b : bool) :
  spaced b s = true -> includes s "  " = false.
Proof.
  revert b. induction s as [|c s IH]; intros b; [reflexivity|].
  cbn [spaced]. rewrite includes_unfold. cbn [startsWith].
  destruct (isWhiteSpace c) eqn:E.
  - intros H. apply andb_true_iff in H as [_ Hs].
    rewrite (IH true Hs), orb_false_r.
    destruct s as [|d s]; [now rewrite andb_false_r|].
    cbn [spaced] in Hs.
    destruct (Ascii.eqb_spec d " ") as [->|]; cbn [andb].
    + cbn in Hs. discriminate.
    + now rewrite andb_false_r.
  - intros H. rewrite (IH false H), orb_false_r.
    destruct (Ascii.eqb_spec c " ") as [->|]; [discriminate | reflexivity].
Qed.

Lemma spaced_only_spaces (s : string) (b : bool) (c : ascii) :
  spaced b s = true -> hasChar c s = true -> isWhiteSpace c = true ->
  c = " "%char.
Proof.
  revert b. induction s as [|d s IH]; intros b; [discriminate|].
  cbn [spaced hasChar]. intros Hs Hc Hw.
  apply orb_true_iff in Hc as [Hc|Hc].
  - apply Ascii.eqb_eq in Hc. subst d. rewrite Hw in Hs.
    apply andb_true_iff in Hs as [Hs _].
    apply andb_true_iff in Hs as [Hs _]. now apply Ascii.eqb_eq in Hs.
  - destruct (isWhiteSpace d).
    + apply andb_true_iff in Hs as [_ Hs]. exact (IH true Hs Hc Hw).
    + exact (IH false Hs Hc Hw).
Qed.

Lemma nonWhite_replaced (s : string) :
  forall b, nonWhite (replaceWhiteSpaceRuns b s) = nonWhite s.
Proof.
  induction s as [|c s IH]; intros b; cbn [replaceWhiteSpaceRuns nonWhite];
    [reflexivity|].
  destruct (isWhiteSpace c) eqn:E.
  - destruct b; [apply IH|]. cbn. apply IH.
  - cbn [nonWhite]. rewrite E. now rewrite IH.
Qed.

Lemma nonWhite_trimStart (s : string) : nonWhite (trimStart s) = nonWhite s.
Proof.
  induction s as [|c s IH]; [reflexivity|]. cbn [trimStart nonWhite].
  destruct (isWhiteSpace c) eqn:E; [exact IH|]. cbn [nonWhite].
  now rewrite E.
Qed.

Lemma nonWhite_trimEnd (s : string) : nonWhite (trimEnd s) = nonWhite s.
Proof.
  induction s as [|c s IH]; [reflexivity|]. rewrite trimEnd_cons.
  destruct (trimEnd s) as [|d t] eqn:Et.
  - cbn [nonWhite] in IH. cbn [nonWhite]. rewrite <- IH.
    destruct (isWhiteSpace c) eqn:E; [reflexivity|]. cbn [nonWhite].
    now rewrite E.
  - remember (String d t) as u. cbn [nonWhite]. now rewrite IH.
Qed.

Lemma nonWhite_trim (s : string) : nonWhite (trim s) = nonWhite s.
Proof. unfold trim. now rewrite nonWhite_trimEnd, nonWhite_trimStart. Qed.

Lemma spaced_removeExtraWhitespace (s : string) :
  spaced false (removeExtraWhitespace s) = true.
Proof.
  unfold removeExtraWhitespace, trim.
  apply spaced_trimEnd, (spaced_trimStart _ false), spaced_replaced.
Qed.

End WhiteSpaceRuns.

(** X15.  The result of [removeExtraWhitespace] has no white space at either
    end, no white space but the space, and never two spaces in a row; the
    code units that are not white space are those of the input, in their
    order. *)
Theorem removeExtraWhitespace_normal_form :
  forall s : string,
    trim (removeExtraWhitespace s) = removeExtraWhitespace s /\
    includes (removeExtraWhitespace s) "  " = false /\
    (forall c,
        hasChar c (removeExtraWhitespace s) = true ->
        isWhiteSpace c = true -> c = " "%char) /\
    nonWhite (removeExtraWhitespace s) = nonWhite s.
Proof.
  intros s. pose proof (spaced_removeExtraWhitespace s) as Hs.
  repeat split.
  - unfold removeExtraWhitespace. apply trim_idem.
  - exact (spaced_no_double_space _ _ Hs).
  - intros c. exact (spaced_only_spaces _ _ c Hs).
  - unfold removeExtraWhitespace.
    now rewrite nonWhite_trim, nonWhite_replaced.
Qed.

Lemma removeExtraWhitespace_normal_form_witness :
  hasChar " " (removeExtraWhitespace (String "009" " Total   views ")) = true /\
  " "%char = " "%char.
Proof.
  split; [reflexivity|].
  apply (proj1 (proj2 (proj2
           (removeExtraWhitespace_normal_form
              (String "009" " Total   views "))))); reflexivity.
Defined.

(** X16.  [removeExtraWhitespace] changes nothing when applied a second time,
    and the strings it leaves alone are the trimmed strings whose white
    space is made of single spaces. *)
Theorem removeExtraWhitespace_idempotent :
  forall s : string,
    removeExtraWhitespace (removeExtraWhitespace s)
    = removeExtraWhitespace s /\
    (removeExtraWhitespace s = s <->
     trim s = s /\ spaced false s = true).
Proof.
  intros s.
  assert (Hfix : forall t, trim t = t -> spaced false t = true ->
                           removeExtraWhitespace t = t).
  { intros t Ht Hs. unfold removeExtraWhitespace.
    now rewrite (replace_spaced _ _ Hs). }
  split.
  - apply Hfix.
    + unfold removeExtraWhitespace. apply trim_idem.
    + apply spaced_removeExtraWhitespace.
  - split.
    + intros H. rewrite <- H. split.
      * unfold removeExtraWhitespace. apply trim_idem.
      * apply spaced_removeExtraWhitespace.
    + intros [Ht Hs]. now apply Hfix.
Qed.

Lemma removeExtraWhitespace_idempotent_witness :
  removeExtraWhitespace "Total views" = "Total views".
Proof.
  apply (proj2 (removeExtraWhitespace_idempotent "Total views")).
  split; reflexivity.
Defined.

(** ** What the cells cannot hold *)

Section CleanCells.

Variable d : ascii.

Lemma hasChar_trimStart (s : string) :
  hasChar d s = false -> hasChar d (trimStart s) = false.
Proof.
  induction s as [|c s IH]; [trivial|]. cbn [trimStart].
  destruct (isWhiteSpace c); [|trivial].
  cbn [hasChar]. intros H. apply orb_false_iff in H as [_ H]. now apply IH.
Qed.

Lemma hasChar_trimEnd (s : string) :
  hasChar d s = false -> hasChar d (trimEnd s) = false.
Proof.
  induction s as [|c s IH]; [trivial|]. rewrite trimEnd_cons.
  cbn [hasChar]. intros H. apply orb_false_iff in H as [Hc Hs].
  specialize (IH Hs). destruct (trimEnd s) as [|x t].
  - destruct (isWhiteSpace c); cbn [hasChar]; [reflexivity|].
    now rewrite Hc.
  - remember (String x t) as u. cbn [hasChar]. now rewrite Hc, IH.
Qed.

Lemma hasChar_trim (s : string) :
  hasChar d s = false -> hasChar d (trim s) = false.
Proof. intros H. now apply hasChar_trimEnd, hasChar_trimStart. Qed.

Lemma hasChar_substringFrom (n : nat) (s : string) :
  hasChar d s = false -> hasChar d (substringFrom n s) = false.
Proof.
  revert s. induction n as [|n IH]; intros s; [trivial|].
  destruct s as [|c s]; [trivial|]. cbn [substringFrom hasChar].
  intros H. apply orb_false_iff in H as [_ H]. now apply IH.
Qed.

Lemma hasChar_removeFirst (pat s : string) :
  hasChar d s = false -> hasChar d (Re.removeFirst pat s) = false.
Proof.
  induction s as [|c s IH]; rewrite removeFirst_unfold.
  - destruct (Re.matchAt pat ""); [apply hasChar_substringFrom | trivial].
  - destruct (Re.matchAt pat (String c s));
      [apply hasChar_substringFrom|].
    cbn [hasChar]. intros H. apply orb_false_iff in H as [Hc Hs].
    now rewrite Hc, (IH Hs).
Qed.

Lemma hasChar_removeLeadingHash (s : string) :
  hasChar d s = false -> hasChar d (Re.removeLeadingHash s) = false.
Proof.
  destruct s as [|c r]; [trivial|]. rewrite removeLeadingHash_unfold.
  destruct (Ascii.eqb c "#"); [|trivial].
  cbn [hasChar]. intros H. now apply orb_false_iff in H as [_ H].
Qed.

Lemma hasChar_removeWidthsFrom (s : string) :
  forall n, hasChar d s = false ->
            hasChar d (Re.removeWidthsFrom n s) = false.
Proof.
  induction s as [|c s IH]; intros n; [trivial|].
  cbn [hasChar]. intros H. apply orb_false_iff in H as [Hc Hs].
  cbn [Re.removeWidthsFrom]. destruct n as [|n]; [|now apply IH].
  destruct (Re.widthMatch (String c s)); [now apply IH|].
  cbn [hasChar]. now rewrite Hc, (IH 0 Hs).
Qed.

Lemma hasChar_split (d' : ascii) (s : string) :
  hasChar d s = false ->
  Forall (fun x => hasChar d x = false) (split d' s).
Proof.
  induction s as [|c s IH]; cbn [split hasChar].
  - intros _. now repeat constructor.
  - intros H. apply orb_false_iff in H as [Hc Hs]. specialize (IH Hs).
    destruct (Ascii.eqb c d'); [now constructor|].
    destruct (split d' s) as [|h t]; [now repeat constructor; cbn;
                                        rewrite Hc|].
    apply Forall_cons_iff in IH as [Hh Ht]. constructor; [|exact Ht].
    cbn [hasChar]. now rewrite Hc, Hh.
Qed.

End CleanCells.

Section CleanTables.

Lemma segment_clean (line x : string) :
  hasChar LF line = false -> In x (split "|" line) -> noBarNoLineFeed x.
Proof.
  intros Hl Hx. split.
  - pose proof (proj2 (join_split "|" line)) as H.
    rewrite Forall_forall in H. now apply H.
  - pose proof (hasChar_split LF "|" line Hl) as H.
    rewrite Forall_forall in H. now apply H.
Qed.

Lemma line_without_LF (text line : string) :
  In line (split LF text) -> hasChar LF line = false.
Proof.
  intros H. pose proof (proj2 (join_split LF text)) as HF.
  rewrite Forall_forall in HF. now apply HF.
Qed.

Lemma rowCells_clean (line : string) :
  hasChar LF line = false ->
  Forall (fun c => noBarNoLineFeed c /\ trimmed c) (rowCells line).
Proof.
  intros Hl. unfold rowCells. apply Forall_forall. intros c Hc.
  apply in_map_iff in Hc as (x & <- & Hx). apply filter_In in Hx as [Hx _].
  destruct (segment_clean (Re.removeLeadingHash line) x) as [Hb Hn];
    [now apply hasChar_removeLeadingHash | exact Hx |].
  split; [split; now apply hasChar_trim | apply trim_idem].
Qed.

Lemma headerCells_clean (line : string) :
  hasChar LF line = false ->
  Forall (fun c => noBarNoLineFeed c /\ trimmed c) (headerCells line).
Proof.
  intros Hl. unfold headerCells. apply Forall_forall. intros c Hc.
  apply in_map_iff in Hc as (x & <- & Hx). apply filter_In in Hx as [Hx _].
  destruct (segment_clean line x Hl Hx) as [Hb Hn].
  split; [|apply trim_idem].
  split; apply hasChar_trim; now apply hasChar_removeWidthsFrom.
Qed.

Lemma parseXTable_clean (text : string) (t : ParsedTable) :
  parseXTable text = Some t ->
  Forall (fun c => noBarNoLineFeed c /\ trimmed c) (headers t) /\
  Forall (Forall (fun c => noBarNoLineFeed c /\ trimmed c)) (rows t).
Proof.
  unfold parseXTable.
  destruct (filter (fun line => truthy (trim line)) (split LF text))
    as [|h rest] eqn:E; [discriminate|].
  intros H. injection H as <-. cbn [headers rows].
  assert (Hin : forall l, In l (h :: rest) -> hasChar LF l = false).
  { intros l Hl. rewrite <- E in Hl. apply filter_In in Hl as [Hl _].
    exact (line_without_LF _ _ Hl). }
  split.
  - apply headerCells_clean, Hin. now left.
  - apply Forall_forall. intros r Hr.
    apply in_map_iff in Hr as (l & <- & Hl).
    apply rowCells_clean, Hin.
    destruct rest as [|x rest]; [contradiction|]. cbn in Hl.
    now right; right.
Qed.

Lemma rows_clean (text : string) (t : ParsedTable) :
  parseXTable text = Some t ->
  Forall (Forall (fun c => noBarNoLineFeed c /\ trimmed c)) (rows t).
Proof. intros H. exact (proj2 (parseXTable_clean _ _ H)). Qed.

Lemma cellOr_cases (row : list string) (i : Z) (dflt : string) :
  cellOr row i dflt = dflt \/ In (cellOr row i dflt) row.
Proof.
  unfold cellOr.
  destruct (negb (i =? -1)%Z && truthyCell (at_ row i)) eqn:E; [|now left].
  right. apply andb_true_iff in E as [_ E].
  destruct (at_ row i) as [c|] eqn:Ea; [|discriminate].
  cbn. exact (at_In _ _ _ Ea).
Qed.

Lemma extracted_clean (row hs : list string) (cat sub : string)
    (m : Metric) :
  Forall (fun c => noBarNoLineFeed c /\ trimmed c) row ->
  extractMetricFromRow row hs cat sub = Some m ->
  Forall noBarNoLineFeed [name m; type m; description m; commentary m].
Proof.
  intros Hr E. rewrite Forall_forall in Hr.
  apply extractMetricFromRow_Some in E as (Hc & _ & _ & _ & ->).
  cbn [name type description commentary].
  assert (Hcell : forall i dflt, noBarNoLineFeed dflt ->
                                 noBarNoLineFeed (cellOr row i dflt)).
  { intros i dflt Hd. destruct (cellOr_cases row i dflt) as [->|Hin];
      [exact Hd | now destruct (Hr _ Hin)]. }
  repeat constructor; try (apply Hcell; now split).
  - destruct (Hr _ (at_In _ _ _ Hc)) as [[Hb _] _].
    unfold parseDeprecationStatus.
    destruct (Re.test toBeDeprecatedPattern _);
      [now apply hasChar_trim, hasChar_removeFirst|].
    destruct (Re.test deprecatedPattern _);
      [now apply hasChar_trim, hasChar_removeFirst | exact Hb].
  - destruct (Hr _ (at_In _ _ _ Hc)) as [[_ Hn] _].
    unfold parseDeprecationStatus.
    destruct (Re.test toBeDeprecatedPattern _);
      [now apply hasChar_trim, hasChar_removeFirst|].
    destruct (Re.test deprecatedPattern _);
      [now apply hasChar_trim, hasChar_removeFirst | exact Hn].
Qed.

End CleanTables.

(** X8.  No header and no cell that [parseXTable] returns holds a bar or a line
    feed, or white space at either end; and so no record has a bar or a
    line feed in its name, type, description or commentary. *)
Theorem no_bar_or_line_feed_in_fields :
  (forall (text : string) (t : ParsedTable),
     parseXTable text = Some t ->
     Forall (fun c => noBarNoLineFeed c /\ trimmed c) (headers t) /\
     Forall (Forall (fun c => noBarNoLineFeed c /\ trimmed c)) (rows t)) /\
  (forall (content : string) (ms : list Metric) (m : Metric),
     processMarkdownContent content = Some ms -> In m ms ->
     Forall noBarNoLineFeed
            [name m; type m; description m; commentary m]).
Proof.
  split; [exact parseXTable_clean|].
  intros content ms m H Hin.
  set (P := fun m : Metric =>
              Forall noBarNoLineFeed
                     [name m; type m; description m; commentary m]).
  set (Inv := fun w : Walker => Forall P (metrics w)).
  unfold processMarkdownContent in H.
  destruct (scanLines initialWalker (split LF content)) as [w|] eqn:E;
    [|discriminate].
  injection H as <-.
  assert (Hrow : forall hs w0 row,
             Forall (fun c => noBarNoLineFeed c /\ trimmed c) row ->
             Inv w0 -> Inv (processRow hs w0 row)).
  { intros hs w0 row Hr Hw. unfold processRow, Inv.
    destruct (inlineHeaderOf hs row); [exact Hw|].
    destruct (extractMetricFromRow row hs _ _) as [m'|] eqn:Ex;
      [|exact Hw].
    cbn. apply Forall_app. split; [exact Hw|].
    constructor; [|constructor]. exact (extracted_clean _ _ _ _ _ Hr Ex). }
  assert (Hw : Inv w).
  { apply (proj1 (scanLines_invariant (split LF content)
                    (Forall (fun c => noBarNoLineFeed c /\ trimmed c)) Inv
                    rows_clean
                    (fun w0 line _ _ Hi => Hi) (fun w0 line _ _ Hi => Hi)
                    (fun w0 line _ _ Hi => Hi) Hrow
                    (split LF content) (incl_refl _))
             initialWalker w E).
    constructor. }
  unfold Inv in Hw. rewrite Forall_forall in Hw. now apply Hw.
Qed.

Lemma no_bar_or_line_feed_in_fields_witness :
  Forall noBarNoLineFeed ["total_comments"; "number"; "Total comments"; ""].
Proof.
  apply (proj2 no_bar_or_line_feed_in_fields exampleDocument
           [ {| name := "video_views"; category := "Engagement";
                subcategory := "Video Metrics"; type := "number";
                description := "Total views"; commentary := "";
                deprecationStatus := active |};
             {| name := "total_comments"; category := "Engagement";
                subcategory := "Video Metrics - Legacy Fields";
                type := "number"; description := "Total comments";
                commentary := ""; deprecationStatus := deprecated |} ]
           {| name := "total_comments"; category := "Engagement";
              subcategory := "Video Metrics - Legacy Fields";
              type := "number"; description := "Total comments";
              commentary := ""; deprecationStatus := deprecated |}).
  - vm_compute. reflexivity.
  - right. left. reflexivity.
Defined.

(** * The downloader *)

(** ** sanitizeFilename *)

Section FileNames.

Lemma allChars_hasChar (p : ascii -> bool) (s : string) (c : ascii) :
  allChars p s = true -> hasChar c s = true -> p c = true.
Proof.
  induction s as [|x s IH]; cbn [allChars hasChar]; [discriminate|].
  intros H Hc. apply andb_true_iff in H as [Hx Hs].
  apply orb_true_iff in Hc as [Hc|Hc]; [|now apply IH].
  apply Ascii.eqb_eq in Hc. now subst x.
Qed.

Lemma allChars_impl (p q : ascii -> bool) (s : string) :
  (forall c, p c = true -> q c = true) ->
  allChars p s = true -> allChars q s = true.
Proof.
  intros Hpq. induction s as [|x s IH]; cbn [allChars]; [trivial|].
  intros H. apply andb_true_iff in H as [Hx Hs].
  now rewrite (Hpq _ Hx), (IH Hs).
Qed.

Lemma replaceInvalidChars_valid (s : string) :
  allChars (fun c => negb (isInvalidFilenameChar c))
           (replaceInvalidChars s) = true.
Proof.
  induction s as [|c s IH]; cbn [replaceInvalidChars allChars];
    [reflexivity|].
  rewrite IH, andb_true_r.
  destruct (isInvalidFilenameChar c) eqn:E; [reflexivity | now rewrite E].
Qed.

Lemma underscore_plain (s : string) :
  forall b,
    allChars (fun c => negb (isInvalidFilenameChar c)) s = true ->
    allChars isPlainChar (underscoreWhiteSpaceRuns b s) = true.
Proof.
  induction s as [|c s IH]; intros b; cbn [allChars]; [reflexivity|].
  intros H. apply andb_true_iff in H as [Hc Hs].
  cbn [underscoreWhiteSpaceRuns]. destruct (isWhiteSpace c) eqn:E.
  - destruct b; [now apply IH|]. cbn [allChars]. now rewrite IH.
  - cbn [allChars]. unfold isPlainChar at 1. now rewrite Hc, E, IH.
Qed.

Variable p : ascii -> bool.

Lemma allChars_removeLeadingDots (s : string) :
  allChars p s = true -> allChars p (removeLeadingDots s) = true.
Proof.
  induction s as [|c s IH]; [trivial|]. cbn [removeLeadingDots].
  destruct (Ascii.eqb c "."); [|trivial]. cbn [allChars].
  intros H. apply andb_true_iff in H as [_ H]. now apply IH.
Qed.

Lemma removeTrailingDots_cons (c : ascii) (r : string) :
  removeTrailingDots (String c r)
  = match removeTrailingDots r with
    | EmptyString => if Ascii.eqb c "." then "" else String c ""
    | _ => String c (removeTrailingDots r)
    end.
Proof. cbn [removeTrailingDots]. now destruct (removeTrailingDots r). Qed.

Lemma allChars_removeTrailingDots (s : string) :
  allChars p s = true -> allChars p (removeTrailingDots s) = true.
Proof.
  induction s as [|c s IH]; [trivial|]. rewrite removeTrailingDots_cons.
  cbn [allChars]. intros H. apply andb_true_iff in H as [Hc Hs].
  specialize (IH Hs). destruct (removeTrailingDots s) as [|x t].
  - destruct (Ascii.eqb c "."); cbn [allChars]; [reflexivity|].
    now rewrite Hc.
  - remember (String x t) as u. cbn [allChars]. now rewrite Hc, IH.
Qed.

Lemma allChars_substringTo (n : nat) (s : string) :
  allChars p s = true -> allChars p (substringTo n s) = true.
Proof.
  revert s. induction n as [|n IH]; intros s; [reflexivity|].
  destruct s as [|c s]; [trivial|]. cbn [substringTo allChars].
  intros H. apply andb_true_iff in H as [Hc Hs]. now rewrite Hc, IH.
Qed.

End FileNames.

Section Dots.

Lemma removeLeadingDots_no_dot (s : string) :
  startsWith (removeLeadingDots s) "." = false.
Proof.
  induction s as [|c s IH]; [reflexivity|]. cbn [removeLeadingDots].
  destruct (Ascii.eqb c ".") eqn:E; [exact IH|]. cbn. now rewrite E.
Qed.

Lemma removeTrailingDots_head (s : string) :
  startsWith s "." = false ->
  startsWith (removeTrailingDots s) "." = false.
Proof.
  destruct s as [|c s]; [trivial|]. rewrite removeTrailingDots_cons.
  cbn [startsWith]. rewrite andb_true_r. intros E.
  destruct (removeTrailingDots s); [rewrite E|]; cbn; now rewrite ?E.
Qed.

Lemma substringTo_head (n : nat) (s : string) :
  startsWith s "." = false -> startsWith (substringTo n s) "." = false.
Proof.
  destruct n as [|n]; [reflexivity|]. destruct s as [|c s]; [trivial|].
  cbn. trivial.
Qed.

Lemma length_substringTo (n : nat) (s : string) :
  String.length (substringTo n s) <= n.
Proof.
  revert s. induction n as [|n IH]; intros s; [cbn; lia|].
  destruct s as [|c s]; cbn; [lia|]. specialize (IH s). lia.
Qed.

Lemma substringTo_all (n : nat) (s : string) :
  String.length s <= n -> substringTo n s = s.
Proof.
  revert s. induction n as [|n IH]; intros s.
  - destruct s; cbn; [reflexivity | lia].
  - destruct s as [|c s]; cbn; [reflexivity|]. intros H.
    rewrite IH; [reflexivity | lia].
Qed.

Lemma length_replaceInvalidChars (s : string) :
  String.length (replaceInvalidChars s) = String.length s.
Proof. induction s as [|c s IH]; cbn; congruence. Qed.

Lemma length_underscore (s : string) :
  forall b, String.length (underscoreWhiteSpaceRuns b s) <= String.length s.
Proof.
  induction s as [|c s IH]; intros b; cbn; [lia|].
  destruct (isWhiteSpace c); [destruct b|]; cbn;
    [specialize (IH true) | specialize (IH true) | specialize (IH false)];
    lia.
Qed.

Lemma length_removeLeadingDots (s : string) :
  String.length (removeLeadingDots s) <= String.length s.
Proof.
  induction s as [|c s IH]; cbn; [lia|].
  destruct (Ascii.eqb c "."); cbn; lia.
Qed.

Lemma length_removeTrailingDots (s : string) :
  String.length (removeTrailingDots s) <= String.length s.
Proof.
  induction s as [|c s IH]; [cbn; lia|]. rewrite removeTrailingDots_cons.
  destruct (removeTrailingDots s) as [|x t].
  - destruct (Ascii.eqb c "."); cbn; lia.
  - cbn in *. lia.
Qed.

Lemma lastChar_removeTrailingDots (s : string) :
  lastChar (removeTrailingDots s) <> Some "."%char.
Proof.
  induction s as [|c s IH]; [discriminate|]. rewrite removeTrailingDots_cons.
  destruct (removeTrailingDots s) as [|x t].
  - destruct (Ascii.eqb_spec c "."); cbn; congruence.
  - remember (String x t) as u. cbn [lastChar].
    destruct (lastChar u) eqn:E; [exact IH|].
    subst u. cbn in E. destruct (lastChar t); discriminate.
Qed.

Lemma replaceInvalidChars_fixed (s : string) :
  allChars (fun c => negb (isInvalidFilenameChar c)) s = true ->
  replaceInvalidChars s = s.
Proof.
  induction s as [|c s IH]; cbn; [reflexivity|].
  intros H. apply andb_true_iff in H as [Hc Hs].
  apply negb_true_iff in Hc. now rewrite Hc, IH.
Qed.

Lemma underscore_fixed (s : string) :
  forall b, allChars (fun c => negb (isWhiteSpace c)) s = true ->
            underscoreWhiteSpaceRuns b s = s.
Proof.
  induction s as [|c s IH]; intros b; cbn; [reflexivity|].
  intros H. apply andb_true_iff in H as [Hc Hs].
  apply negb_true_iff in Hc. now rewrite Hc, IH.
Qed.

Lemma removeLeadingDots_fixed (s : string) :
  startsWith s "." = false -> removeLeadingDots s = s.
Proof.
  destruct s as [|c s]; [reflexivity|]. cbn.
  rewrite andb_true_r. now intros ->.
Qed.

Lemma removeTrailingDots_fixed (s : string) :
  lastChar s <> Some "."%char -> removeTrailingDots s = s.
Proof.
  induction s as [|c s IH]; [reflexivity|]. rewrite removeTrailingDots_cons.
  cbn [lastChar]. destruct (lastChar s) as [l|] eqn:E.
  - intros H. rewrite (IH H). destruct s; [discriminate | reflexivity].
  - intros H. destruct s as [|x t].
    + cbn. destruct (Ascii.eqb_spec c "."); congruence.
    + cbn in E. destruct (lastChar t); discriminate.
Qed.

End Dots.

(** X17.  A sanitized file name holds none of the nine replaced code units, in
    particular no slash of either kind, and no white space; it has at most
    255 code units and does not begin with a dot, so that it is neither
    [.] nor [..]. *)
Theorem sanitizeFilename_safe :
  forall filename : string,
    (forall c,
        hasChar c (sanitizeFilename filename) = true ->
        isInvalidFilenameChar c = false /\ isWhiteSpace c = false) /\
    String.length (sanitizeFilename filename) <= 255 /\
    startsWith (sanitizeFilename filename) "." = false.
Proof.
  intros filename. unfold sanitizeFilename.
  assert (Hall : allChars isPlainChar
                   (substringTo 255
                      (removeTrailingDots
                         (removeLeadingDots
                            (underscoreWhiteSpaceRuns false
                               (replaceInvalidChars filename))))) = true).
  { apply allChars_substringTo, allChars_removeTrailingDots,
      allChars_removeLeadingDots, underscore_plain,
      replaceInvalidChars_valid. }
  split; [|split].
  - intros c H. pose proof (allChars_hasChar _ _ c Hall H) as H'.
    unfold isPlainChar in H'. apply andb_true_iff in H' as [H1 H2].
    split; now apply negb_true_iff.
  - apply length_substringTo.
  - apply substringTo_head, removeTrailingDots_head,
      removeLeadingDots_no_dot.
Qed.

Lemma sanitizeFilename_safe_witness :
  isInvalidFilenameChar "_" = false /\ isWhiteSpace "_" = false.
Proof.
  apply (proj1 (sanitizeFilename_safe "Ad Groups/../v1.3?") "_"%char).
  reflexivity.
Defined.

(** X18.  For a name of at most 255 code units nothing is cut off: the
    sanitized name does not end with a dot, and sanitizing it again changes
    nothing.  For longer names the cut can leave a dot at the end, which a
    second pass removes. *)
Theorem sanitizeFilename_short_names :
  (forall filename : string,
     String.length filename <= 255 ->
     lastChar (sanitizeFilename filename) <> Some "."%char /\
     sanitizeFilename (sanitizeFilename filename)
     = sanitizeFilename filename) /\
  lastChar (sanitizeFilename (replicate 254 "a" ++ ".b")) = Some "."%char /\
  sanitizeFilename (sanitizeFilename (replicate 254 "a" ++ ".b"))
  <> sanitizeFilename (replicate 254 "a" ++ ".b").
Proof.
  split; [|split; [vm_compute; reflexivity | vm_compute; discriminate]].
  intros filename Hlen.
  set (t := removeTrailingDots
              (removeLeadingDots
                 (underscoreWhiteSpaceRuns false
                    (replaceInvalidChars filename)))).
  assert (Ht : String.length t <= 255).
  { unfold t.
    pose proof (length_removeTrailingDots
                  (removeLeadingDots
                     (underscoreWhiteSpaceRuns false
                        (replaceInvalidChars filename)))).
    pose proof (length_removeLeadingDots
                  (underscoreWhiteSpaceRuns false
                     (replaceInvalidChars filename))).
    pose proof (length_underscore (replaceInvalidChars filename) false).
    pose proof (length_replaceInvalidChars filename). lia. }
  assert (Hs : sanitizeFilename filename = t).
  { unfold sanitizeFilename. fold t. now apply substringTo_all. }
  assert (Hplain : allChars isPlainChar t = true).
  { unfold t. apply allChars_removeTrailingDots,
      allChars_removeLeadingDots, underscore_plain,
      replaceInvalidChars_valid. }
  assert (Hlast : lastChar t <> Some "."%char)
    by apply lastChar_removeTrailingDots.
  assert (Hhead : startsWith t "." = false).
  { unfold t. apply removeTrailingDots_head, removeLeadingDots_no_dot. }
  rewrite Hs. split; [exact Hlast|].
  unfold sanitizeFilename.
  rewrite (replaceInvalidChars_fixed t).
  2:{ apply (allChars_impl isPlainChar); [|exact Hplain].
      intros c Hc. unfold isPlainChar in Hc.
      now apply andb_true_iff in Hc as [Hc _]. }
  rewrite (underscore_fixed t).
  2:{ apply (allChars_impl isPlainChar); [|exact Hplain].
      intros c Hc. unfold isPlainChar in Hc.
      now apply andb_true_iff in Hc as [_ Hc]. }
  rewrite (removeLeadingDots_fixed _ Hhead).
  rewrite (removeTrailingDots_fixed _ Hlast).
  now apply substringTo_all.
Qed.

Lemma sanitizeFilename_short_names_witness :
  lastChar (sanitizeFilename "..Ad Groups: v1.3/get ...") <> Some "."%char /\
  sanitizeFilename (sanitizeFilename "..Ad Groups: v1.3/get ...")
  = sanitizeFilename "..Ad Groups: v1.3/get ...".
Proof.
  apply (proj1 sanitizeFilename_short_names "..Ad Groups: v1.3/get ...").
  cbn. lia.
Defined.

(** ** countDocs *)

Section DocTrees.

(** Induction on a node, with the property known of all its children. *)
Lemma DocNode_induction (P : DocNode -> Prop) :
  (forall i t pi st ty children,
      Forall P children -> P (mkDocNode i t pi st ty children)) ->
  forall node, P node.
Proof.
  intros step.
  exact (fix ind (node : DocNode) : P node :=
           match node with
           | mkDocNode i t pi st ty children =>
               step i t pi st ty children
                 ((fix all (l : list DocNode) : Forall P l :=
                     match l with
                     | [] => Forall_nil P
                     | n :: r => Forall_cons n (ind n) (all r)
                     end) children)
           end).
Qed.

Lemma fold_left_count_shift (l : list DocNode) (z : Z) :
  fold_left (fun count node => (count + countDocsNode node)%Z) l z
  = (z + countDocs l)%Z.
Proof.
  unfold countDocs. revert z. induction l as [|n l IH]; intros z; cbn.
  - lia.
  - rewrite IH, (IH (countDocsNode n)). lia.
Qed.

Lemma countDocs_cons (n : DocNode) (l : list DocNode) :
  countDocs (n :: l) = (countDocsNode n + countDocs l)%Z.
Proof.
  unfold countDocs at 1. cbn [fold_left]. rewrite fold_left_count_shift.
  lia.
Qed.

Lemma countDocsNode_unfold (node : DocNode) :
  countDocsNode node
  = ((if String.eqb (docType node) "MARKDOWN" then 1 else 0)
     + countDocs (child_docs node))%Z.
Proof.
  destruct node as [i t pi st ty children].
  cbn [countDocsNode docType child_docs].
  assert (H : (fix loop (nodes : list DocNode) : Z :=
                 match nodes with
                 | [] => 0%Z
                 | n :: rest => (countDocsNode n + loop rest)%Z
                 end) children = countDocs children).
  { induction children as [|n l IH]; [reflexivity|].
    now rewrite countDocs_cons, IH. }
  now rewrite H.
Qed.

Lemma nodesOf_unfold (node : DocNode) :
  nodesOf node = node :: allNodes (child_docs node).
Proof.
  destruct node as [i t pi st ty children]. cbn [nodesOf child_docs].
  assert (H : (fix all (nodes : list DocNode) : list DocNode :=
                 match nodes with
                 | [] => []
                 | n :: rest => (nodesOf n ++ all rest)%list
                 end) children = allNodes children).
  { unfold allNodes. induction children as [|n l IH]; [reflexivity|].
    cbn [flat_map]. now rewrite IH. }
  now rewrite H.
Qed.

Lemma countDocs_app (a b : list DocNode) :
  countDocs (a ++ b) = (countDocs a + countDocs b)%Z.
Proof.
  induction a as [|n a IH]; cbn [app]; [reflexivity|].
  rewrite !countDocs_cons, IH. lia.
Qed.

End DocTrees.

(** X19.  [countDocs] counts the nodes of type [MARKDOWN] of the whole forest,
    at whatever depth they lie; the count of two lists of trees put
    together is the sum of their counts, and it never exceeds the number
    of nodes. *)
Theorem countDocs_counts_markdown_nodes :
  forall nodes : list DocNode,
    countDocs nodes
    = Z.of_nat
        (List.length
           (filter (fun n => String.eqb (docType n) "MARKDOWN")
                   (allNodes nodes))) /\
    (0 <= countDocs nodes <= Z.of_nat (List.length (allNodes nodes)))%Z /\
    (forall more,
        countDocs (nodes ++ more) = (countDocs nodes + countDocs more)%Z).
Proof.
  assert (Hnode : forall node,
             countDocsNode node
             = Z.of_nat
                 (List.length
                    (filter (fun n => String.eqb (docType n) "MARKDOWN")
                            (nodesOf node)))).
  { apply DocNode_induction. intros i t pi st ty children Hc.
    rewrite countDocsNode_unfold, nodesOf_unfold.
    cbn [docType child_docs filter].
    assert (Hl : countDocs children
                 = Z.of_nat
                     (List.length
                        (filter (fun n => String.eqb (docType n) "MARKDOWN")
                                (allNodes children)))).
    { unfold allNodes. induction Hc as [|n l Hn _ IH]; [reflexivity|].
      rewrite countDocs_cons, IH, Hn. cbn [flat_map].
      rewrite filter_app, length_app. lia. }
    rewrite Hl. destruct (String.eqb ty "MARKDOWN"); cbn [List.length]; lia. }
  assert (Hlist : forall nodes,
             countDocs nodes
             = Z.of_nat
                 (List.length
                    (filter (fun n => String.eqb (docType n) "MARKDOWN")
                            (allNodes nodes)))).
  { intros nodes. unfold allNodes.
    induction nodes as [|n l IH]; [reflexivity|].
    rewrite countDocs_cons, IH, Hnode. cbn [flat_map].
    rewrite filter_app, length_app. lia. }
  intros nodes. split; [apply Hlist|]. split.
  - rewrite Hlist.
    pose proof (filter_length_le
                  (fun n => String.eqb (docType n) "MARKDOWN")
                  (allNodes nodes)).
    lia.
  - intros more. apply countDocs_app.
Qed.
